(** * Hemingway: provider adapter, execution engine and classifier

    A shallow embedding of the three pieces of the Hemingway orchestrator
    whose behaviour the specification pins down:

    - [ModelClient] (src/models/client.ts): message and tool translation to
      the OpenAI-style and Anthropic-style wire formats, and the
      configuration guards of [complete] and [streamComplete];
    - [BaseAgent] (src/agents/base.ts): the bounded tool-calling loop of
      [execute] and the containment of tool failures in [executeTool];
    - [Samantha] (src/core/samantha.ts) with the tag helpers of
      src/utils/index.ts: the explicit-tag, heuristic and model stages of
      [classifyTask].

    Conventions.  A JavaScript [number] that the code computes with is an
    IEEE 754 double ([PrimFloat.float]) or, where it only counts, a natural
    number; a number that the code passes on as it is written (a
    temperature) is the rational that the literal denotes.  A thrown
    [Error] is represented by its message; the SDKs and the code of this
    repository throw [Error]s, while a tool may throw any value, which is
    represented by [Thrown].  An [async] function is a computation in the
    monad [M] below, which threads the outside world (network, tools,
    clock, id generator) and records an observation trace. *)

From Stdlib Require Import ZArith QArith Qminmax Qabs String Ascii List Bool Lia.
From Stdlib Require Import DecimalString DecimalZ DecimalPos DecimalFacts.
From Stdlib Require Floats.
From stdpp Require Import base option gmap strings list.
Import ListNotations.

Set Warnings "-register-all,-inexact-float".

Local Open Scope string_scope.
Local Open Scope list_scope.

(** ** Outcomes and effects *)

(** The outcome of a call that may throw. *)
Inductive Result (A : Type) : Type :=
| Ok (a : A)
| Throw (message : string).
Arguments Ok {A} a.
Arguments Throw {A} message.

(** A thrown value that need not be an [Error]: what a tool throws, off
    which the handler of [executeTool] reads a [message], and what [retry]
    throws, which is [undefined] when it made no call.  It is an [Error],
    given by its message; [null]; [undefined]; or another value, which has
    no [message]. *)
Inductive Thrown : Type :=
| Thrown_error (message : string)
| Thrown_null
| Thrown_undefined
| Thrown_value.

(** How the promise of a tool settles. *)
Inductive Settled (A : Type) : Type :=
| Returned (a : A)
| Raised (thrown : Thrown).
Arguments Returned {A} a.
Arguments Raised {A} thrown.

(** ** JSON data *)

(** Values that [JSON.parse] can produce and that travel as tool-call
    arguments ([Record<string, unknown>]).  Objects keep their properties in
    insertion order. *)
Inductive JSON : Type :=
| JNull
| JBool (b : bool)
| JNumber (n : Z)
| JString (s : string)
| JArray (items : list JSON)
| JObject (props : list (string * JSON)).

(** The platform's [JSON.stringify] and [JSON.parse].  They are built-ins of
    the JavaScript runtime, not code of this repository, so the translation
    functions take them as an interface; [Json.codec] further down is an
    executable instance. *)
Class JsonCodec : Type := {
  JSON_stringify : JSON -> string;
  JSON_parse : string -> Result JSON
}.

(** ** Core types (src/types/index.ts) *)

Inductive ModelProvider : Type := openai | anthropic | lmstudio | ollama.

Record ModelCapabilities : Type := {
  contextWindow : Z;
  supportsTools : bool;
  supportsVision : bool;
  supportsStreaming : bool;
  maxOutputTokens : Z
}.

Record ModelInfo : Type := {
  mi_id : string;
  mi_name : string;
  mi_provider : ModelProvider;
  mi_isLocal : bool;
  mi_capabilities : ModelCapabilities;
  mi_isAvailable : bool
}.

Record ProviderConfig : Type := {
  pc_provider : ModelProvider;
  pc_apiKey : option string;
  pc_baseUrl : option string;
  pc_defaultModel : option string;
  pc_isEnabled : bool
}.

Inductive AgentType : Type := work | personal.

Inductive AgentRole : Type :=
  orchestrator | coding | github | slack | email | calendar | research
| creative | social | chat.

Inductive TaskPriority : Type := low | medium | high | urgent.

Inductive TaskStatus : Type :=
  pending | in_progress | waiting_input | completed | failed.

Record Artifact : Type := {
  art_type : string;
  art_name : string;
  art_content : string
}.

Record TaskResult : Type := {
  tr_success : bool;
  tr_output : option string;
  tr_error : option string;
  tr_artifacts : option (list Artifact)
}.

Record Task : Type := {
  task_id : string;
  task_title : string;
  task_description : string;
  task_type : AgentType;
  task_assignedAgent : option string;
  task_priority : TaskPriority;
  task_status : TaskStatus;
  task_createdAt : Z;
  task_updatedAt : Z;
  task_completedAt : option Z;
  task_result : option TaskResult;
  task_metadata : list (string * JSON)
}.

Inductive MessageRole : Type := user | assistant | system | tool.

Record ToolCall : Type := {
  tc_id : string;
  tc_name : string;
  tc_arguments : JSON
}.

Record ToolResult : Type := {
  toolCallId : string;
  success : bool;
  output : option string;
  error : option string
}.

Record Message : Type := {
  msg_id : string;
  msg_role : MessageRole;
  msg_content : string;
  msg_timestamp : Z;
  msg_agentId : option string;
  msg_toolCalls : option (list ToolCall);
  msg_toolResults : option (list ToolResult)
}.

(** A tool's declared parameter schema: the Zod constructors the agents use
    ([z.object], [z.array], [z.enum], [z.string], [z.number], [z.boolean],
    [.optional()]). *)
Inductive ZodType : Type :=
| ZString
| ZNumber
| ZBoolean
| ZEnum (values : list string)
| ZArray (element : ZodType)
| ZOptional (inner : ZodType)
| ZObject (shape : list (string * ZodType)).

(** A [Date] is its epoch time; [x || y] on optional strings takes the first
    one that is present and not empty. *)
Definition truthy (s : option string) : bool :=
  match s with
  | Some (String _ _) => true
  | _ => false
  end.

(** An optional string as a condition: the string, when it is set and not
    empty. *)
Definition present (s : option string) : option string :=
  match s with
  | Some (String a r) => Some (String a r)
  | _ => None
  end.

Definition or_else (s : option string) (d : string) : string :=
  match s with
  | Some (String a r) => String a r
  | _ => d
  end.

(** ** Completions *)

Inductive FinishReason : Type :=
  finish_stop | finish_tool_calls | finish_length | finish_error.

Record Usage : Type := {
  promptTokens : Z;
  completionTokens : Z;
  totalTokens : Z
}.

Record CompletionResponse : Type := {
  content : string;
  toolCalls : option (list ToolCall);
  usage : option Usage;
  finishReason : FinishReason
}.

(** ** The effect monad *)

(** What a run lets an observer see: the notifications of the event emitter,
    the error log, one entry per call of [modelClient.complete] with the
    model, the messages sent and what came back, and one entry per call of
    an SDK. *)
Inductive Event : Type :=
| Emit_started (task : Task)
| Emit_thinking (iteration : nat)
| Emit_tool_call (toolCall : ToolCall)
| Emit_tool_result (result : ToolResult)
| Emit_completed (task : Task) (result : TaskResult)
| Emit_failed (task : Task) (message : string)
| Log_error (context : string) (message : string)
| Completion (model : string) (messages : list Message)
    (answer : Result CompletionResponse)
| Network_call (provider : string) (model : string).

(** A computation reads and changes the world, returns or throws, and leaves
    a trace. *)
Definition M (World A : Type) : Type := World -> Result A * World * list Event.

Section Monad.
Context {World : Type}.

Definition ret {A} (a : A) : M World A := fun w => (Ok a, w, []).

Definition throw {A} (message : string) : M World A :=
  fun w => (Throw message, w, []).

Definition bind {A B} (m : M World A) (k : A -> M World B) : M World B :=
  fun w =>
    match m w with
    | (Ok a, w1, t1) =>
        match k a w1 with
        | (r, w2, t2) => (r, w2, t1 ++ t2)
        end
    | (Throw e, w1, t1) => (Throw e, w1, t1)
    end.

(** [try { m } catch (error) { handler error.message }] *)
Definition try_catch {A} (m : M World A) (handler : string -> M World A)
  : M World A :=
  fun w =>
    match m w with
    | (Ok a, w1, t1) => (Ok a, w1, t1)
    | (Throw e, w1, t1) =>
        match handler e w1 with
        | (r, w2, t2) => (r, w2, t1 ++ t2)
        end
    end.

Definition tell (e : Event) : M World unit := fun w => (Ok tt, w, [e]).

(** A call into the world: it may change the world and throw, and it is
    not the one that writes the trace. *)
Definition call {A} (f : World -> Result A * World) : M World A :=
  fun w => let (r, w1) := f w in (r, w1, []).

Definition read {A} (f : World -> A) : M World A := fun w => (Ok (f w), w, []).

(** A call of [modelClient.complete], observed. *)
Definition request (m : string) (messages : list Message)
  (f : World -> Result CompletionResponse * World)
  : M World CompletionResponse :=
  fun w => let (r, w1) := f w in (r, w1, [Completion m messages r]).
End Monad.

Notation "x <- m ;; k" := (bind m (fun x => k))
  (at level 100, m at next level, right associativity).
Notation "m ;;; k" := (bind m (fun _ => k))
  (at level 100, right associativity).

(** A run with an earlier trace put in front. *)
Definition prepend {World A} (t : list Event)
  (r : Result A * World * list Event) : Result A * World * list Event :=
  (fst (fst r), snd (fst r), t ++ snd r).

(** The calls of [modelClient.complete] in a trace, and whether such a call
    came back with tool calls to run. *)
Definition is_completion (e : Event) : bool :=
  match e with
  | Completion _ _ _ => true
  | _ => false
  end.

Definition completions (t : list Event) : list Event :=
  List.filter is_completion t.

Definition carries_tool_calls (response : CompletionResponse) : bool :=
  match toolCalls response with
  | Some (_ :: _) => true
  | _ => false
  end.

Definition answered_with_tool_calls (e : Event) : bool :=
  match e with
  | Completion _ _ (Ok response) => carries_tool_calls response
  | Completion _ _ (Throw _) => false
  | _ => true
  end.

(** A message without its id and timestamp. *)
Definition shape (m : Message)
  : MessageRole * string * option (list ToolCall) * option (list ToolResult) :=
  (msg_role m, msg_content m, msg_toolCalls m, msg_toolResults m).

Definition outcome {World A} (r : Result A * World * list Event) : Result A :=
  fst (fst r).
Definition world_after {World A} (r : Result A * World * list Event) : World :=
  snd (fst r).
Definition trace {World A} (r : Result A * World * list Event) : list Event :=
  snd r.

(** A tool of an agent's registry. *)
Record Tool (World : Type) : Type := {
  name : string;
  description : string;
  parameters : ZodType;
  execute : JSON -> World -> Settled ToolResult * World
}.
Arguments name {World} _.
Arguments description {World} _.
Arguments parameters {World} _.
Arguments execute {World} _ _ _.

Record CompletionOptions (World : Type) : Type := {
  opt_model : string;
  opt_messages : list Message;
  opt_tools : option (list (Tool World));
  opt_maxTokens : option nat;
  opt_temperature : option Q;
  opt_stream : option bool
}.
Arguments opt_model {World} _.
Arguments opt_messages {World} _.
Arguments opt_tools {World} _.
Arguments opt_maxTokens {World} _.
Arguments opt_temperature {World} _.
Arguments opt_stream {World} _.


(** ** String helpers of the JavaScript runtime *)

(** [s.includes(sub)] *)
Fixpoint includes (sub s : string) : bool :=
  String.prefix sub s ||
  match s with
  | EmptyString => false
  | String _ rest => includes sub rest
  end.

(** [s.startsWith(p)] *)
Definition startsWith (p s : string) : bool := String.prefix p s.

(** [s.split(sep)] for a one-character separator. *)
Fixpoint split (sep : ascii) (s : string) : list string :=
  match s with
  | EmptyString => [EmptyString]
  | String c rest =>
      if Ascii.eqb c sep then EmptyString :: split sep rest
      else match split sep rest with
           | [] => [String c EmptyString]
           | seg :: segs => String c seg :: segs
           end
  end.

(** ** A JavaScript [Map] with string keys *)

(** [map.set(key, value)] on a [Map] in insertion order: the value of a
    key that is there is replaced in place, a new key goes to the end. *)
Fixpoint map_set {V : Type} (key : string) (value : V)
  (entries : list (string * V)) : list (string * V) :=
  match entries with
  | [] => [(key, value)]
  | (k, v) :: rest =>
      if String.eqb k key then (key, value) :: rest
      else (k, v) :: map_set key value rest
  end.

(** [map.get(key)] *)
Definition map_get {V : Type} (key : string) (entries : list (string * V))
  : option V :=
  option_map snd (find (fun entry => String.eqb (fst entry) key) entries).

(** ** The model client (src/models/client.ts) *)

Module ModelClient.

(** *** Wire formats *)

Record OpenAIToolCall : Type := {
  oa_id : string;
  oa_function_name : string;
  oa_function_arguments : string
}.

Inductive OpenAIMessage : Type :=
| OpenAI_tool (tool_call_id : string) (content : string)
| OpenAI_assistant_calls (content : option string)
    (tool_calls : list OpenAIToolCall)
| OpenAI_plain (role : MessageRole) (content : string).

Record OpenAITool : Type := {
  oa_tool_name : string;
  oa_tool_description : string;
  oa_tool_parameters : JSON
}.

Inductive ContentBlock : Type :=
| Block_text (text : string)
| Block_tool_use (id : string) (name : string) (input : JSON)
| Block_tool_result (tool_use_id : string) (content : string).

Inductive AnthropicContent : Type :=
| Content_text (text : string)
| Content_blocks (blocks : list ContentBlock).

Inductive AnthropicRole : Type := anthropic_user | anthropic_assistant.

Record AnthropicMessage : Type := {
  an_role : AnthropicRole;
  an_content : AnthropicContent
}.

Record AnthropicTool : Type := {
  an_tool_name : string;
  an_tool_description : string;
  an_tool_input_schema : JSON
}.

Record OpenAIRequest : Type := {
  oa_req_model : string;
  oa_req_messages : list OpenAIMessage;
  oa_req_tools : option (list OpenAITool);
  oa_req_max_tokens : nat;
  oa_req_temperature : Q;
  oa_req_stream : bool
}.

Record OpenAIUsage : Type := {
  prompt_tokens : Z;
  completion_tokens : Z;
  total_tokens : Z
}.

Record OpenAIChoice : Type := {
  oa_message_content : option string;
  oa_message_tool_calls : option (list OpenAIToolCall);
  oa_finish_reason : string
}.

Record OpenAIResponse : Type := {
  oa_choices : list OpenAIChoice;
  oa_usage : option OpenAIUsage
}.

Record AnthropicRequest : Type := {
  an_req_model : string;
  an_req_system : option string;
  an_req_messages : list AnthropicMessage;
  an_req_tools : option (list AnthropicTool);
  an_req_max_tokens : nat;
  an_req_temperature : Q
}.

Record AnthropicResponse : Type := {
  an_resp_content : list ContentBlock;
  an_input_tokens : Z;
  an_output_tokens : Z;
  an_stop_reason : string
}.

(** A streamed chunk carries [choices[0]?.delta?.content]; a streamed
    Anthropic event is a text delta or something else. *)
Definition OpenAIChunk : Type := option string.

Inductive AnthropicEvent : Type :=
| Text_delta (text : string)
| Other_event.

(** What a consumer of an async generator sees: the fragments yielded, in
    order, and then either the end of the sequence or a failure. *)
Record Generated : Type := {
  fragments : list string;
  failure : option string
}.

(** An SDK client object. *)
Record Client : Type := {
  client_apiKey : string;
  client_baseURL : option string
}.

Inductive ClientKey : Type := key_openai | key_lmstudio.

Definition clientKey_name (k : ClientKey) : string :=
  match k with
  | key_openai => "openai"
  | key_lmstudio => "lmstudio"
  end.

(** The state of a [ModelClient] object. *)
Record t : Type := {
  openaiClients : gmap string Client;
  anthropicClient : option Client;
  providerConfigs : list (ModelProvider * ProviderConfig)
}.

(** [new ModelClient()] *)
Definition new : t :=
  {| openaiClients := ∅; anthropicClient := None; providerConfigs := [] |}.

(** *** Message translation *)

Section Translation.
Context {codec : JsonCodec}.

Definition toolCallToOpenAI (tc : ToolCall) : OpenAIToolCall :=
  {| oa_id := tc_id tc;
     oa_function_name := tc_name tc;
     oa_function_arguments := JSON_stringify (tc_arguments tc) |}.

(** [msg.toolResults[0]?.toolCallId || ''] *)
Definition firstToolCallId (results : list ToolResult) : string :=
  match results with
  | r :: _ => toolCallId r
  | [] => EmptyString
  end.

Definition messageToOpenAI (msg : Message) : OpenAIMessage :=
  match msg_role msg, msg_toolResults msg, msg_toolCalls msg with
  | tool, Some results, _ =>
      OpenAI_tool (firstToolCallId results) (msg_content msg)
  | assistant, _, Some calls =>
      OpenAI_assistant_calls
        (if truthy (Some (msg_content msg)) then Some (msg_content msg)
         else None)
        (map toolCallToOpenAI calls)
  | role, _, _ => OpenAI_plain role (msg_content msg)
  end.

Definition messagesToOpenAI (messages : list Message)
  : list OpenAIMessage :=
  map messageToOpenAI messages.

(** The way back, as [completeOpenAI] reads the tool calls of a
    response; [JSON.parse] may throw. *)
Definition toolCallFromOpenAI (tc : OpenAIToolCall) : Result ToolCall :=
  match JSON_parse (oa_function_arguments tc) with
  | Ok args =>
      Ok {| tc_id := oa_id tc;
            tc_name := oa_function_name tc;
            tc_arguments := args |}
  | Throw e => Throw e
  end.

Fixpoint toolCallsFromOpenAI (tcs : list OpenAIToolCall)
  : Result (list ToolCall) :=
  match tcs with
  | [] => Ok []
  | tc :: rest =>
      match toolCallFromOpenAI tc with
      | Throw e => Throw e
      | Ok c =>
          match toolCallsFromOpenAI rest with
          | Throw e => Throw e
          | Ok cs => Ok (c :: cs)
          end
      end
  end.
End Translation.

Definition toolCallToAnthropic (tc : ToolCall) : ContentBlock :=
  Block_tool_use (tc_id tc) (tc_name tc) (tc_arguments tc).

(** One turn of the loop of [messagesToAnthropic] over the accumulator
    [(system, anthropicMessages)]. *)
Definition messageToAnthropic
  (acc : option string * list AnthropicMessage) (msg : Message)
  : option string * list AnthropicMessage :=
  let (sys, out) := acc in
  match msg_role msg, msg_toolResults msg, msg_toolCalls msg with
  | system, _, _ => (Some (msg_content msg), out)
  | tool, Some results, _ =>
      (sys,
       out ++ [{| an_role := anthropic_user;
                  an_content := Content_blocks
                    [Block_tool_result (firstToolCallId results)
                       (msg_content msg)] |}])
  | assistant, _, Some calls =>
      (sys,
       out ++ [{| an_role := anthropic_assistant;
                  an_content := Content_blocks
                    ((if truthy (Some (msg_content msg))
                      then [Block_text (msg_content msg)] else [])
                     ++ map toolCallToAnthropic calls) |}])
  | role, _, _ =>
      (sys,
       out ++ [{| an_role := match role with
                             | user => anthropic_user
                             | _ => anthropic_assistant
                             end;
                  an_content := Content_text (msg_content msg) |}])
  end.

Definition messagesToAnthropic (messages : list Message)
  : option string * list AnthropicMessage :=
  fold_left messageToAnthropic messages (None, []).

(** The way back, as [completeAnthropic] reads the blocks of a response:
    text is concatenated, tool uses are collected in order. *)
Definition blockFromAnthropic (acc : string * list ToolCall)
  (block : ContentBlock) : string * list ToolCall :=
  let (text, calls) := acc in
  match block with
  | Block_text s => (String.append text s, calls)
  | Block_tool_use i n input =>
      (text, calls ++ [{| tc_id := i; tc_name := n; tc_arguments := input |}])
  | Block_tool_result _ _ => (text, calls)
  end.

Definition blocksFromAnthropic (blocks : list ContentBlock)
  : string * list ToolCall :=
  fold_left blockFromAnthropic blocks (EmptyString, []).

(** *** Tool schemas *)

(** [zodToJsonSchema]: the schema argument is not inspected. *)
Definition zodToJsonSchema (schema : ZodType) : JSON :=
  JObject [("type", JString "object");
           ("properties", JObject []);
           ("required", JArray [])].

(** [{ ...a, ...b }] on property lists: a later property replaces an
    earlier one of the same name in place, a new one is appended. *)
Fixpoint set_prop (k : string) (v : JSON) (props : list (string * JSON))
  : list (string * JSON) :=
  match props with
  | [] => [(k, v)]
  | (k', v') :: rest =>
      if String.eqb k k' then (k, v) :: rest
      else (k', v') :: set_prop k v rest
  end.

Definition spread (props : list (string * JSON)) (j : JSON)
  : list (string * JSON) :=
  match j with
  | JObject more => fold_left (fun acc kv => set_prop (fst kv) (snd kv) acc)
                      more props
  | _ => props
  end.

Definition toolToOpenAI {World} (tl : Tool World) : OpenAITool :=
  {| oa_tool_name := name tl;
     oa_tool_description := description tl;
     oa_tool_parameters := zodToJsonSchema (parameters tl) |}.

Definition toolToAnthropic {World} (tl : Tool World) : AnthropicTool :=
  {| an_tool_name := name tl;
     an_tool_description := description tl;
     an_tool_input_schema :=
       JObject (spread [("type", JString "object")]
                  (zodToJsonSchema (parameters tl))) |}.

(** *** Completion *)

(** The two SDKs, as far as the client uses them.  A streaming call
    returns a stream or throws; iterating the stream delivers its chunks
    and may then fail. *)
Class Network (World : Type) : Type := {
  openai_create :
    Client -> OpenAIRequest -> World -> Result OpenAIResponse * World;
  openai_stream :
    Client -> OpenAIRequest ->
    World -> Result (list OpenAIChunk * option string) * World;
  anthropic_create :
    Client -> AnthropicRequest -> World -> Result AnthropicResponse * World;
  anthropic_stream :
    Client -> AnthropicRequest ->
    World -> Result (list AnthropicEvent * option string) * World
}.

(** [options.model.includes(':') ? options.model.split(':')[1]
    : options.model] *)
Definition modelName (model : string) : string :=
  if includes ":" model then nth 1 (split ":"%char model) EmptyString else model.

(** [options.maxTokens || 4096] and [options.temperature ?? 0.7] *)
Definition maxTokens_or_default (n : option nat) : nat :=
  match n with
  | Some (S k) => S k
  | _ => 4096%nat
  end.

Definition temperature_or_default (t : option Q) : Q :=
  match t with
  | Some q => q
  | None => 7 # 10
  end.

(** [tools && tools.length > 0 ? tools : undefined] *)
Definition nonempty {A} (l : option (list A)) : option (list A) :=
  match l with
  | Some (x :: r) => Some (x :: r)
  | _ => None
  end.

Definition lift {World A} (r : Result A) : M World A :=
  match r with
  | Ok a => ret a
  | Throw e => throw e
  end.

Section Completion.
Context {World : Type} {net : Network World} {codec : JsonCodec}.

(** [modelDetector.getModel], the lookup in the detected models. *)
Variable getModel : string -> option ModelInfo.

Definition openAIRequest (options : CompletionOptions World)
  (withTools streaming : bool) : OpenAIRequest :=
  {| oa_req_model := modelName (opt_model options);
     oa_req_messages := messagesToOpenAI (opt_messages options);
     oa_req_tools :=
       if withTools
       then nonempty (option_map (map toolToOpenAI) (opt_tools options))
       else None;
     oa_req_max_tokens := maxTokens_or_default (opt_maxTokens options);
     oa_req_temperature := temperature_or_default (opt_temperature options);
     oa_req_stream := streaming |}.

Definition anthropicRequest (options : CompletionOptions World)
  (withTools : bool) : AnthropicRequest :=
  let (sys, msgs) := messagesToAnthropic (opt_messages options) in
  {| an_req_model := modelName (opt_model options);
     an_req_system := if truthy sys then sys else None;
     an_req_messages := msgs;
     an_req_tools :=
       if withTools
       then nonempty (option_map (map toolToAnthropic) (opt_tools options))
       else None;
     an_req_max_tokens := maxTokens_or_default (opt_maxTokens options);
     an_req_temperature := temperature_or_default (opt_temperature options) |}.

(** The response handling of [completeOpenAI]; reading [choices[0]] of
    an empty list of choices throws a [TypeError]. *)
Definition readOpenAI (response : OpenAIResponse)
  : Result CompletionResponse :=
  match oa_choices response with
  | [] => Throw "Cannot read properties of undefined (reading 'message')"
  | choice :: _ =>
      let finish :=
        if String.eqb (oa_finish_reason choice) "tool_calls"
        then finish_tool_calls else finish_stop in
      let use :=
        option_map
          (fun u => {| promptTokens := prompt_tokens u;
                       completionTokens := completion_tokens u;
                       totalTokens := total_tokens u |})
          (oa_usage response) in
      match oa_message_tool_calls choice with
      | None =>
          Ok {| content := or_else (oa_message_content choice) EmptyString;
                toolCalls := None; usage := use; finishReason := finish |}
      | Some tcs =>
          match toolCallsFromOpenAI tcs with
          | Throw e => Throw e
          | Ok calls =>
              Ok {| content := or_else (oa_message_content choice) EmptyString;
                    toolCalls := Some calls;
                    usage := use; finishReason := finish |}
          end
      end
  end.

Definition completeOpenAI (self : t) (options : CompletionOptions World)
  (clientKey : ClientKey) : M World CompletionResponse :=
  match openaiClients self !! clientKey_name clientKey with
  | None =>
      throw (String.append (clientKey_name clientKey)
               " client not configured")
  | Some client =>
      try_catch
        (tell (Network_call (clientKey_name clientKey)
                 (modelName (opt_model options))) ;;;
         response <-
           call (openai_create client (openAIRequest options true false)) ;;
         lift (readOpenAI response))
        (fun e => tell (Log_error "OpenAI completion failed:" e) ;;;
                  throw e)
  end.

Definition readAnthropic (response : AnthropicResponse)
  : CompletionResponse :=
  let (text, calls) := blocksFromAnthropic (an_resp_content response) in
  {| content := text;
     toolCalls := nonempty (Some calls);
     usage :=
       Some {| promptTokens := an_input_tokens response;
               completionTokens := an_output_tokens response;
               totalTokens :=
                 (an_input_tokens response + an_output_tokens response)%Z |};
     finishReason :=
       if String.eqb (an_stop_reason response) "tool_use"
       then finish_tool_calls else finish_stop |}.

Definition completeAnthropic (self : t)
  (options : CompletionOptions World) : M World CompletionResponse :=
  match anthropicClient self with
  | None => throw "Anthropic client not configured"
  | Some client =>
      try_catch
        (tell (Network_call "anthropic" (modelName (opt_model options))) ;;;
         response <-
           call (anthropic_create client (anthropicRequest options true)) ;;
         ret (readAnthropic response))
        (fun e => tell (Log_error "Anthropic completion failed:" e) ;;;
                  throw e)
  end.

Definition complete (self : t) (options : CompletionOptions World)
  : M World CompletionResponse :=
  match getModel (opt_model options) with
  | None =>
      if startsWith "openai:" (opt_model options)
      then completeOpenAI self options key_openai
      else if startsWith "anthropic:" (opt_model options)
      then completeAnthropic self options
      else if startsWith "lmstudio:" (opt_model options)
      then completeOpenAI self options key_lmstudio
      else throw (String.append "Unknown model: " (opt_model options))
  | Some modelInfo =>
      match mi_provider modelInfo with
      | openai => completeOpenAI self options key_openai
      | lmstudio => completeOpenAI self options key_lmstudio
      | anthropic => completeAnthropic self options
      | ollama => throw "Unsupported provider: ollama"
      end
  end.

(** *** Streaming *)

(** A running generator: what it yields, the world it leaves, and the
    calls it made. *)
Definition Stream : Type := World -> Generated * World * list Event.

(** A generator that returns at once. *)
Definition finished : Stream :=
  fun w => ({| fragments := []; failure := None |}, w, []).

Definition streamOpenAI (self : t) (options : CompletionOptions World)
  (clientKey : ClientKey) : Stream :=
  match openaiClients self !! clientKey_name clientKey with
  | None => finished
  | Some client =>
      fun w =>
        let t := [Network_call (clientKey_name clientKey)
                    (modelName (opt_model options))] in
        match openai_stream client (openAIRequest options false true) w with
        | (Throw e, w1) =>
            ({| fragments := []; failure := Some e |}, w1, t)
        | (Ok (chunks, fail), w1) =>
            ({| fragments :=
                  omap (fun c => if truthy c then c else None) chunks;
                failure := fail |}, w1, t)
        end
  end.

Definition streamAnthropic (self : t) (options : CompletionOptions World)
  : Stream :=
  match anthropicClient self with
  | None => finished
  | Some client =>
      fun w =>
        let t := [Network_call "anthropic" (modelName (opt_model options))] in
        match anthropic_stream client (anthropicRequest options false) w with
        | (Throw e, w1) =>
            ({| fragments := []; failure := Some e |}, w1, t)
        | (Ok (events, fail), w1) =>
            ({| fragments :=
                  omap (fun ev => match ev with
                                  | Text_delta s => Some s
                                  | Other_event => None
                                  end) events;
                failure := fail |}, w1, t)
        end
  end.

Definition streamComplete (self : t) (options : CompletionOptions World)
  : Stream :=
  match getModel (opt_model options) with
  | None => streamOpenAI self options key_openai
  | Some modelInfo =>
      match mi_provider modelInfo with
      | openai => streamOpenAI self options key_openai
      | lmstudio => streamOpenAI self options key_lmstudio
      | anthropic => streamAnthropic self options
      | ollama => finished
      end
  end.
End Completion.

(** [configureProvider]; the newest entry of [providerConfigs] for a
    provider is the one in force. *)
Definition configureProvider (self : t) (config : ProviderConfig) : t :=
  let configs := (pc_provider config, config) :: providerConfigs self in
  match pc_provider config, pc_apiKey config with
  | openai, Some (String a k) =>
      {| openaiClients :=
           <["openai" := {| client_apiKey := String a k;
                            client_baseURL := pc_baseUrl config |}]>
             (openaiClients self);
         anthropicClient := anthropicClient self;
         providerConfigs := configs |}
  | lmstudio, _ =>
      {| openaiClients :=
           <["lmstudio" :=
               {| client_apiKey := "lm-studio";
                  client_baseURL :=
                    Some (or_else (pc_baseUrl config)
                            "http://localhost:1234/v1") |}]>
             (openaiClients self);
         anthropicClient := anthropicClient self;
         providerConfigs := configs |}
  | anthropic, Some (String a k) =>
      {| openaiClients := openaiClients self;
         anthropicClient := Some {| client_apiKey := String a k;
                                    client_baseURL := None |};
         providerConfigs := configs |}
  | _, _ =>
      {| openaiClients := openaiClients self;
         anthropicClient := anthropicClient self;
         providerConfigs := configs |}
  end.

End ModelClient.

(** ** What the agents and the orchestrator call *)

(** [generateId] (a fresh uuid), [new Date()] and the shared
    [modelClient.complete], which may change the world and throw. *)
Class Runtime (World : Type) : Type := {
  generateId : World -> string * World;
  now : World -> Z;
  complete : CompletionOptions World -> World -> Result CompletionResponse * World
}.

(** ** The base agent (src/agents/base.ts) *)

Module BaseAgent.

Record AgentConfig : Type := {
  cfg_id : string;
  cfg_name : string;
  cfg_type : AgentType;
  cfg_role : AgentRole;
  cfg_description : string;
  cfg_preferredProvider : ModelProvider;
  cfg_preferredModel : option string;
  cfg_systemPrompt : string;
  cfg_tools : list string;
  cfg_maxTokens : nat;
  cfg_temperature : Q
}.

Record AgentState : Type := {
  st_id : string;
  isActive : bool;
  currentTask : option Task;
  lastActivity : option Z;
  conversationHistory : list Message
}.

(** An agent object.  The registry [tools] is a [Map] from tool name to
    tool, which [this.tools.values()] lists in the order in which the
    names were first registered. *)
Record t (World : Type) : Type := {
  config : AgentConfig;
  state : AgentState;
  tools : list (string * Tool World);
  modelId : option string
}.
Arguments config {World} _.
Arguments state {World} _.
Arguments tools {World} _.
Arguments modelId {World} _.

Definition maxIterations : nat := 10.

Definition max_iterations_error : string :=
  "Max iterations reached without completion".

Definition newline : string := String "010"%char EmptyString.

(** [array.slice(-n)] *)
Definition slice_last {A} (n : nat) (l : list A) : list A :=
  drop (length l - n) l.

Section Engine.
Context {World : Type} {rt : Runtime World}.
Variable self : t World.

(** [registerTool] *)
Definition registerTool (tl : Tool World) : t World :=
  {| config := config self; state := state self;
     tools := map_set (name tl) tl (tools self);
     modelId := modelId self |}.

Definition buildMessages (task : Task) : M World (list Message) :=
  t0 <- read now ;;
  id <- call (fun w => let (i, w') := generateId w in (Ok i, w')) ;;
  t1 <- read now ;;
  ret ([{| msg_id := "system"; msg_role := system;
           msg_content := cfg_systemPrompt (config self);
           msg_timestamp := t0;
           msg_agentId := None;
           msg_toolCalls := None; msg_toolResults := None |}]
       ++ slice_last 10 (conversationHistory (state self))
       ++ [{| msg_id := id; msg_role := user;
              msg_content :=
                String.append "Task: "
                  (String.append (task_title task)
                     (String.append newline
                        (String.append newline
                           (String.append "Description: "
                              (task_description task)))));
              msg_timestamp := t1;
              msg_agentId := None;
              msg_toolCalls := None; msg_toolResults := None |}]).

(** The options that [getCompletion] passes on. *)
Definition completionOptions (m : string) (messages : list Message)
  : CompletionOptions World :=
  {| opt_model := m;
     opt_messages := messages;
     opt_tools := ModelClient.nonempty (Some (map snd (tools self)));
     opt_maxTokens := Some (cfg_maxTokens (config self));
     opt_temperature := Some (cfg_temperature (config self));
     opt_stream := None |}.

Definition getCompletion (messages : list Message)
  : M World CompletionResponse :=
  match present (modelId self) with
  | None => throw "No model available"
  | Some m => request m messages (complete (completionOptions m messages))
  end.

(** [(error as Error).message] on what a [catch] clause was handed:
    reading a property of [null] or [undefined] throws a [TypeError], and a
    value that is not an [Error] has no message. *)
Definition message_of (thrown : Thrown) : Result (option string) :=
  match thrown with
  | Thrown_error message => Ok (Some message)
  | Thrown_null =>
      Throw "Cannot read properties of null (reading 'message')"
  | Thrown_undefined =>
      Throw "Cannot read properties of undefined (reading 'message')"
  | Thrown_value => Ok None
  end.

Definition executeTool (toolCall : ToolCall) : M World ToolResult :=
  match map_get (tc_name toolCall) (tools self) with
  | None =>
      ret {| toolCallId := tc_id toolCall;
             success := false;
             output := None;
             error := Some (String.append "Unknown tool: "
                              (tc_name toolCall)) |}
  | Some tl =>
      fun w =>
        match execute tl (tc_arguments toolCall) w with
        | (Returned result, w1) => (Ok result, w1, [])
        | (Raised thrown, w1) =>
            match message_of thrown with
            | Ok message =>
                (Ok {| toolCallId := tc_id toolCall;
                       success := false;
                       output := None;
                       error := message |}, w1, [])
            | Throw typeError => (Throw typeError, w1, [])
            end
        end
  end.

Definition fresh_id : M World string :=
  call (fun w => let (i, w') := generateId w in (Ok i, w')).

(** The two messages that [execute] pushes for a tool call. *)
Definition assistant_message (response : CompletionResponse)
  (toolCall : ToolCall) (id : string) (timestamp : Z) : Message :=
  {| msg_id := id; msg_role := assistant;
     msg_content := content response;
     msg_timestamp := timestamp;
     msg_agentId := None;
     msg_toolCalls := Some [toolCall];
     msg_toolResults := None |}.

Definition tool_message (result : ToolResult) (id : string) (timestamp : Z)
  : Message :=
  {| msg_id := id; msg_role := tool;
     msg_content :=
       or_else (output result) (or_else (error result) EmptyString);
     msg_timestamp := timestamp;
     msg_agentId := None;
     msg_toolCalls := None;
     msg_toolResults := Some [result] |}.

(** The [for (const toolCall of response.toolCalls)] loop of [execute],
    pushing onto [messages]. *)
Fixpoint dispatch (response : CompletionResponse)
  (calls : list ToolCall) (messages : list Message)
  : M World (list Message) :=
  match calls with
  | [] => ret messages
  | toolCall :: rest =>
      tell (Emit_tool_call toolCall) ;;;
      result <- executeTool toolCall ;;
      tell (Emit_tool_result result) ;;;
      id1 <- fresh_id ;;
      t1 <- read now ;;
      id2 <- fresh_id ;;
      t2 <- read now ;;
      dispatch response rest
        (messages
         ++ [assistant_message response toolCall id1 t1]
         ++ [tool_message result id2 t2])
  end.

Definition with_result (task : Task) (status : TaskStatus)
  (completedAt : option Z) (result : TaskResult) : Task :=
  {| task_id := task_id task;
     task_title := task_title task;
     task_description := task_description task;
     task_type := task_type task;
     task_assignedAgent := task_assignedAgent task;
     task_priority := task_priority task;
     task_status := status;
     task_createdAt := task_createdAt task;
     task_updatedAt := task_updatedAt task;
     task_completedAt := completedAt;
     task_result := Some result;
     task_metadata := task_metadata task |}.

(** The [while (iterations < maxIterations)] loop and what follows it;
    [remaining] is [maxIterations - iterations]. *)
Fixpoint loop (remaining iterations : nat) (task : Task)
  (messages : list Message) : M World (TaskResult * Task) :=
  match remaining with
  | O =>
      let result := {| tr_success := false; tr_output := None;
                       tr_error := Some max_iterations_error;
                       tr_artifacts := None |} in
      let task' := with_result task failed (task_completedAt task) result in
      tell (Emit_failed task' max_iterations_error) ;;;
      ret (result, task')
  | S remaining' =>
      let iterations' := S iterations in
      tell (Emit_thinking iterations') ;;;
      response <- getCompletion messages ;;
      match ModelClient.nonempty (toolCalls response) with
      | Some calls =>
          messages' <- dispatch response calls messages ;;
          loop remaining' iterations' task messages'
      | None =>
          let result := {| tr_success := true;
                           tr_output := Some (content response);
                           tr_error := None;
                           tr_artifacts := None |} in
          completedAt <- read now ;;
          let task' := with_result task completed (Some completedAt) result in
          tell (Emit_completed task' result) ;;;
          ret (result, task')
      end
  end.

Definition set_state (st : AgentState) : t World :=
  {| config := config self; state := st;
     tools := tools self; modelId := modelId self |}.

(** [execute]: the result, the task as it leaves, and the agent as it
    leaves. *)
Definition execute (task : Task) : M World (TaskResult * Task * t World) :=
  started <- read now ;;
  tell (Emit_started task) ;;;
  res <- try_catch
          (messages <- buildMessages task ;;
           loop maxIterations 0 task messages)
          (fun message =>
             let result := {| tr_success := false; tr_output := None;
                              tr_error := Some message;
                              tr_artifacts := None |} in
             let task' :=
               with_result task failed (task_completedAt task) result in
             tell (Emit_failed task' message) ;;;
             ret (result, task')) ;;
  ret (res,
       set_state {| st_id := st_id (state self);
                    isActive := false;
                    currentTask := None;
                    lastActivity := Some started;
                    conversationHistory :=
                      conversationHistory (state self) |}).
End Engine.

Section History.
Context {World : Type}.

Definition set_history (self : t World) (history : list Message) : t World :=
  set_state self
    {| st_id := st_id (state self);
       isActive := isActive (state self);
       currentTask := currentTask (state self);
       lastActivity := lastActivity (state self);
       conversationHistory := history |}.

(** [addToHistory]: the message is pushed, and a history of more than 50
    messages is cut to its last 30. *)
Definition addToHistory (self : t World) (message : Message) : t World :=
  let history := conversationHistory (state self) ++ [message] in
  set_history self
    (if (50 <? length history)%nat then slice_last 30 history else history).

Definition clearHistory (self : t World) : t World := set_history self [].

End History.

End BaseAgent.

(** ** Utilities (src/utils/index.ts) *)

Module Utils.

(** [toLowerCase] and [trim] on text in the ASCII range. *)
Definition lower_char (c : ascii) : ascii :=
  let n := nat_of_ascii c in
  if (65 <=? n)%nat && (n <=? 90)%nat then ascii_of_nat (n + 32) else c.

Fixpoint toLowerCase (s : string) : string :=
  match s with
  | EmptyString => EmptyString
  | String c rest => String (lower_char c) (toLowerCase rest)
  end.

Definition is_space (c : ascii) : bool :=
  let n := nat_of_ascii c in
  (n =? 32)%nat || ((9 <=? n)%nat && (n <=? 13)%nat).

Fixpoint trimStart (s : string) : string :=
  match s with
  | String c rest => if is_space c then trimStart rest else s
  | EmptyString => EmptyString
  end.

Fixpoint trimEnd (s : string) : string :=
  match s with
  | EmptyString => EmptyString
  | String c rest =>
      match trimEnd rest with
      | EmptyString => if is_space c then EmptyString
                       else String c EmptyString
      | kept => String c kept
      end
  end.

Definition trim (s : string) : string := trimEnd (trimStart s).

(** The longest run of characters other than [stop] at the head of [s],
    and what follows it. *)
Fixpoint span_until (stop : ascii) (s : string) : string * string :=
  match s with
  | EmptyString => (EmptyString, EmptyString)
  | String c rest =>
      if Ascii.eqb c stop then (EmptyString, s)
      else let (run, after) := span_until stop rest in (String c run, after)
  end.

(** One attempt of [/\[([^\]]+)\]/] at the head of [s]: the captured group
    and the text after the match. *)
Definition match_tag_at (s : string) : option (string * string) :=
  match s with
  | String "[" rest =>
      match span_until "]" rest with
      | (String c run, String _ after) => Some (String c run, after)
      | _ => None
      end
  | _ => None
  end.

(** The [exec] loop and the [replace] of [extractTags] in one pass: the
    groups of the successive leftmost matches, and the text with the
    matches removed.  [fuel] bounds the number of attempts. *)
Fixpoint scan_tags (fuel : nat) (s : string) : list string * string :=
  match fuel with
  | O => ([], s)
  | S fuel' =>
      match s with
      | EmptyString => ([], EmptyString)
      | String c rest =>
          match match_tag_at s with
          | Some (group, after) =>
              let (groups, text) := scan_tags fuel' after in
              (group :: groups, text)
          | None =>
              let (groups, text) := scan_tags fuel' rest in
              (groups, String c text)
          end
      end
  end.

Record Tags : Type := {
  tags : list string;
  cleanInput : string
}.

Definition extractTags (input : string) : Tags :=
  let (groups, text) := scan_tags (S (String.length input)) input in
  {| tags := map toLowerCase groups; cleanInput := trim text |}.

(** [tags.includes(tag)] *)
Definition has_tag (tag : string) (l : list string) : bool :=
  existsb (String.eqb tag) l.

Definition hasExplicitAgentType (input : string) : option AgentType :=
  let found := tags (extractTags input) in
  if has_tag "work" found then Some work
  else if has_tag "personal" found then Some personal
  else None.

(** [text.slice(0, end)]: a negative [end] counts from the end of the
    text. *)
Definition slice_to (stop : Z) (s : string) : string :=
  let len := Z.of_nat (String.length s) in
  let k := if (stop <? 0)%Z then Z.max (len + stop) 0 else Z.min stop len in
  String.substring 0 (Z.to_nat k) s.

(** [text.slice(start)] for a [start] that is not negative. *)
Fixpoint slice_from (start : nat) (s : string) : string :=
  match start, s with
  | S k, String _ rest => slice_from k rest
  | _, _ => s
  end.

Definition truncate (text : string) (maxLength : Z) (suffix : string)
  : string :=
  if (Z.of_nat (String.length text) <=? maxLength)%Z then text
  else String.append
         (slice_to (maxLength - Z.of_nat (String.length suffix)) text)
         suffix.

(** A whole number in a template literal. *)
Definition string_of_Z (z : Z) : string :=
  NilZero.string_of_int (Z.to_int z).

(** [formatRelativeTime]; [current] is [new Date().getTime()] and [date]
    is [date.getTime()], in milliseconds. *)
Definition formatRelativeTime (current date : Z) : string :=
  let diff := (current - date)%Z in
  let seconds := (diff / 1000)%Z in
  let minutes := (seconds / 60)%Z in
  let hours := (minutes / 60)%Z in
  let days := (hours / 24)%Z in
  if (0 <? days)%Z then String.append (string_of_Z days) "d ago"
  else if (0 <? hours)%Z then String.append (string_of_Z hours) "h ago"
  else if (0 <? minutes)%Z then String.append (string_of_Z minutes) "m ago"
  else "just now".

(** What [retry] does, in order: calls of [fn] and calls of [sleep]. *)
Inductive RetryStep : Type :=
| Attempt
| Sleep (ms : Z).

Record RetryOptions : Type := {
  opt_maxRetries : option nat;
  opt_baseDelay : option Z;
  opt_maxDelay : option Z
}.

Section Retry.
Context {World A : Type}.

(** The function retried, and [sleep] (a timer). *)
Variable fn : World -> Result A * World.
Variable sleep : Z -> World -> World.

Variable maxRetries : nat.
Variables baseDelay maxDelay : Z.

(** The [for] loop of [retry] from [attempt] on, with [remaining]
    attempts to go, and the [throw lastError] after it. *)
Fixpoint retry_from (remaining attempt : nat) (lastError : Thrown)
  (w : World) : (A + Thrown) * World * list RetryStep :=
  match remaining with
  | O => (inr lastError, w, [])
  | S remaining' =>
      match fn w with
      | (Ok a, w1) => (inl a, w1, [Attempt])
      | (Throw e, w1) =>
          if (Z.of_nat attempt <? Z.of_nat maxRetries - 1)%Z then
            let delay :=
              Z.min (baseDelay * 2 ^ Z.of_nat attempt) maxDelay in
            match retry_from remaining' (S attempt) (Thrown_error e)
                    (sleep delay w1) with
            | (r, w2, steps) => (r, w2, Attempt :: Sleep delay :: steps)
            end
          else
            match retry_from remaining' (S attempt) (Thrown_error e) w1 with
            | (r, w2, steps) => (r, w2, Attempt :: steps)
            end
      end
  end.
End Retry.

(** [retry(fn, options)] with the defaults of its destructuring. *)
Definition retry {World A : Type} (fn : World -> Result A * World)
  (sleep : Z -> World -> World) (options : RetryOptions) (w : World)
  : (A + Thrown) * World * list RetryStep :=
  let maxRetries := default 3%nat (opt_maxRetries options) in
  let baseDelay := default 1000%Z (opt_baseDelay options) in
  let maxDelay := default 10000%Z (opt_maxDelay options) in
  retry_from fn sleep maxRetries baseDelay maxDelay maxRetries 0
    Thrown_undefined w.

Definition double_quote : ascii := "034"%char.

Definition path_traversal_error : string :=
  String.append "Path traversal detected: paths cannot contain "
    (String double_quote
       (String.append "../" (String double_quote " sequences"))).

(** [s.replace(/^[/\\]/, '')] *)
Definition strip_separator (s : string) : string :=
  match s with
  | String c rest =>
      if Ascii.eqb c "/" || Ascii.eqb c "\" then rest else s
  | EmptyString => EmptyString
  end.

Section Paths.

(** [path.normalize], [path.join] on two segments and [os.homedir()]. *)
Variable normalize : string -> string.
Variable join : string -> string -> string.
Variable homedir : string.

Definition expandPath (filePath : string) : Result string :=
  if startsWith "~" filePath then
    let userPath := strip_separator (slice_from 1 filePath) in
    if includes "../" userPath || includes "..\" userPath
    then Throw path_traversal_error
    else
      let normalizedPath := normalize userPath in
      if startsWith ".." normalizedPath then Throw path_traversal_error
      else Ok (join homedir normalizedPath)
  else Ok (normalize filePath).
End Paths.

End Utils.

(** ** The orchestrator (src/core/samantha.ts) *)

Module Samantha.
Import Utils.
Import PrimFloat.

(** A count as a JavaScript number, and [Math.min] and [Math.max] of two
    numbers: [NaN] when one of them is, and the negative zero below the
    positive one. *)
Definition number (n : nat) : float :=
  PrimFloat.of_uint63 (Uint63.of_Z (Z.of_nat n)).

Definition Math_min (a b : float) : float :=
  if PrimFloat.is_nan a || PrimFloat.is_nan b then PrimFloat.nan
  else if PrimFloat.ltb b a then b
  else if PrimFloat.ltb a b then a
  else if PrimFloat.get_sign a then a else b.

Definition Math_max (a b : float) : float :=
  if PrimFloat.is_nan a || PrimFloat.is_nan b then PrimFloat.nan
  else if PrimFloat.ltb a b then b
  else if PrimFloat.ltb b a then a
  else if PrimFloat.get_sign a then b else a.

Inductive IntentType : Type :=
| known (type : AgentType)
| unclear.

Record Intent : Type := {
  type : IntentType;
  confidence : float;
  category : string;
  suggestedAgent : AgentRole;
  requiresHumanApproval : bool;
  reasoning : string
}.

Record ExtractedTask : Type := {
  title : string;
  description : string;
  priority : TaskPriority;
  tools : list string
}.

Record TaskClassification : Type := {
  intent : Intent;
  extractedTask : ExtractedTask
}.

(** What [classifyTask] hands back: a classification built by the code, or
    the value of [JSON.parse] cast to the type without a check. *)
Inductive Classified : Type :=
| Built (classification : TaskClassification)
| Parsed (value : JSON).

(** [/a|b|c/.test(s)] for alternatives without metacharacters. *)
Definition test (alternatives : list string) (s : string) : bool :=
  existsb (fun a => includes a s) alternatives.

Definition detectCategory (input : string) : string :=
  let lowerInput := toLowerCase input in
  if test ["github"; "pr"; "pull request"; "merge"; "commit"; "branch";
           "repo"] lowerInput then "github"
  else if test ["code"; "implement"; "fix"; "bug"; "feature"; "refactor";
                "debug"] lowerInput then "coding"
  else if test ["slack"; "message"; "channel"; "team"] lowerInput
  then "slack"
  else if test ["email"; "mail"; "send"; "reply"] lowerInput then "email"
  else if test ["calendar"; "schedule"; "meeting"; "appointment"] lowerInput
  then "calendar"
  else if test ["search"; "research"; "find"; "look up"] lowerInput
  then "research"
  else if test ["write"; "create"; "draft"; "compose"; "blog"; "post"]
            lowerInput then "creative"
  else if test ["social"; "twitter"; "linkedin"; "instagram"; "post"]
            lowerInput then "social"
  else "chat".

(** [mapping[category] || 'chat'] *)
Definition lookup_or {A} (table : list (string * A)) (key : string)
  (default : A) : A :=
  match find (fun kv => String.eqb (fst kv) key) table with
  | Some kv => snd kv
  | None => default
  end.

Definition categoryToAgent (category : string) : AgentRole :=
  lookup_or
    [("github", github); ("coding", coding); ("slack", slack);
     ("email", email); ("calendar", calendar); ("research", research);
     ("creative", creative); ("social", social); ("chat", chat)]
    category chat.

(** [input.split(/[.!?]/)[0]] *)
Fixpoint firstSentence (s : string) : string :=
  match s with
  | EmptyString => EmptyString
  | String c rest =>
      if Ascii.eqb c "." || Ascii.eqb c "!" || Ascii.eqb c "?"
      then EmptyString
      else String c (firstSentence rest)
  end.

Definition extractTitle (input : string) : string :=
  let first := firstSentence input in
  if (String.length first <=? 50)%nat then first
  else String.append (String.substring 0 47 input) "...".

Definition detectPriority (input : string) : TaskPriority :=
  let lowerInput := toLowerCase input in
  if test ["urgent"; "asap"; "immediately"; "critical"; "emergency"]
       lowerInput then urgent
  else if test ["important"; "priority"; "soon"; "today"] lowerInput
  then high
  else if test ["when you can"; "whenever"; "low priority"] lowerInput
  then low
  else medium.

Definition detectTools (category : string) : list string :=
  lookup_or
    [("github", ["github_api"; "git"]);
     ("coding", ["file_system"; "shell"; "code_edit"]);
     ("slack", ["slack_api"]);
     ("email", ["gmail_api"]);
     ("calendar", ["calendar_api"]);
     ("research", ["web_search"]);
     ("creative", ["text_generation"]);
     ("social", ["social_media_api"]);
     ("chat", [])]
    category [].

Definition agentType_name (t : AgentType) : string :=
  match t with
  | work => "work"
  | personal => "personal"
  end.

Definition quickClassify (input : string) (t : AgentType)
  : TaskClassification :=
  let category := detectCategory input in
  {| intent :=
       {| type := known t;
          confidence := 1%float;
          category := category;
          suggestedAgent := categoryToAgent category;
          requiresHumanApproval := false;
          reasoning :=
            String.append "Explicitly marked as " (agentType_name t) |};
     extractedTask :=
       {| title := extractTitle input;
          description := input;
          priority := detectPriority input;
          tools := detectTools category |} |}.

Definition workIndicators : list string :=
  ["pr"; "pull request"; "github"; "code"; "deploy"; "slack";
   "meeting"; "standup"; "sprint"; "jira"; "documentation";
   "api"; "bug"; "feature"; "review"; "merge"; "commit";
   "branch"; "production"; "staging"; "project"; "deadline";
   "client"; "team"; "colleague"; "work email"; "work calendar"].

Definition personalIndicators : list string :=
  ["personal"; "family"; "friend"; "mom"; "dad"; "vacation";
   "hobby"; "health"; "exercise"; "recipe"; "entertainment";
   "social media"; "home"; "shopping"; "travel"; "birthday";
   "anniversary"; "personal calendar"; "personal email"].

(** [for (const indicator of indicators)
      if (lowerInput.includes(indicator)) score++] *)
Definition score (indicators : list string) (lowerInput : string) : nat :=
  fold_left
    (fun n indicator => if includes indicator lowerInput then S n else n)
    indicators 0%nat.

Definition string_of_nat (n : nat) : string :=
  NilZero.string_of_uint (Nat.to_uint n).

Definition heuristicClassify (input : string) : TaskClassification :=
  let lowerInput := toLowerCase input in
  let workScore := score workIndicators lowerInput in
  let personalScore := score personalIndicators lowerInput in
  let t :=
    if (personalScore <? workScore)%nat then known work
    else if (workScore <? personalScore)%nat then known personal
    else unclear in
  let conf :=
    (PrimFloat.abs (number workScore - number personalScore)
     / Math_max (number workScore + number personalScore) 1)%float
  in
  let category := detectCategory input in
  {| intent :=
       {| type := t;
          confidence := Math_min 0.9 (0.5 + conf * 0.4)%float;
          category := category;
          suggestedAgent := categoryToAgent category;
          requiresHumanApproval := false;
          reasoning :=
            String.append "Heuristic classification: "
              (String.append (string_of_nat workScore)
                 (String.append " work indicators, "
                    (String.append (string_of_nat personalScore)
                       " personal indicators"))) |};
     extractedTask :=
       {| title := extractTitle input;
          description := input;
          priority := detectPriority input;
          tools := detectTools category |} |}.

(** [text.match(/\{[\s\S]*\}/)]: the match starts at the first opening
    brace and, the star being greedy, ends at the last closing brace. *)
Fixpoint from_first (c : ascii) (s : string) : option string :=
  match s with
  | EmptyString => None
  | String a rest => if Ascii.eqb a c then Some s else from_first c rest
  end.

Fixpoint through_last (c : ascii) (s : string) : option string :=
  match s with
  | EmptyString => None
  | String a rest =>
      match through_last c rest with
      | Some kept => Some (String a kept)
      | None => if Ascii.eqb a c then Some (String a EmptyString) else None
      end
  end.

Definition jsonMatch (text : string) : option string :=
  match from_first "{" text with
  | Some opened => through_last "}" opened
  | None => None
  end.

Section Classifier.
Context {World : Type} {rt : Runtime World} {codec : JsonCodec}.

(** The text of the two prompts does not bear on the control flow:
    [SAMANTHA_SYSTEM_PROMPT], and [CLASSIFICATION_PROMPT] with the
    request substituted for its placeholder. *)
Variable SAMANTHA_SYSTEM_PROMPT : string.
Variable classificationPrompt : string -> string.

(** [this.modelId] *)
Variable modelId : option string.

Definition classifyTask (input : string) (explicitType : option AgentType)
  : M World Classified :=
  match explicitType with
  | Some t => ret (Built (quickClassify input t))
  | None =>
      let heuristicResult := heuristicClassify input in
      if PrimFloat.ltb 0.8 (confidence (intent heuristicResult))
      then ret (Built heuristicResult)
      else
        match present modelId with
        | None => ret (Built heuristicResult)
        | Some m =>
            let prompt := classificationPrompt input in
            answered <-
              try_catch
                (t0 <- read now ;;
                 t1 <- read now ;;
                 let msgs :=
                   [{| msg_id := "system"; msg_role := system;
                       msg_content := SAMANTHA_SYSTEM_PROMPT;
                       msg_timestamp := t0;
                       msg_agentId := None;
                       msg_toolCalls := None; msg_toolResults := None |};
                    {| msg_id := "user"; msg_role := user;
                       msg_content := prompt;
                       msg_timestamp := t1;
                       msg_agentId := None;
                       msg_toolCalls := None; msg_toolResults := None |}]
                 in
                 response <-
                   request m msgs
                     (complete
                           {| opt_model := m;
                              opt_messages := msgs;
                              opt_tools := None;
                              opt_maxTokens := Some 512%nat;
                              opt_temperature := Some (3 # 10);
                              opt_stream := None |}) ;;
                 match jsonMatch (content response) with
                 | Some text =>
                     parsed <- ModelClient.lift (JSON_parse text) ;;
                     ret (Some (Parsed parsed))
                 | None => ret None
                 end)
                (fun message =>
                   tell (Log_error "Classification error:" message) ;;;
                   ret None) ;;
            match answered with
            | Some classification => ret classification
            | None => ret (Built heuristicResult)
            end
        end
  end.
End Classifier.

End Samantha.

(** ** An executable JSON codec *)

(** A printer and a recursive-descent parser for JSON text with integer
    numbers, standing for the platform's [JSON.stringify] and [JSON.parse]
    where a run has to be evaluated. *)
Module Json.

Definition quote : ascii := "034"%char.
Definition backslash : ascii := "092"%char.

Definition quoted (body : string) : string :=
  String quote (String.append body (String quote EmptyString)).

Definition hex_char (n : nat) : ascii :=
  if (n <? 10)%nat then ascii_of_nat (48 + n) else ascii_of_nat (87 + n).

Definition hex_value (c : ascii) : option nat :=
  let n := nat_of_ascii c in
  if (48 <=? n)%nat && (n <=? 57)%nat then Some (n - 48)%nat
  else if (97 <=? n)%nat && (n <=? 102)%nat then Some (n - 87)%nat
  else if (65 <=? n)%nat && (n <=? 70)%nat then Some (n - 55)%nat
  else None.

(** One character of a string, as it is written inside a string literal:
    the quote, the backslash and the control characters are escaped. *)
Definition escape_char (c : ascii) : string :=
  let n := nat_of_ascii c in
  if Ascii.eqb c quote || Ascii.eqb c backslash
  then String backslash (String c EmptyString)
  else if (n =? 10)%nat then String backslash "n"
  else if (n =? 9)%nat then String backslash "t"
  else if (n =? 13)%nat then String backslash "r"
  else if (n =? 8)%nat then String backslash "b"
  else if (n =? 12)%nat then String backslash "f"
  else if (n <? 32)%nat
  then String backslash
         (String "u" (String "0" (String "0"
            (String (hex_char (n / 16))
               (String (hex_char (n mod 16)) EmptyString)))))
  else String c EmptyString.

Fixpoint escape (s : string) : string :=
  match s with
  | EmptyString => EmptyString
  | String c rest => String.append (escape_char c) (escape rest)
  end.

Fixpoint join (sep : string) (parts : list string) : string :=
  match parts with
  | [] => EmptyString
  | [p] => p
  | p :: rest => String.append p (String.append sep (join sep rest))
  end.

Fixpoint stringify (j : JSON) : string :=
  match j with
  | JNull => "null"
  | JBool true => "true"
  | JBool false => "false"
  | JNumber n => NilZero.string_of_int (Z.to_int n)
  | JString s => quoted (escape s)
  | JArray items =>
      String.append "[" (String.append (join "," (map stringify items)) "]")
  | JObject props =>
      String.append "{"
        (String.append
           (join ","
              (map (fun kv =>
                      match kv with
                      | (k, v) =>
                          String.append (quoted (escape k))
                            (String.append ":" (stringify v))
                      end) props))
           "}")
  end.

Fixpoint skip_ws (s : string) : string :=
  match s with
  | String c rest => if Utils.is_space c then skip_ws rest else s
  | EmptyString => EmptyString
  end.

(** The character that a one-letter escape stands for. *)
Definition unescape (e : ascii) : option ascii :=
  if Ascii.eqb e quote || Ascii.eqb e backslash || Ascii.eqb e "/"
  then Some e
  else if Ascii.eqb e "n" then Some "010"%char
  else if Ascii.eqb e "t" then Some "009"%char
  else if Ascii.eqb e "r" then Some "013"%char
  else if Ascii.eqb e "b" then Some "008"%char
  else if Ascii.eqb e "f" then Some "012"%char
  else None.

(** The character with the code of four hexadecimal digits, when it is a
    single byte. *)
Definition unicode (h1 h2 h3 h4 : ascii) : option ascii :=
  match hex_value h1, hex_value h2, hex_value h3, hex_value h4 with
  | Some a, Some b, Some c, Some d =>
      let code := (((a * 16 + b) * 16 + c) * 16 + d)%nat in
      if (code <? 256)%nat then Some (ascii_of_nat code) else None
  | _, _, _, _ => None
  end.

(** The body of a string literal, up to and including its closing
    quote. *)
Fixpoint parse_string_body (s : string) : option (string * string) :=
  match s with
  | EmptyString => None
  | String c rest =>
      if Ascii.eqb c quote then Some (EmptyString, rest)
      else if Ascii.eqb c backslash then
        match rest with
        | String "u" (String h1 (String h2 (String h3 (String h4 rest')))) =>
            match unicode h1 h2 h3 h4, parse_string_body rest' with
            | Some d, Some (body, after) => Some (String d body, after)
            | _, _ => None
            end
        | String e rest' =>
            match unescape e, parse_string_body rest' with
            | Some d, Some (body, after) => Some (String d body, after)
            | _, _ => None
            end
        | EmptyString => None
        end
      else if (nat_of_ascii c <? 32)%nat then None
      else match parse_string_body rest with
           | Some (body, after) => Some (String c body, after)
           | None => None
           end
  end.

Definition is_digit (c : ascii) : bool :=
  let n := nat_of_ascii c in (48 <=? n)%nat && (n <=? 57)%nat.

(** The longest run of digits at the head of [s], and what follows. *)
Fixpoint digits_span (s : string) : string * string :=
  match s with
  | String c rest =>
      if is_digit c
      then let (run, after) := digits_span rest in (String c run, after)
      else (EmptyString, s)
  | EmptyString => (EmptyString, EmptyString)
  end.

Definition number_span (s : string) : string * string :=
  match s with
  | String "-" rest =>
      let (run, after) := digits_span rest in (String "-" run, after)
  | _ => digits_span s
  end.

(** [0], or digits that do not start with [0]. *)
Definition no_leading_zero (u : Decimal.uint) : bool :=
  match u with
  | Decimal.Nil => false
  | Decimal.D0 Decimal.Nil => true
  | Decimal.D0 _ => false
  | _ => true
  end.

Definition starts_fraction (s : string) : bool :=
  match s with
  | String c _ => Ascii.eqb c "." || Ascii.eqb c "e" || Ascii.eqb c "E"
  | EmptyString => false
  end.

(** An integer literal: an optional sign, then [0] or digits that do not
    start with [0]; a fraction or an exponent is not accepted. *)
Definition parse_number (s : string) : option (Z * string) :=
  let (literal, after) := number_span s in
  if starts_fraction after then None
  else
    match NilZero.int_of_string literal with
    | Some d =>
        if no_leading_zero (Decimal.abs d) then Some (Z.of_int d, after)
        else None
    | None => None
    end.

(** [s] without the [word] it starts with. *)
Fixpoint after_prefix (word s : string) : option string :=
  match word, s with
  | EmptyString, _ => Some s
  | String a word', String b s' =>
      if Ascii.eqb a b then after_prefix word' s' else None
  | String _ _, EmptyString => None
  end.

Definition expect (word : string) (value : JSON) (s : string)
  : option (JSON * string) :=
  match after_prefix word s with
  | Some rest => Some (value, rest)
  | None => None
  end.

(** [parse_value] reads one value; [parse_items] and [parse_props] read
    what follows the opening bracket of an array and of an object, after
    the first element has been ruled in.  [fuel] bounds the nesting and
    the number of elements. *)
Fixpoint parse_value (fuel : nat) (s : string) : option (JSON * string) :=
  match fuel with
  | O => None
  | S fuel' =>
      match skip_ws s with
      | EmptyString => None
      | String c rest =>
          if Ascii.eqb c quote then
            match parse_string_body rest with
            | Some (body, after) => Some (JString body, after)
            | None => None
            end
          else if Ascii.eqb c "n" then expect "null" JNull (skip_ws s)
          else if Ascii.eqb c "t" then expect "true" (JBool true) (skip_ws s)
          else if Ascii.eqb c "f"
          then expect "false" (JBool false) (skip_ws s)
          else if Ascii.eqb c "[" then
            match skip_ws rest with
            | String "]" after => Some (JArray [], after)
            | _ =>
                match parse_items fuel' rest with
                | Some (items, after) => Some (JArray items, after)
                | None => None
                end
            end
          else if Ascii.eqb c "{" then
            match skip_ws rest with
            | String "}" after => Some (JObject [], after)
            | _ =>
                match parse_props fuel' [] rest with
                | Some (props, after) => Some (JObject props, after)
                | None => None
                end
            end
          else
            match parse_number (skip_ws s) with
            | Some (n, after) => Some (JNumber n, after)
            | None => None
            end
      end
  end
with parse_items (fuel : nat) (s : string) : option (list JSON * string) :=
  match fuel with
  | O => None
  | S fuel' =>
      match parse_value fuel' s with
      | Some (item, after) =>
          match skip_ws after with
          | String "," more =>
              match parse_items fuel' more with
              | Some (items, rest) => Some (item :: items, rest)
              | None => None
              end
          | String "]" rest => Some ([item], rest)
          | _ => None
          end
      | None => None
      end
  end
with parse_props (fuel : nat) (seen : list (string * JSON)) (s : string)
  : option (list (string * JSON) * string) :=
  match fuel with
  | O => None
  | S fuel' =>
      match skip_ws s with
      | String q keyText =>
          if Ascii.eqb q quote then
            match parse_string_body keyText with
            | Some (key, after) =>
                match skip_ws after with
                | String ":" valueText =>
                    match parse_value fuel' valueText with
                    | Some (value, after') =>
                        let seen' := ModelClient.set_prop key value seen in
                        match skip_ws after' with
                        | String "," more => parse_props fuel' seen' more
                        | String "}" rest => Some (seen', rest)
                        | _ => None
                        end
                    | None => None
                    end
                | _ => None
                end
            | None => None
            end
          else None
      | EmptyString => None
      end
  end.

Definition parse (text : string) : Result JSON :=
  match parse_value (S (String.length text)) text with
  | Some (value, rest) =>
      match skip_ws rest with
      | EmptyString => Ok value
      | _ => Throw "Unexpected non-whitespace character after JSON"
      end
  | None => Throw "Unexpected token in JSON"
  end.

Definition codec : JsonCodec :=
  {| JSON_stringify := stringify; JSON_parse := parse |}.

End Json.

(** ** The model detector (src/models/detector.ts) *)

Module ModelDetector.

(** [Partial<ModelCapabilities>] *)
Record PartialCapabilities : Type := {
  p_contextWindow : option Z;
  p_supportsTools : option bool;
  p_supportsVision : option bool;
  p_supportsStreaming : option bool;
  p_maxOutputTokens : option Z
}.

Definition known (window : Z) (vision : bool) (output : Z)
  : PartialCapabilities :=
  {| p_contextWindow := Some window;
     p_supportsTools := Some true;
     p_supportsVision := Some vision;
     p_supportsStreaming := Some true;
     p_maxOutputTokens := Some output |}.

(** The entries of the object literal, in the order of [Object.entries]. *)
Definition MODEL_CAPABILITIES : list (string * PartialCapabilities) :=
  [("gpt-4-turbo", known 128000 true 4096);
   ("gpt-4o", known 128000 true 16384);
   ("gpt-4o-mini", known 128000 true 16384);
   ("gpt-3.5-turbo", known 16385 false 4096);
   ("claude-3-5-sonnet-20241022", known 200000 true 8192);
   ("claude-3-opus-20240229", known 200000 true 4096);
   ("claude-3-haiku-20240307", known 200000 true 4096)].

Definition DEFAULT_CAPABILITIES : ModelCapabilities :=
  {| contextWindow := 8192;
     supportsTools := false;
     supportsVision := false;
     supportsStreaming := true;
     maxOutputTokens := 2048 |}.

(** [{ ...base, ...caps }] *)
Definition spread (base : ModelCapabilities) (caps : PartialCapabilities)
  : ModelCapabilities :=
  {| contextWindow := default (contextWindow base) (p_contextWindow caps);
     supportsTools := default (supportsTools base) (p_supportsTools caps);
     supportsVision := default (supportsVision base) (p_supportsVision caps);
     supportsStreaming :=
       default (supportsStreaming base) (p_supportsStreaming caps);
     maxOutputTokens :=
       default (maxOutputTokens base) (p_maxOutputTokens caps) |}.

(** The property names that every object literal inherits from
    [Object.prototype].  [MODEL_CAPABILITIES[name]] is a function (or, for
    [__proto__], the prototype object) for each of them: a value that is
    truthy and has no enumerable property of its own to spread. *)
Definition inherited : list string :=
  ["constructor"; "hasOwnProperty"; "isPrototypeOf"; "propertyIsEnumerable";
   "toLocaleString"; "toString"; "valueOf"; "__proto__";
   "__defineGetter__"; "__defineSetter__"; "__lookupGetter__";
   "__lookupSetter__"].

Definition own (modelId : string) : option PartialCapabilities :=
  option_map snd
    (find (fun entry => String.eqb (fst entry) modelId) MODEL_CAPABILITIES).

Definition getCapabilities (modelId : string) : ModelCapabilities :=
  match own modelId with
  | Some caps => spread DEFAULT_CAPABILITIES caps
  | None =>
      if existsb (String.eqb modelId) inherited then DEFAULT_CAPABILITIES
      else
        match find (fun entry => includes (fst entry) modelId)
                MODEL_CAPABILITIES with
        | Some entry => spread DEFAULT_CAPABILITIES (snd entry)
        | None =>
            {| contextWindow := 32768;
               supportsTools := true;
               supportsVision := supportsVision DEFAULT_CAPABILITIES;
               supportsStreaming := supportsStreaming DEFAULT_CAPABILITIES;
               maxOutputTokens := maxOutputTokens DEFAULT_CAPABILITIES |}
        end
  end.

(** A line of the log. *)
Inductive LogLevel : Type := debug | info | warn | error.

Definition LogLine : Type := LogLevel * string * option string.

Definition count (n : nat) : string := Utils.string_of_Z (Z.of_nat n).

(** What [retry(() => client.models.list())] and the iteration over its
    result gave: the ids of the models met, and the error thrown, if the
    call or the iteration failed. *)
Definition Listing : Type := list string * option string.

(** The tail of [detectLMStudio] for a given listing: the models met
    before a failure are returned all the same. *)
Definition detectLMStudio (listing : Listing)
  : list ModelInfo * list LogLine :=
  let models :=
    map (fun id =>
           {| mi_id := String.append "lmstudio:" id;
              mi_name := id;
              mi_provider := lmstudio;
              mi_isLocal := true;
              mi_capabilities := getCapabilities id;
              mi_isAvailable := true |}) (fst listing) in
  match snd listing with
  | None =>
      (models,
       [(info,
         String.append "Detected "
           (String.append (count (length models)) " LMStudio models"),
         None)])
  | Some e => (models, [(debug, "LMStudio not available:", Some e)])
  end.

Definition chatModels : list string :=
  ["gpt-4-turbo"; "gpt-4o"; "gpt-4o-mini"; "gpt-3.5-turbo"].

(** [m.name.split('-').slice(0, 3).join('-')] *)
Definition baseName (name : string) : string :=
  Json.join "-" (take 3 (split "-" name)).

(** [models.filter(m => ...)] with the set [seen] of the base names met
    so far. *)
Fixpoint uniqueModels (seen : list string) (models : list ModelInfo)
  : list ModelInfo :=
  match models with
  | [] => []
  | m :: rest =>
      let base := baseName (mi_name m) in
      if existsb (String.eqb base) seen then uniqueModels seen rest
      else m :: uniqueModels (base :: seen) rest
  end.

(** The tail of [detectOpenAI] for a given listing: after a failure
    nothing is returned. *)
Definition detectOpenAI (listing : Listing)
  : list ModelInfo * list LogLine :=
  match snd listing with
  | None =>
      let models :=
        map (fun id =>
               {| mi_id := String.append "openai:" id;
                  mi_name := id;
                  mi_provider := openai;
                  mi_isLocal := false;
                  mi_capabilities := getCapabilities id;
                  mi_isAvailable := true |})
          (List.filter
             (fun id => existsb (fun cm => includes cm id) chatModels)
             (fst listing))
      in
      let unique := uniqueModels [] models in
      (unique,
       [(info,
         String.append "Detected "
           (String.append (count (length unique)) " OpenAI models"),
         None)])
  | Some e => ([], [(warn, "OpenAI API validation failed:", Some e)])
  end.

Definition claudeModels : list string :=
  ["claude-3-5-sonnet-20241022"; "claude-3-opus-20240229";
   "claude-3-haiku-20240307"].

(** The tail of [detectAnthropic]: [validation] is what the retried
    minimal request gave. *)
Definition detectAnthropic (validation : Result unit)
  : list ModelInfo * list LogLine :=
  match validation with
  | Ok _ =>
      let models :=
        map (fun modelId =>
               {| mi_id := String.append "anthropic:" modelId;
                  mi_name := modelId;
                  mi_provider := anthropic;
                  mi_isLocal := false;
                  mi_capabilities := getCapabilities modelId;
                  mi_isAvailable := true |}) claudeModels in
      (models,
       [(info,
         String.append "Detected "
           (String.append (count (length models)) " Anthropic models"),
         None)])
  | Throw e => ([], [(warn, "Anthropic API validation failed:", Some e)])
  end.

(** The state of a [ModelDetector] object. *)
Record t : Type := {
  detectedModels : list (string * ModelInfo);
  providerConfigs : list (string * ProviderConfig)
}.

Definition new : t := {| detectedModels := []; providerConfigs := [] |}.

Definition provider_name (p : ModelProvider) : string :=
  match p with
  | openai => "openai"
  | anthropic => "anthropic"
  | lmstudio => "lmstudio"
  | ollama => "ollama"
  end.

Definition configureProvider (self : t) (config : ProviderConfig) : t :=
  {| detectedModels := detectedModels self;
     providerConfigs :=
       map_set (provider_name (pc_provider config)) config
         (providerConfigs self) |}.

(** Which detections [detectAll] starts. *)
Definition enabled (self : t) (p : ModelProvider) (needsKey : bool) : bool :=
  match map_get (provider_name p) (providerConfigs self) with
  | Some config =>
      pc_isEnabled config && (negb needsKey || truthy (pc_apiKey config))
  | None => false
  end.

(** [detectAll], given what each detection that it starts comes back
    with: the models returned and the detector with its cache updated. *)
Definition detectAll (self : t) (lmstudioListing openaiListing : Listing)
  (anthropicValidation : Result unit) : list ModelInfo * t :=
  let results :=
    (if enabled self lmstudio false
     then fst (detectLMStudio lmstudioListing) else [])
    ++ (if enabled self openai true
        then fst (detectOpenAI openaiListing) else [])
    ++ (if enabled self anthropic true
        then fst (detectAnthropic anthropicValidation) else []) in
  (results,
   {| detectedModels :=
        fold_left (fun cache model => map_set (mi_id model) model cache)
          results (detectedModels self);
      providerConfigs := providerConfigs self |}).

Definition getModel (self : t) (modelId : string) : option ModelInfo :=
  map_get modelId (detectedModels self).

Definition getAllModels (self : t) : list ModelInfo :=
  map snd (detectedModels self).

Definition same_provider (p q : ModelProvider) : bool :=
  match p, q with
  | openai, openai | anthropic, anthropic
  | lmstudio, lmstudio | ollama, ollama => true
  | _, _ => false
  end.

Definition getModelsByProvider (self : t) (provider : ModelProvider)
  : list ModelInfo :=
  List.filter (fun m => same_provider (mi_provider m) provider)
    (getAllModels self).

Definition getLocalModels (self : t) : list ModelInfo :=
  List.filter mi_isLocal (getAllModels self).

Definition getCloudModels (self : t) : list ModelInfo :=
  List.filter (fun m => negb (mi_isLocal m)) (getAllModels self).

(** [preferred || cloudModels[0]] *)
Definition getBestWorkModel (self : t) : option ModelInfo :=
  let cloudModels := getCloudModels self in
  match find (fun m => includes "claude-3-5-sonnet" (mi_name m)
                       || includes "gpt-4o" (mi_name m)) cloudModels with
  | Some preferred => Some preferred
  | None => head cloudModels
  end.

(** [models.sort((a, b) => b.capabilities.contextWindow -
    a.capabilities.contextWindow)].  [Array.prototype.sort] is stable, so
    for a comparator like this one, which orders by one number, the
    result is determined: the larger window first, and models with the
    same window in the order they had. *)
Fixpoint insert_by_window (m : ModelInfo) (sorted : list ModelInfo)
  : list ModelInfo :=
  match sorted with
  | [] => [m]
  | x :: rest =>
      if (contextWindow (mi_capabilities m)
          <? contextWindow (mi_capabilities x))%Z
      then x :: insert_by_window m rest
      else m :: x :: rest
  end.

Definition sort (models : list ModelInfo) : list ModelInfo :=
  fold_right insert_by_window [] models.

Definition getBestPersonalModel (self : t) : option ModelInfo :=
  let localModels := getLocalModels self in
  match localModels with
  | _ :: _ => head (sort localModels)
  | [] =>
      find (fun m => includes "haiku" (mi_name m)
                     || includes "mini" (mi_name m)) (getCloudModels self)
  end.

Definition hasAvailableModels (self : t) : bool :=
  match detectedModels self with
  | [] => false
  | _ :: _ => true
  end.

Definition getSummary (self : t) : string :=
  String.append (count (length (getLocalModels self)))
    (String.append " local, "
       (String.append (count (length (getCloudModels self)))
          " cloud models available")).

End ModelDetector.

(** ** The agents (src/agents/base.ts, specialized.ts, registry.ts) *)

Module Agents.
Import BaseAgent.

Section Classes.
Context {World : Type} {rt : Runtime World}.

Definition set_modelId (self : t World) (m : option string) : t World :=
  {| config := config self; state := state self;
     tools := tools self; modelId := m |}.

(** [initialize]; [registerTools] is the hook of the subclass, and the
    line is what goes to the log. *)
Definition initialize (registerTools : t World -> t World)
  (detector : ModelDetector.t) (self : t World)
  : t World * ModelDetector.LogLine :=
  let model :=
    match cfg_type (config self) with
    | personal => ModelDetector.getBestPersonalModel detector
    | work => ModelDetector.getBestWorkModel detector
    end in
  match model with
  | Some m =>
      (registerTools (set_modelId self (Some (mi_id m))),
       (ModelDetector.info,
        String.append (cfg_name (config self))
          (String.append " initialized with model: " (mi_name m)),
        None))
  | None =>
      (registerTools self,
       (ModelDetector.warn,
        String.append (cfg_name (config self)) ": No models available",
        None))
  end.

(** The argument of the constructor:
    [Partial<AgentConfig> & { id; name; role }]. *)
Record PartialConfig : Type := {
  new_id : string;
  new_name : string;
  new_role : AgentRole;
  new_type : option AgentType;
  new_description : option string;
  new_preferredProvider : option ModelProvider;
  new_preferredModel : option string;
  new_systemPrompt : option string;
  new_tools : option (list string);
  new_maxTokens : option nat;
  new_temperature : option Q
}.

(** [config.temperature || 0.7] *)
Definition temperature_or (t : option Q) (d : Q) : Q :=
  match t with
  | Some q => if Qeq_bool q 0 then d else q
  | None => d
  end.

(** The constructor of [BaseAgent]; [defaultSystemPrompt] is what
    [getDefaultSystemPrompt] of the class returns. *)
Definition construct (defaultSystemPrompt : string) (c : PartialConfig)
  : t World :=
  {| config :=
       {| cfg_id := new_id c;
          cfg_name := new_name c;
          cfg_type := default work (new_type c);
          cfg_role := new_role c;
          cfg_description := or_else (new_description c) EmptyString;
          cfg_preferredProvider := default openai (new_preferredProvider c);
          cfg_preferredModel := new_preferredModel c;
          cfg_systemPrompt :=
            or_else (new_systemPrompt c) defaultSystemPrompt;
          cfg_tools := default [] (new_tools c);
          cfg_maxTokens := ModelClient.maxTokens_or_default (new_maxTokens c);
          cfg_temperature := temperature_or (new_temperature c) (7 # 10) |};
     state :=
       {| st_id := new_id c;
          isActive := false;
          currentTask := None;
          lastActivity := None;
          conversationHistory := [] |};
     tools := [];
     modelId := None |}.

Definition with_type (c : PartialConfig) (type : AgentType)
  : PartialConfig :=
  {| new_id := new_id c;
     new_name := new_name c;
     new_role := new_role c;
     new_type := Some type;
     new_description := new_description c;
     new_preferredProvider := new_preferredProvider c;
     new_preferredModel := new_preferredModel c;
     new_systemPrompt := new_systemPrompt c;
     new_tools := new_tools c;
     new_maxTokens := new_maxTokens c;
     new_temperature := new_temperature c |}.

(** The constructors of [WorkAgent] and [PersonalAgent]:
    [super({ ...config, type: 'work' })] and the like. *)
Definition WorkAgent (defaultSystemPrompt : string) (c : PartialConfig)
  : t World :=
  construct defaultSystemPrompt (with_type c work).

Definition PersonalAgent (defaultSystemPrompt : string) (c : PartialConfig)
  : t World :=
  construct defaultSystemPrompt (with_type c personal).

(** *** What a tool reads of its arguments *)

(** [params.key] for one of the keys that the tools read; no prototype
    defines any of them, so that the property is an own property of an
    object or is [undefined], and reading it off [null] throws. *)
Definition property (params : JSON) (key : string) : Result (option JSON) :=
  match params with
  | JNull =>
      Throw (String.append "Cannot read properties of null (reading '"
               (String.append key "')"))
  | JObject props =>
      Ok (option_map snd
            (find (fun entry => String.eqb (fst entry) key) props))
  | _ => Ok None
  end.

(** A value as a condition *)
Definition truthy_value (value : option JSON) : bool :=
  match value with
  | None | Some JNull | Some (JBool false) | Some (JNumber 0)
  | Some (JString EmptyString) => false
  | Some _ => true
  end.

(** A value in a template literal.  The elements of an array are joined
    with commas, [null] among them giving the empty text. *)
Fixpoint text_of (value : JSON) : string :=
  match value with
  | JNull => "null"
  | JBool true => "true"
  | JBool false => "false"
  | JNumber n => Utils.string_of_Z n
  | JString s => s
  | JArray items =>
      Json.join ","
        (map (fun item => match item with
                          | JNull => EmptyString
                          | _ => text_of item
                          end) items)
  | JObject _ => "[object Object]"
  end.

Definition templated (value : option JSON) : string :=
  match value with
  | Some v => text_of v
  | None => "undefined"
  end.

(** [`${params.key}`] and [`${params.key || fallback}`] *)
Definition show (params : JSON) (key : string) : Result string :=
  match property params key with
  | Ok value => Ok (templated value)
  | Throw e => Throw e
  end.

Definition show_or (params : JSON) (key fallback : string) : Result string :=
  match property params key with
  | Ok value => Ok (if truthy_value value then templated value else fallback)
  | Throw e => Throw e
  end.

(** The texts of a template literal put together, from left to right. *)
Fixpoint template (parts : list (Result string)) : Result string :=
  match parts with
  | [] => Ok EmptyString
  | Throw e :: _ => Throw e
  | Ok s :: rest =>
      match template rest with
      | Ok more => Ok (String.append s more)
      | Throw e => Throw e
      end
  end.

(** A mock tool: the object literal that it returns takes a fresh id
    first and builds its output next. *)
Definition mock (output : JSON -> Result string) (params : JSON) (w : World)
  : Settled ToolResult * World :=
  let (id, w1) := generateId w in
  match output params with
  | Ok text =>
      (Returned {| toolCallId := id; success := true;
                   output := Some text; error := None |}, w1)
  | Throw typeError => (Raised (Thrown_error typeError), w1)
  end.

Definition tool (toolName toolDescription : string) (schema : ZodType)
  (output : JSON -> Result string) : Tool World :=
  Build_Tool World toolName toolDescription schema (mock output).

Definition registerAll (toRegister : list (Tool World)) (self : t World)
  : t World :=
  fold_left (fun agent tl => registerTool agent tl) toRegister self.

(** *** The specialized agents

    [defaultSystemPrompt] gives the text that [getDefaultSystemPrompt]
    of the class of a role returns.  The [describe] annotations of the
    parameter schemas have no counterpart in [ZodType]. *)
Variable defaultSystemPrompt : AgentRole -> string.

Definition described (id agentName : string) (role : AgentRole)
  (text : string) (temperature : option Q) : PartialConfig :=
  {| new_id := id;
     new_name := agentName;
     new_role := role;
     new_type := None;
     new_description := Some text;
     new_preferredProvider := None;
     new_preferredModel := None;
     new_systemPrompt := None;
     new_tools := None;
     new_maxTokens := None;
     new_temperature := temperature |}.

Definition GitHubAgent : t World :=
  WorkAgent (defaultSystemPrompt github)
    (described "github-agent" "GitHub Agent" github
       "Manages GitHub repositories, PRs, issues, and code reviews" None).

Definition GitHubAgent_tools : list (Tool World) :=
  [tool "list_pull_requests" "List pull requests in a repository"
     (ZObject [("repo", ZString);
               ("state", ZOptional (ZEnum ["open"; "closed"; "all"]))])
     (fun params =>
        template [Ok "[Mock] Listed PRs for "; show params "repo";
                  Ok " with state: "; show_or params "state" "open"]);
   tool "get_pr_details" "Get details of a specific pull request"
     (ZObject [("repo", ZString); ("pr_number", ZNumber)])
     (fun params =>
        template [Ok "[Mock] PR #"; show params "pr_number";
                  Ok " details for "; show params "repo"])].

Definition CodingAgent : t World :=
  WorkAgent (defaultSystemPrompt coding)
    (described "coding-agent" "Coding Agent" coding
       "Writes, reviews, and refactors code" None).

Definition CodingAgent_tools : list (Tool World) :=
  [tool "read_file" "Read contents of a file"
     (ZObject [("path", ZString)])
     (fun params => template [Ok "[Mock] Read file: "; show params "path"]);
   tool "write_file" "Write contents to a file"
     (ZObject [("path", ZString); ("content", ZString)])
     (fun params =>
        template [Ok "[Mock] Wrote to file: "; show params "path"])].

Definition SlackAgent : t World :=
  WorkAgent (defaultSystemPrompt slack)
    (described "slack-agent" "Slack Agent" slack
       "Manages Slack messages and channels" None).

Definition SlackAgent_tools : list (Tool World) :=
  [tool "send_message" "Send a message to a Slack channel or user"
     (ZObject [("channel", ZString); ("message", ZString)])
     (fun params =>
        template [Ok "[Mock] Sent message to "; show params "channel"])].

Definition EmailAgent : t World :=
  WorkAgent (defaultSystemPrompt email)
    (described "email-agent" "Email Agent" email
       "Manages email communications" None).

Definition EmailAgent_tools : list (Tool World) :=
  [tool "read_emails" "Read recent emails"
     (ZObject [("limit", ZOptional ZNumber);
               ("unread_only", ZOptional ZBoolean)])
     (fun params =>
        template [Ok "[Mock] Read "; show_or params "limit" "10";
                  Ok " emails"]);
   tool "send_email" "Send an email"
     (ZObject [("to", ZString); ("subject", ZString); ("body", ZString)])
     (fun params =>
        template [Ok "[Mock] Sent email to "; show params "to"])].

Definition ResearchAgent : t World :=
  WorkAgent (defaultSystemPrompt research)
    (described "research-agent" "Research Agent" research
       "Conducts web research and information gathering" None).

Definition ResearchAgent_tools : list (Tool World) :=
  [tool "web_search" "Search the web for information"
     (ZObject [("query", ZString); ("num_results", ZOptional ZNumber)])
     (fun params =>
        template [Ok "[Mock] Search results for: "; show params "query"])].

Definition CalendarAgent : t World :=
  PersonalAgent (defaultSystemPrompt calendar)
    (described "calendar-agent" "Calendar Agent" calendar
       "Manages calendar events and scheduling" None).

Definition CalendarAgent_tools : list (Tool World) :=
  [tool "list_events" "List upcoming calendar events"
     (ZObject [("days", ZOptional ZNumber)])
     (fun params =>
        template [Ok "[Mock] Listed events for next ";
                  show_or params "days" "7"; Ok " days"]);
   tool "create_event" "Create a calendar event"
     (ZObject [("title", ZString); ("start", ZString); ("end", ZString);
               ("description", ZOptional ZString)])
     (fun params =>
        template [Ok "[Mock] Created event: "; show params "title"])].

Definition CreativeAgent : t World :=
  PersonalAgent (defaultSystemPrompt creative)
    (described "creative-agent" "Creative Agent" creative
       "Helps with creative writing and content creation" (Some (9 # 10))).

Definition ChatAgent : t World :=
  PersonalAgent (defaultSystemPrompt chat)
    (described "chat-agent" "Chat Agent" chat
       "Friendly conversational companion" (Some (8 # 10))).

Definition SocialAgent : t World :=
  PersonalAgent (defaultSystemPrompt social)
    (described "social-agent" "Social Agent" social
       "Manages social media presence" None).

Definition SocialAgent_tools : list (Tool World) :=
  [tool "draft_post" "Draft a social media post"
     (ZObject [("platform",
                ZEnum ["twitter"; "linkedin"; "instagram"; "facebook"]);
               ("topic", ZString); ("tone", ZOptional ZString)])
     (fun params =>
        template [Ok "[Mock] Drafted "; show params "platform";
                  Ok " post about: "; show params "topic"])].

(** The classes in the order of [agentClasses]: what [new AgentClass()]
    gives and the tools that its [registerTools] registers. *)
Definition agentClasses : list (t World * list (Tool World)) :=
  [(GitHubAgent, GitHubAgent_tools);
   (CodingAgent, CodingAgent_tools);
   (SlackAgent, SlackAgent_tools);
   (EmailAgent, EmailAgent_tools);
   (ResearchAgent, ResearchAgent_tools);
   (CalendarAgent, CalendarAgent_tools);
   (CreativeAgent, []);
   (ChatAgent, []);
   (SocialAgent, SocialAgent_tools)].

End Classes.

End Agents.

(** ** The agent registry (src/agents/registry.ts) *)

Module AgentRegistry.
Import BaseAgent.

Definition role_name (role : AgentRole) : string :=
  match role with
  | orchestrator => "orchestrator"
  | coding => "coding"
  | github => "github"
  | slack => "slack"
  | email => "email"
  | calendar => "calendar"
  | research => "research"
  | creative => "creative"
  | social => "social"
  | chat => "chat"
  end.

(** The registry: the agent objects, each at its address, and the [Map]
    from ids and roles to the addresses, in insertion order.  An agent
    registered under two keys is one object. *)
Record t (World : Type) : Type := {
  objects : list (BaseAgent.t World);
  agents : list (string * nat);
  initialized : bool
}.
Arguments objects {World} _.
Arguments agents {World} _.
Arguments initialized {World} _.

Section Registry.
Context {World : Type} {rt : Runtime World}.

Definition new : t World :=
  {| objects := []; agents := []; initialized := false |}.

Definition same_type (a b : AgentType) : bool :=
  match a, b with
  | work, work | personal, personal => true
  | _, _ => false
  end.

(** [initialize] *)
Definition register (detector : ModelDetector.t)
  (acc : t World * list ModelDetector.LogLine)
  (class : BaseAgent.t World * list (Tool World))
  : t World * list ModelDetector.LogLine :=
  let (self, lines) := acc in
  let (agent, line) :=
    Agents.initialize (Agents.registerAll (snd class)) detector (fst class)
  in
  let address := length (objects self) in
  ({| objects := objects self ++ [agent];
      agents :=
        map_set (role_name (cfg_role (config agent))) address
          (map_set (cfg_id (config agent)) address
             (agents self));
      initialized := initialized self |},
   lines ++ [line]).

(** [this.agents.size / 2] in a template literal, for an even size. *)
Definition half (n : nat) : string := ModelDetector.count (Nat.div2 n).

Definition initialize (defaultSystemPrompt : AgentRole -> string)
  (detector : ModelDetector.t) (self : t World)
  : t World * list ModelDetector.LogLine :=
  if initialized self then (self, [])
  else
    let (filled, lines) :=
      fold_left (register detector) (Agents.agentClasses defaultSystemPrompt)
        (self, []) in
    ({| objects := objects filled;
        agents := agents filled;
        initialized := true |},
     lines
     ++ [(ModelDetector.info,
          String.append "Agent Registry initialized with "
            (String.append (half (length (agents filled))) " agents"),
          None)]).

(** [this.agents.get(key)] *)
Definition getAgent (self : t World) (idOrRole : string)
  : option (BaseAgent.t World) :=
  match map_get idOrRole (agents self) with
  | Some address => objects self !! address
  | None => None
  end.

Definition getAgentByRole (self : t World) (role : AgentRole)
  : option (BaseAgent.t World) :=
  getAgent self (role_name role).

(** [Array.from(this.agents.values())] *)
Definition values (self : t World) : list (BaseAgent.t World) :=
  omap (fun entry => objects self !! snd entry) (agents self).

(** [arr.findIndex(p)], with [None] for [-1] *)
Fixpoint findIndex {A : Type} (p : A -> bool) (arr : list A) : option nat :=
  match arr with
  | [] => None
  | x :: rest => if p x then Some 0%nat else option_map S (findIndex p rest)
  end.

(** [arr.filter((x, index, arr) => p x index arr)] from [index] on *)
Fixpoint filter_from {A : Type} (p : A -> nat -> bool) (index : nat)
  (rest : list A) : list A :=
  match rest with
  | [] => []
  | x :: rest' =>
      if p x index then x :: filter_from p (S index) rest'
      else filter_from p (S index) rest'
  end.

Definition same_nat (a : option nat) (b : nat) : bool :=
  match a with
  | Some n => Nat.eqb n b
  | None => false
  end.

Definition agents_of_type (self : t World) (type : AgentType)
  : list (BaseAgent.t World) :=
  let arr := values self in
  filter_from
    (fun agent index =>
       same_type (cfg_type (config agent)) type
       && same_nat
            (findIndex
               (fun a => String.eqb (cfg_id (config a))
                           (cfg_id (config agent))) arr)
            index)
    0 arr.

Definition getWorkAgents (self : t World) : list (BaseAgent.t World) :=
  agents_of_type self work.

Definition getPersonalAgents (self : t World) : list (BaseAgent.t World) :=
  agents_of_type self personal.

(** The [filter] of [getAllAgents] with its set [seen]. *)
Fixpoint unseen (seen : list string) (arr : list (BaseAgent.t World))
  : list (BaseAgent.t World) :=
  match arr with
  | [] => []
  | agent :: rest =>
      if existsb (String.eqb (cfg_id (config agent))) seen
      then unseen seen rest
      else agent :: unseen (cfg_id (config agent) :: seen) rest
  end.

Definition getAllAgents (self : t World) : list (BaseAgent.t World) :=
  unseen [] (values self).

(** [task.metadata.category as string]: a key of the [Map] only when it
    is a string. *)
Definition category_of (task : Task) : option string :=
  match find (fun entry => String.eqb (fst entry) "category")
          (task_metadata task) with
  | Some (_, JString category) => Some category
  | _ => None
  end.

Definition findAgentAddress (self : t World) (task : Task) : option nat :=
  match
    match category_of task with
    | Some category => map_get category (agents self)
    | None => None
    end
  with
  | Some address => Some address
  | None =>
      match task_type task with
      | work => map_get "coding" (agents self)
      | personal => map_get "chat" (agents self)
      end
  end.

Definition findAgentForTask (self : t World) (task : Task)
  : option (BaseAgent.t World) :=
  match findAgentAddress self task with
  | Some address => objects self !! address
  | None => None
  end.

Definition assigned (task : Task) (agentId : string) : Task :=
  {| task_id := task_id task;
     task_title := task_title task;
     task_description := task_description task;
     task_type := task_type task;
     task_assignedAgent := Some agentId;
     task_priority := task_priority task;
     task_status := in_progress;
     task_createdAt := task_createdAt task;
     task_updatedAt := task_updatedAt task;
     task_completedAt := task_completedAt task;
     task_result := task_result task;
     task_metadata := task_metadata task |}.

(** [executeTask]: the task and the registry as they are left. *)
Definition executeTask (self : t World) (task : Task)
  : M World (Task * t World) :=
  match findAgentAddress self task with
  | None =>
      throw (String.append "No agent found for task: " (task_title task))
  | Some address =>
      match objects self !! address with
      | None =>
          throw (String.append "No agent found for task: " (task_title task))
      | Some agent =>
          done <-
            BaseAgent.execute agent
              (assigned task (cfg_id (config agent))) ;;
          ret (snd (fst done),
               {| objects := <[address := snd done]> (objects self);
                  agents := agents self;
                  initialized := initialized self |})
      end
  end.

Record Status : Type := {
  status_id : string;
  status_name : string;
  status_type : AgentType;
  status_role : AgentRole;
  status_isActive : bool
}.

Definition getStatus (self : t World) : list Status :=
  map (fun agent =>
         {| status_id := cfg_id (config agent);
            status_name := cfg_name (config agent);
            status_type := cfg_type (config agent);
            status_role := cfg_role (config agent);
            status_isActive := isActive (state agent) |})
    (getAllAgents self).

End Registry.

End AgentRegistry.

(** ** Concrete runs *)

(** Inputs and worlds on which the definitions above are evaluated. *)
Module Scenario.

(** [list_pull_requests] of the GitHub agent: a required [repo] and an
    optional [state]. *)
Definition list_pull_requests_schema : ZodType :=
  ZObject [("repo", ZString);
           ("state", ZOptional (ZEnum ["open"; "closed"; "all"]))].

Definition list_pull_requests {World : Type} : Tool World :=
  {| name := "list_pull_requests";
     description := "List pull requests in a repository";
     parameters := list_pull_requests_schema;
     execute := fun _ w =>
       (Returned {| toolCallId := "generated";
                    success := true;
                    output := Some "[Mock] Listed PRs";
                    error := None |}, w) |}.

Definition call_a : ToolCall :=
  {| tc_id := "call_a";
     tc_name := "list_pull_requests";
     tc_arguments :=
       JObject [("repo", JString "tjdoomer/Hemingway");
                ("state", JString "open")] |}.

Definition call_b : ToolCall :=
  {| tc_id := "call_b";
     tc_name := "get_pr_details";
     tc_arguments :=
       JObject [("repo", JString "tjdoomer/Hemingway");
                ("pr_number", JNumber 7);
                ("labels", JArray [JString "bug"; JNull; JBool true])] |}.

Definition two_calls : Message :=
  {| msg_id := "m1";
     msg_role := assistant;
     msg_content := "Looking at the pull requests.";
     msg_timestamp := 0;
     msg_agentId := None;
     msg_toolCalls := Some [call_a; call_b];
     msg_toolResults := None |}.

(** A machine without network: every SDK call fails. *)
Definition offline : ModelClient.Network unit :=
  {| ModelClient.openai_create := fun _ _ w => (Throw "Connection error.", w);
     ModelClient.openai_stream := fun _ _ w => (Throw "Connection error.", w);
     ModelClient.anthropic_create :=
       fun _ _ w => (Throw "Connection error.", w);
     ModelClient.anthropic_stream :=
       fun _ _ w => (Throw "Connection error.", w) |}.

Definition ask (m : string) : CompletionOptions unit :=
  {| opt_model := m;
     opt_messages := [two_calls];
     opt_tools := Some [list_pull_requests];
     opt_maxTokens := None;
     opt_temperature := None;
     opt_stream := None |}.

(** [DEFAULT_CAPABILITIES] of the detector. *)
Definition default_capabilities : ModelCapabilities :=
  {| contextWindow := 8192; supportsTools := false; supportsVision := false;
     supportsStreaming := true; maxOutputTokens := 2048 |}.

Definition detected (id : string) (p : ModelProvider) (m : string)
  : option ModelInfo :=
  if String.eqb m id
  then Some {| mi_id := id; mi_name := id; mi_provider := p;
               mi_isLocal := false;
               mi_capabilities := default_capabilities;
               mi_isAvailable := true |}
  else None.

(** A tool that raises: [boom] with an [Error] that has no message,
    [flaky] with one that has. *)
Definition boom {World : Type} : Tool World :=
  {| name := "boom";
     description := "Always raises";
     parameters := ZObject [];
     execute := fun _ w => (Raised (Thrown_error EmptyString), w) |}.

Definition flaky {World : Type} : Tool World :=
  {| name := "flaky";
     description := "Raises with a message";
     parameters := ZObject [];
     execute := fun _ w => (Raised (Thrown_error "rate limited"), w) |}.

(** A tool that rejects with [null], and one that throws a text. *)
Definition void {World : Type} : Tool World :=
  {| name := "void";
     description := "Rejects with null";
     parameters := ZObject [];
     execute := fun _ w => (Raised Thrown_null, w) |}.

Definition blurt {World : Type} : Tool World :=
  {| name := "blurt";
     description := "Throws a text";
     parameters := ZObject [];
     execute := fun _ w => (Raised Thrown_value, w) |}.



Definition call_void : ToolCall :=
  {| tc_id := "call_void"; tc_name := "void"; tc_arguments := JObject [] |}.

Definition call_blurt : ToolCall :=
  {| tc_id := "call_blurt"; tc_name := "blurt"; tc_arguments := JObject [] |}.

(** A world that counts the ids it has handed out; the count is also its
    clock. *)
Definition next_id (n : nat) : string * nat :=
  (String.append "id-" (Samantha.string_of_nat n), S n).

Definition wants_tools (calls : list ToolCall) : CompletionResponse :=
  {| content := "Working on it.";
     toolCalls := Some calls;
     usage := None;
     finishReason := finish_tool_calls |}.

Definition says (text : string) : CompletionResponse :=
  {| content := text; toolCalls := None; usage := None;
     finishReason := finish_stop |}.


(** A model that asks for a tool that rejects with [null], and a provider
    that refuses every request with the words of the iteration cap. *)
Definition reckless : Runtime nat :=
  {| generateId := next_id;
     now := Z.of_nat;
     complete := fun _ w => (Ok (wants_tools [call_a; call_void; call_b]), w) |}.



(** A model whose answer is not JSON, one that wraps a JSON object in
    prose that has a closing brace of its own, and one that answers with a
    JSON object between plain prose. *)
Definition chatty : Runtime nat :=
  {| generateId := next_id;
     now := Z.of_nat;
     complete := fun _ w => (Ok (says "I would call this one personal."), w) |}.

Definition trailing_brace : Runtime nat :=
  {| generateId := next_id;
     now := Z.of_nat;
     complete := fun _ w =>
       (Ok (says "Here you go: {} (an empty object, written } at the end)"),
        w) |}.

Definition tidy : Runtime nat :=
  {| generateId := next_id;
     now := Z.of_nat;
     complete := fun _ w => (Ok (says "Here you go: {} as asked."), w) |}.

(** The classifier's prompts, shortened, and two requests: one with five
    work indicators and three personal ones, one tagged as personal that
    speaks of work. *)
Definition system_prompt : string := "You are Samantha.".

Definition classification_prompt (input : string) : string :=
  String.append "Analyze the following user request and classify it: " input.

Definition mixed_request : string :=
  "ask my team and the client for a code review before the deadline, then plan the family vacation with mom".


Definition agent_config : BaseAgent.AgentConfig :=
  {| BaseAgent.cfg_id := "github-agent";
     BaseAgent.cfg_name := "GitHub Agent";
     BaseAgent.cfg_type := work;
     BaseAgent.cfg_role := github;
     BaseAgent.cfg_description := "Manages GitHub repositories";
     BaseAgent.cfg_preferredProvider := openai;
     BaseAgent.cfg_preferredModel := None;
     BaseAgent.cfg_systemPrompt := "You are the GitHub Agent.";
     BaseAgent.cfg_tools := [];
     BaseAgent.cfg_maxTokens := 4096;
     BaseAgent.cfg_temperature := 7 # 10 |}.

Definition agent : BaseAgent.t nat :=
  {| BaseAgent.config := agent_config;
     BaseAgent.state :=
       {| BaseAgent.st_id := "github-agent";
          BaseAgent.isActive := false;
          BaseAgent.currentTask := None;
          BaseAgent.lastActivity := None;
          BaseAgent.conversationHistory := [] |};
     BaseAgent.tools :=
       [("flaky", flaky); ("boom", boom); ("void", void); ("blurt", blurt);
        ("list_pull_requests", list_pull_requests)];
     BaseAgent.modelId := Some "openai:gpt-4o" |}.

Definition review_task : Task :=
  {| task_id := "t1";
     task_title := "Review my PRs";
     task_description := "Review my open pull requests";
     task_type := work;
     task_assignedAgent := Some "github-agent";
     task_priority := medium;
     task_status := in_progress;
     task_createdAt := 0;
     task_updatedAt := 0;
     task_completedAt := None;
     task_result := None;
     task_metadata := [("category", JString "github")] |}.

End Scenario.

(** * Specification vocabulary

    The notions that the statements below are written with.  None of them
    is part of the program; each is defined from the program's own
    functions or describes a shape of its data. *)

(** ** Provider adapter *)

Section ProviderVocabulary.
Import ModelClient.

(** The schema that [zodToJsonSchema] returns. *)
Definition empty_schema : JSON :=
  JObject [("type", JString "object");
           ("properties", JObject []);
           ("required", JArray [])].

(** The provider has no client in [self]; a provider the client does not
    serve at all is not meant. *)
Definition unconfigured (self : t) (p : ModelProvider) : Prop :=
  match p with
  | openai => openaiClients self !! "openai" = None
  | lmstudio => openaiClients self !! "lmstudio" = None
  | anthropic => anthropicClient self = None
  | ollama => False
  end.

End ProviderVocabulary.

(** ** JSON documents *)

Section JsonVocabulary.
Import Json.

(** What may follow a value inside a document: nothing, a comma, or a
    closing bracket. *)
Definition terminated (rest : string) : bool :=
  match rest with
  | EmptyString => true
  | String c _ => Ascii.eqb c "," || Ascii.eqb c "]" || Ascii.eqb c "}"
  end.

(** The values [JSON.parse] can produce: the names of an object are
    distinct. *)
Fixpoint distinct_names (v : JSON) : Prop :=
  match v with
  | JArray items =>
      (fix all (l : list JSON) : Prop :=
         match l with
         | [] => True
         | x :: r => distinct_names x /\ all r
         end) items
  | JObject props =>
      NoDup (map fst props)
      /\ (fix all (l : list (string * JSON)) : Prop :=
            match l with
            | [] => True
            | (_, x) :: r => distinct_names x /\ all r
            end) props
  | _ => True
  end.

(** The fuel that reading a value back takes. *)
Fixpoint need (v : JSON) : nat :=
  match v with
  | JArray items =>
      S ((fix all (l : list JSON) : nat :=
            match l with
            | [] => O
            | x :: r => S (Nat.max (need x) (all r))
            end) items)
  | JObject props =>
      S ((fix all (l : list (string * JSON)) : nat :=
            match l with
            | [] => O
            | (_, x) :: r => S (Nat.max (need x) (all r))
            end) props)
  | _ => 1%nat
  end.

Definition need_items (items : list JSON) : nat :=
  (fix all (l : list JSON) : nat :=
     match l with
     | [] => O
     | x :: r => S (Nat.max (need x) (all r))
     end) items.

Definition need_props (props : list (string * JSON)) : nat :=
  (fix all (l : list (string * JSON)) : nat :=
     match l with
     | [] => O
     | (_, x) :: r => S (Nat.max (need x) (all r))
     end) props.

Definition prop_text (kv : string * JSON) : string :=
  match kv with
  | (k, v) =>
      String.append (quoted (escape k)) (String.append ":" (stringify v))
  end.

(** A value starts with a character that is neither white space nor a
    closing bracket. *)
Definition opens_value (c : ascii) : bool :=
  negb (Utils.is_space c) && negb (Ascii.eqb c "]").

(** Reading a printed value back gives the value, for any fuel that covers
    its nesting. *)
Definition reads_back (v : JSON) : Prop :=
  distinct_names v ->
  forall fuel rest,
    (need v <= fuel)%nat ->
    terminated rest = true ->
    parse_value fuel (String.append (stringify v) rest) = Some (v, rest).

Definition add_props (props seen : list (string * JSON))
  : list (string * JSON) :=
  fold_left (fun acc kv => ModelClient.set_prop (fst kv) (snd kv) acc)
    props seen.

End JsonVocabulary.

(** ** Execution engine *)

Section EngineVocabulary.
Context {World : Type}.
Variable self : BaseAgent.t World.

(** The messages pushed for a list of calls and their results, without ids
    and timestamps: for each call an assistant message with that call, then
    a tool message with its result. *)
Fixpoint pushed (response : CompletionResponse) (calls : list ToolCall)
  (results : list ToolResult)
  : list (MessageRole * string * option (list ToolCall)
          * option (list ToolResult)) :=
  match calls, results with
  | toolCall :: calls', result :: results' =>
      (assistant, content response, Some [toolCall], None)
      :: (tool, or_else (output result) (or_else (error result) EmptyString),
          None, Some [result])
      :: pushed response calls' results'
  | _, _ => []
  end.

Definition max_iterations_result : TaskResult :=
  {| tr_success := false; tr_output := None;
     tr_error := Some "Max iterations reached without completion";
     tr_artifacts := None |}.

(** The contained failure of a tool call. *)
Definition failure (toolCall : ToolCall) (message : string) : ToolResult :=
  {| toolCallId := tc_id toolCall;
     success := false;
     output := None;
     error := Some message |}.

(** The failure that [executeTool] contains for a tool that raises a value
    without a message: the result has no error. *)
Definition failure_without_message (toolCall : ToolCall) : ToolResult :=
  {| toolCallId := tc_id toolCall;
     success := false;
     output := None;
     error := None |}.

(** The [TypeError] of reading [message] off [null] or [undefined]. *)
Definition reads_message_of_nothing (e : string) : Prop :=
  e = "Cannot read properties of null (reading 'message')"
  \/ e = "Cannot read properties of undefined (reading 'message')".

(** The tool calls that a trace announces and the tool results that it
    reports.  A call that is announced and not reported is one at which
    [executeTool] threw. *)
Definition is_tool_call (e : Event) : bool :=
  match e with
  | Emit_tool_call _ => true
  | _ => false
  end.

Definition is_tool_result (e : Event) : bool :=
  match e with
  | Emit_tool_result _ => true
  | _ => false
  end.

Definition tool_calls_emitted (t : list Event) : nat :=
  length (List.filter is_tool_call t).

Definition tool_results_emitted (t : list Event) : nat :=
  length (List.filter is_tool_result t).

Definition every_call_answered (t : list Event) : Prop :=
  tool_calls_emitted t = tool_results_emitted t.

(** The agent as [execute] leaves it. *)
Definition released (started : Z) : BaseAgent.t World :=
  BaseAgent.set_state self
    {| BaseAgent.st_id := BaseAgent.st_id (BaseAgent.state self);
       BaseAgent.isActive := false;
       BaseAgent.currentTask := None;
       BaseAgent.lastActivity := Some started;
       BaseAgent.conversationHistory :=
         BaseAgent.conversationHistory (BaseAgent.state self) |}.

(** The failed result that the [catch] of [execute] builds. *)
Definition caught (message : string) : TaskResult :=
  {| tr_success := false; tr_output := None; tr_error := Some message;
     tr_artifacts := None |}.


End EngineVocabulary.

Section EngineRunVocabulary.
Context {World : Type} {rt : Runtime World}.
Variable self : BaseAgent.t World.

(** The calls of a response run in order from a world: the result of each
    call is what [executeTool] returns for it in the world that the calls
    before it left, and two ids are generated after each call, for the two
    messages pushed. *)
Inductive Dispatched
  : list ToolCall -> World -> list ToolResult -> World -> Prop :=
| Dispatched_nil (w : World) : Dispatched [] w [] w
| Dispatched_cons (toolCall : ToolCall) (rest : list ToolCall) (w : World)
    (result : ToolResult) (w1 : World) (results : list ToolResult)
    (w' : World) :
    BaseAgent.executeTool self toolCall w = (Ok result, w1, []) ->
    Dispatched rest (snd (generateId (snd (generateId w1)))) results w' ->
    Dispatched (toolCall :: rest) w (result :: results) w'.

(** The run of the calls is cut short with the error [e]: the calls
    before [toolCall] ran, and the tool of [toolCall] threw, or rejected
    with, a value off which the handler of [executeTool] cannot read a
    message. *)
Definition Aborted (calls : list ToolCall) (w : World) (e : string)
  (w' : World) : Prop :=
  exists before toolCall rest results w0 tl thrown,
    calls = before ++ toolCall :: rest
    /\ Dispatched before w results w0
    /\ map_get (tc_name toolCall) (BaseAgent.tools self) = Some tl
    /\ execute tl (tc_arguments toolCall) w0 = (Raised thrown, w')
    /\ BaseAgent.message_of thrown = Throw e.

End EngineRunVocabulary.

(** ** Classifier *)

Section ClassifierVocabulary.
Import Samantha.
Import PrimFloat.
Context {World : Type} {codec : JsonCodec}.
Variable SAMANTHA_SYSTEM_PROMPT : string.
Variable classificationPrompt : string -> string.

(** The number of indicators of a list that occur in the lower-cased
    input. *)
Definition matches (indicators : list string) (input : string) : nat :=
  length (List.filter (fun indicator =>
                         includes indicator (Utils.toLowerCase input))
            indicators).

(** The confidence formula of the heuristic stage, in exact arithmetic. *)
Definition heuristic_confidence (workCount personalCount : nat) : Q :=
  Qmin (9 # 10)
    ((5 # 10)
     + (4 # 10)
       * inject_Z (Z.abs (Z.of_nat workCount - Z.of_nat personalCount))
       / inject_Z (Z.max (Z.of_nat workCount + Z.of_nat personalCount) 1)).

(** The two numbers computed in the code, for any two scores. *)
Definition code_type (workScore personalScore : nat) : IntentType :=
  if (personalScore <? workScore)%nat then known work
  else if (workScore <? personalScore)%nat then known personal
  else unclear.

Definition code_confidence (workScore personalScore : nat) : float :=
  Math_min 0.9
    (0.5
     + PrimFloat.abs (number workScore - number personalScore)
       / Math_max (number workScore + number personalScore) 1
       * 0.4)%float.

(** The rational that a finite double stands for. *)
Definition value_of (x : float) : option Q :=
  match FloatOps.Prim2SF x with
  | SpecFloat.S754_zero _ => Some 0%Q
  | SpecFloat.S754_finite negative m e =>
      Some ((if negative then - inject_Z (Zpos m) else inject_Z (Zpos m))
            * Qpower 2 e)%Q
  | _ => None
  end.

(** How far the double that the code computes may be from the value of
    the formula. *)
Definition rounding : Q := 1 # 5000000000000000.

(** The heuristic stage is sure of its answer: the difference of the two
    counts is more than three quarters of their sum (taken as one when
    nothing matched). *)
Definition sure (workCount personalCount : nat) : Prop :=
  (3 * Z.max (Z.of_nat workCount + Z.of_nat personalCount) 1
   < 4 * Z.abs (Z.of_nat workCount - Z.of_nat personalCount))%Z.

(** What holds of the confidence for two counts, checked by running the
    computation: the test [> 0.8] of [classifyTask] is passed exactly when
    the counts are such that the stage is sure, the confidence is not
    above 0.8 exactly when that test fails, and the double computed is
    the value of the formula up to [rounding]. *)
Definition confidence_checked (workCount personalCount : nat) : bool :=
  let c := code_confidence workCount personalCount in
  Bool.eqb (PrimFloat.ltb 0.8 c)
    (3 * Z.max (Z.of_nat workCount + Z.of_nat personalCount) 1
     <? 4 * Z.abs (Z.of_nat workCount - Z.of_nat personalCount))%Z
  && Bool.eqb (PrimFloat.leb c 0.8) (negb (PrimFloat.ltb 0.8 c))
  && match value_of c with
     | Some value =>
         Qle_bool
           (Qabs (value - heuristic_confidence workCount personalCount))
           rounding
     | None => false
     end.

(** The two messages and the options of the classification request. *)
Definition classificationMessages (input : string) (timestamp : Z)
  : list Message :=
  [{| msg_id := "system"; msg_role := system;
      msg_content := SAMANTHA_SYSTEM_PROMPT;
      msg_timestamp := timestamp;
      msg_agentId := None;
      msg_toolCalls := None; msg_toolResults := None |};
   {| msg_id := "user"; msg_role := user;
      msg_content := classificationPrompt input;
      msg_timestamp := timestamp;
      msg_agentId := None;
      msg_toolCalls := None; msg_toolResults := None |}].

Definition classificationOptions (m : string) (msgs : list Message)
  : CompletionOptions World :=
  {| opt_model := m;
     opt_messages := msgs;
     opt_tools := None;
     opt_maxTokens := Some 512%nat;
     opt_temperature := Some (3 # 10);
     opt_stream := None |}.

(** What the model stage makes of an answer. *)
Definition model_stage (fallback : TaskClassification) (m : string)
  (msgs : list Message) (answered : Result CompletionResponse * World)
  : Result Classified * World * list Event :=
  match answered with
  | (Throw e, w1) =>
      (Ok (Built fallback), w1,
       [Completion m msgs (Throw e); Log_error "Classification error:" e])
  | (Ok answer, w1) =>
      match jsonMatch (content answer) with
      | None => (Ok (Built fallback), w1, [Completion m msgs (Ok answer)])
      | Some text =>
          match JSON_parse text with
          | Ok value =>
              (Ok (Parsed value), w1, [Completion m msgs (Ok answer)])
          | Throw e =>
              (Ok (Built fallback), w1,
               [Completion m msgs (Ok answer);
                Log_error "Classification error:" e])
          end
      end
  end.

(** The answer holds nothing that parses: it has no span from a first
    opening brace to a last closing brace, or [JSON.parse] throws on that
    span. *)
Definition unparseable (text : string) : Prop :=
  match jsonMatch text with
  | None => True
  | Some candidate => exists e, JSON_parse candidate = Throw e
  end.

(** [c] occurs in [s]. *)
Fixpoint contains (c : ascii) (s : string) : bool :=
  match s with
  | EmptyString => false
  | String a rest => Ascii.eqb a c || contains c rest
  end.

(** The first balanced JSON object of a text, as the interface description
    words it: from an opening brace to the closing brace that matches it,
    braces inside string literals not counted, at the first place where
    such an object starts. *)
Fixpoint balanced_rest (depth : nat) (in_string escaped : bool) (s : string)
  : option string :=
  match s with
  | EmptyString => None
  | String c rest =>
      let keep := option_map (String c) in
      if in_string then
        if escaped then keep (balanced_rest depth true false rest)
        else if Ascii.eqb c Json.backslash
        then keep (balanced_rest depth true true rest)
        else if Ascii.eqb c Json.quote
        then keep (balanced_rest depth false false rest)
        else keep (balanced_rest depth true false rest)
      else if Ascii.eqb c Json.quote
      then keep (balanced_rest depth true false rest)
      else if Ascii.eqb c "{"
      then keep (balanced_rest (S depth) false false rest)
      else if Ascii.eqb c "}" then
        match depth with
        | O => Some (String c EmptyString)
        | S depth' => keep (balanced_rest depth' false false rest)
        end
      else keep (balanced_rest depth false false rest)
  end.

Fixpoint first_balanced_object (s : string) : option string :=
  match s with
  | EmptyString => None
  | String c rest =>
      if Ascii.eqb c "{" then
        match balanced_rest 0 false false rest with
        | Some body => Some (String c body)
        | None => first_balanced_object rest
        end
      else first_balanced_object rest
  end.

End ClassifierVocabulary.

(** ** Further notions *)

(** ** Utilities *)

Section UtilsVocabulary.
Import Utils.

(** The calls of [fn] among the steps of a [retry], and the delays it
    slept, in order. *)
Definition attempts (steps : list RetryStep) : nat :=
  length (List.filter (fun s => match s with
                                | Attempt => true
                                | Sleep _ => false
                                end) steps).

Definition sleeps (steps : list RetryStep) : list Z :=
  omap (fun s => match s with
                 | Attempt => None
                 | Sleep ms => Some ms
                 end) steps.

(** The delay after the failed attempt number [attempt], counted from 0. *)
Definition backoff (baseDelay maxDelay : Z) (attempt : nat) : Z :=
  Z.min (baseDelay * 2 ^ Z.of_nat attempt) maxDelay.

(** What [retry] does when its first [failures] calls fail and the next
    one is its last, counted from the call number [attempt]: a call and a
    sleep for every failure, and the last call. *)
Fixpoint schedule (baseDelay maxDelay : Z) (attempt failures : nat)
  : list RetryStep :=
  match failures with
  | O => [Attempt]
  | S failures' =>
      Attempt :: Sleep (backoff baseDelay maxDelay attempt)
      :: schedule baseDelay maxDelay (S attempt) failures'
  end.

(** The world in which [retry] makes a call after [failures] failed calls
    from the call number [attempt] on, made in [w]: each of the failed
    calls has run, and [retry] has slept after it. *)
Fixpoint world_before {World A : Type} (fn : World -> Result A * World)
  (sleep : Z -> World -> World) (baseDelay maxDelay : Z)
  (attempt failures : nat) (w : World) : World :=
  match failures with
  | O => w
  | S failures' =>
      world_before fn sleep baseDelay maxDelay (S attempt) failures'
        (sleep (backoff baseDelay maxDelay attempt) (snd (fn w)))
  end.

(** No match of the tag pattern starts anywhere in [s]. *)
Fixpoint tag_free (s : string) : bool :=
  match s with
  | EmptyString => true
  | String _ rest =>
      match match_tag_at s with
      | Some _ => false
      | None => tag_free rest
      end
  end.

(** What may follow an opening bracket at which no tag starts: nothing, a
    closing bracket at once, or a text without closing bracket. *)
Definition blocked (r : string) : bool :=
  match r with
  | EmptyString => true
  | String c _ => Ascii.eqb c "]" || negb (contains "]" r)
  end.

End UtilsVocabulary.

(** ** Provider adapter, further notions *)

Section ProviderVocabularyMore.
Import ModelClient.
Context {World : Type}.

Definition is_system (msg : Message) : bool :=
  match msg_role msg with
  | system => true
  | _ => false
  end.

(** What one message adds to the Anthropic message list. *)
Definition anthropic_wire (msg : Message) : list AnthropicMessage :=
  snd (messageToAnthropic (None, []) msg).

(** The name under which a client key appears in error messages and
    network calls. *)
Definition provider_of_key (key : ClientKey) : ModelProvider :=
  match key with
  | key_openai => openai
  | key_lmstudio => lmstudio
  end.

(** A stream event that carries a text delta. *)
Definition is_text_delta (ev : AnthropicEvent) : bool :=
  match ev with
  | Text_delta _ => true
  | Other_event => false
  end.

(** The outcome of a completion that reached an SDK or failed before. *)
Definition completion_outcome (options : CompletionOptions World)
  (w : World) (run : Result CompletionResponse * World * list Event) : Prop :=
  match outcome run with
  | Ok answer =>
      (exists provider,
          trace run
          = [Network_call provider (modelName (opt_model options))])
      /\ (finishReason answer = finish_stop
          \/ finishReason answer = finish_tool_calls)
  | Throw e =>
      (trace run = [] /\ world_after run = w)
      \/ exists provider context,
          trace run
          = [Network_call provider (modelName (opt_model options));
             Log_error context e]
  end.

End ProviderVocabularyMore.

(** ** Model detector *)

Section DetectorVocabulary.
Import ModelDetector.

Definition window (m : ModelInfo) : Z := contextWindow (mi_capabilities m).

(** A model that [getBestWorkModel] prefers. *)
Definition preferred_for_work (m : ModelInfo) : bool :=
  includes "claude-3-5-sonnet" (mi_name m) || includes "gpt-4o" (mi_name m).

(** A model that [getBestPersonalModel] falls back on. *)
Definition small (m : ModelInfo) : bool :=
  includes "haiku" (mi_name m) || includes "mini" (mi_name m).

End DetectorVocabulary.

(** ** Agents *)

Section AgentVocabulary.
Context {World : Type}.

Definition history_of (agent : BaseAgent.t World) : list Message :=
  BaseAgent.conversationHistory (BaseAgent.state agent).

End AgentVocabulary.

Section EngineVocabularyMore.
Context {World : Type}.
Variable self : BaseAgent.t World.

(** The result of a task that the model answered. *)
Definition answered_result (answer : CompletionResponse) : TaskResult :=
  {| tr_success := true;
     tr_output := Some (content answer);
     tr_error := None;
     tr_artifacts := None |}.

(** How the loop of [execute] can end for a task: with the answer of a
    completion that carries no tool call, out of iterations, with an
    error thrown on the way to a completion or by it, or with the
    [TypeError] of [executeTool] at a tool call of the last completion. *)
Definition loop_ending (remaining : nat) (task : Task)
  (run : Result (TaskResult * Task) * World * list Event) : Prop :=
  match outcome run with
  | Ok (result, task') =>
      (exists m msgs answer,
          last (completions (trace run))
          = Some (Completion m msgs (Ok answer))
          /\ carries_tool_calls answer = false
          /\ result = answered_result answer
          /\ exists completedAt,
              task' = BaseAgent.with_result task completed (Some completedAt)
                        result)
      \/ (result = max_iterations_result
          /\ task' = BaseAgent.with_result task failed (task_completedAt task)
                       result
          /\ length (completions (trace run)) = remaining
          /\ forallb answered_with_tool_calls (completions (trace run))
             = true
          /\ every_call_answered (trace run))
  | Throw e =>
      (present (BaseAgent.modelId self) = None
       /\ e = "No model available"
       /\ completions (trace run) = [])
      \/ (exists m msgs,
             last (completions (trace run))
             = Some (Completion m msgs (Throw e)))
      \/ (exists m msgs answer,
             last (completions (trace run))
             = Some (Completion m msgs (Ok answer))
             /\ carries_tool_calls answer = true
             /\ reads_message_of_nothing e
             /\ ~ every_call_answered (trace run))
  end.

End EngineVocabularyMore.

(** The GitHub agent with its tools registered, on a machine whose ids
    are counted up. *)
Definition github_agent : BaseAgent.t nat :=
  Agents.registerAll (Agents.GitHubAgent_tools (rt := Scenario.tidy))
    (Agents.GitHubAgent (fun _ => "You are the GitHub Agent.")).

Definition list_pull_requests_tool : Tool nat :=
  Agents.tool (rt := Scenario.tidy) "list_pull_requests"
    "List pull requests in a repository"
    (ZObject [("repo", ZString);
              ("state", ZOptional (ZEnum ["open"; "closed"; "all"]))])
    (fun params =>
       Agents.template
         [Ok "[Mock] Listed PRs for "; Agents.show params "repo";
          Ok " with state: "; Agents.show_or params "state" "open"]).

(** A detector that has found one local model and the Claude models. *)
Definition detector_with_both : ModelDetector.t :=
  snd (ModelDetector.detectAll
         (ModelDetector.configureProvider
            (ModelDetector.configureProvider ModelDetector.new
               {| pc_provider := lmstudio; pc_apiKey := None;
                  pc_baseUrl := None; pc_defaultModel := None;
                  pc_isEnabled := true |})
            {| pc_provider := anthropic; pc_apiKey := Some "sk-ant-test";
               pc_baseUrl := None; pc_defaultModel := None;
               pc_isEnabled := true |})
         (["qwen2.5-7b-instruct"], None) ([], None) (Ok tt)).

Section RegistryVocabulary.
Context {World : Type}.

Definition agent_id (agent : BaseAgent.t World) : string :=
  BaseAgent.cfg_id (BaseAgent.config agent).

Definition agent_role (agent : BaseAgent.t World) : AgentRole :=
  BaseAgent.cfg_role (BaseAgent.config agent).

Definition agent_type (agent : BaseAgent.t World) : AgentType :=
  BaseAgent.cfg_type (BaseAgent.config agent).

Definition of_type (type : AgentType) (agent : BaseAgent.t World) : bool :=
  AgentRegistry.same_type (agent_type agent) type.

(** What identifies an agent: its id, its role and its type; and the
    nine agents of the registry, in the order of their classes. *)
Definition card (agent : BaseAgent.t World) : string * AgentRole * AgentType :=
  (agent_id agent, agent_role agent, agent_type agent).

Definition cards : list (string * AgentRole * AgentType) :=
  [("github-agent", github, work); ("coding-agent", coding, work);
   ("slack-agent", slack, work); ("email-agent", email, work);
   ("research-agent", research, work);
   ("calendar-agent", calendar, personal);
   ("creative-agent", creative, personal); ("chat-agent", chat, personal);
   ("social-agent", social, personal)].

(** The roles of the nine agent classes. *)
Definition roles : list AgentRole :=
  [github; coding; slack; email; research; calendar; creative; chat; social].

End RegistryVocabulary.

Section RegistryKeys.
Context {World : Type}.

(** The keys under which [initialize] registers the classes, with the
    address of the agent of each: its id and its role, class by class. *)
Fixpoint keys (address : nat)
  (classes : list (BaseAgent.t World * list (Tool World)))
  (registered : list (string * nat)) : list (string * nat) :=
  match classes with
  | [] => registered
  | class :: rest =>
      keys (S address) rest
        (map_set
           (AgentRegistry.role_name (agent_role (fst class))) address
           (map_set (agent_id (fst class)) address registered))
  end.

End RegistryKeys.


(** * Properties *)

(** ** Strings *)

Section StringFacts.

Lemma append_cons (c : ascii) (a b : string) :
  String.append (String c a) b = String c (String.append a b).
Proof. reflexivity. Qed.

Lemma append_empty (b : string) : String.append EmptyString b = b.
Proof. reflexivity. Qed.

Lemma append_assoc (a b c : string) :
  String.append (String.append a b) c = String.append a (String.append b c).
Proof.
  induction a as [|x a IH]; [reflexivity|].
  rewrite !append_cons. by rewrite IH.
Qed.

Lemma length_append (a b : string) :
  String.length (String.append a b)
  = (String.length a + String.length b)%nat.
Proof.
  induction a as [|x a IH]; [reflexivity|].
  rewrite append_cons. cbn [String.length]. by rewrite IH.
Qed.

Lemma append_nil_r (s : string) : String.append s EmptyString = s.
Proof.
  induction s as [|c s IH]; [reflexivity|].
  rewrite append_cons. by rewrite IH.
Qed.

End StringFacts.

(** ** JSON codec

    The executable codec of [Json] reads back what it prints. *)

Section JsonRoundTrip.
Import Json.

(** *** String literals *)

Lemma parse_escaped_char (c : ascii) (s : string) :
  parse_string_body (String.append (escape_char c) s)
  = match parse_string_body s with
    | Some (body, after) => Some (String c body, after)
    | None => None
    end.
Proof.
  destruct c as [[] [] [] [] [] [] [] []]; reflexivity.
Qed.

Lemma parse_escaped (s rest : string) :
  parse_string_body (String.append (escape s) (String quote rest))
  = Some (s, rest).
Proof.
  induction s as [|c s IH].
  - reflexivity.
  - cbn [escape]. rewrite append_assoc, parse_escaped_char, IH. reflexivity.
Qed.

(** *** Numbers *)

Lemma terminated_not_digit (rest : string) :
  terminated rest = true -> digits_span rest = (EmptyString, rest).
Proof.
  destruct rest as [|c rest]; [reflexivity|].
  destruct c as [[] [] [] [] [] [] [] []]; try discriminate; reflexivity.
Qed.

Lemma terminated_not_fraction (rest : string) :
  terminated rest = true -> starts_fraction rest = false.
Proof.
  destruct rest as [|c rest]; [reflexivity|].
  destruct c as [[] [] [] [] [] [] [] []]; try discriminate; reflexivity.
Qed.

Lemma digits_span_cons (c : ascii) (s : string) :
  is_digit c = true ->
  digits_span (String c s)
  = (let (run, after) := digits_span s in (String c run, after)).
Proof. intros H. cbn [digits_span]. by rewrite H. Qed.

Lemma digits_span_string_of_uint (u : Decimal.uint) (rest : string) :
  terminated rest = true ->
  digits_span (String.append (NilEmpty.string_of_uint u) rest)
  = (NilEmpty.string_of_uint u, rest).
Proof.
  intros Hrest. induction u as [|u IH|u IH|u IH|u IH|u IH|u IH|u IH|u IH|u IH|u IH];
    cbn [NilEmpty.string_of_uint];
    [rewrite append_empty; by apply terminated_not_digit|..];
    rewrite append_cons, digits_span_cons, IH by reflexivity; reflexivity.
Qed.

Lemma nzhead_head (d : Decimal.uint) :
  match Decimal.nzhead d with
  | Decimal.D0 _ => False
  | _ => True
  end.
Proof. induction d; simpl; auto. Qed.

Lemma no_leading_zero_unorm (d : Decimal.uint) :
  no_leading_zero (Decimal.unorm d) = true.
Proof.
  unfold Decimal.unorm. pose proof (nzhead_head d) as H.
  destruct (Decimal.nzhead d); try reflexivity. destruct H.
Qed.

Lemma to_uint_unorm (p : positive) :
  Pos.to_uint p = Decimal.unorm (Pos.to_uint p).
Proof.
  rewrite <- (DecimalPos.Unsigned.to_of (Pos.to_uint p)).
  by rewrite DecimalPos.Unsigned.of_to.
Qed.

Lemma no_leading_zero_to_int (z : Z) :
  no_leading_zero (Decimal.abs (Z.to_int z)) = true.
Proof.
  destruct z as [|p|p]; cbn [Z.to_int Decimal.abs]; [reflexivity|..];
    rewrite to_uint_unorm; apply no_leading_zero_unorm.
Qed.

Lemma string_of_uint_nonnil (u : Decimal.uint) :
  u <> Decimal.Nil ->
  NilZero.string_of_uint u = NilEmpty.string_of_uint u
  /\ exists c s, NilEmpty.string_of_uint u = String c s /\ is_digit c = true.
Proof.
  intros H. destruct u; try congruence; split; try reflexivity;
    by eexists _, _.
Qed.

Lemma number_span_digit (c : ascii) (s : string) :
  is_digit c = true -> number_span (String c s) = digits_span (String c s).
Proof.
  destruct c as [[] [] [] [] [] [] [] []]; try discriminate; reflexivity.
Qed.

Lemma number_span_to_int (z : Z) (rest : string) :
  terminated rest = true ->
  number_span (String.append (NilZero.string_of_int (Z.to_int z)) rest)
  = (NilZero.string_of_int (Z.to_int z), rest).
Proof.
  intros Hrest.
  assert (Huint : forall p,
             number_span
               (String.append (NilZero.string_of_uint (Pos.to_uint p)) rest)
             = (NilZero.string_of_uint (Pos.to_uint p), rest)
             /\ digits_span
                  (String.append (NilZero.string_of_uint (Pos.to_uint p)) rest)
                = (NilZero.string_of_uint (Pos.to_uint p), rest)).
  { intros p.
    destruct (string_of_uint_nonnil (Pos.to_uint p)
                (Unsigned.to_uint_nonnil p)) as (-> & c & s & Hs & Hc).
    pose proof (digits_span_string_of_uint (Pos.to_uint p) rest Hrest) as Hd.
    split; [|exact Hd].
    rewrite Hs in *. rewrite append_cons in *.
    by rewrite number_span_digit. }
  destruct z as [|p|p]; cbn [Z.to_int NilZero.string_of_int].
  - cbn [NilZero.string_of_uint NilEmpty.string_of_uint].
    rewrite append_cons, append_empty.
    rewrite number_span_digit, digits_span_cons by reflexivity.
    by rewrite (terminated_not_digit rest Hrest).
  - apply Huint.
  - rewrite append_cons. cbn [number_span].
    destruct (Huint p) as [_ ->]. reflexivity.
Qed.

Lemma parse_number_to_int (z : Z) (rest : string) :
  terminated rest = true ->
  parse_number (String.append (NilZero.string_of_int (Z.to_int z)) rest)
  = Some (z, rest).
Proof.
  intros Hrest. unfold parse_number.
  rewrite (number_span_to_int z rest Hrest).
  rewrite (terminated_not_fraction rest Hrest).
  rewrite NilZero.isi.
  - by rewrite no_leading_zero_to_int, DecimalZ.of_to.
  - destruct z as [|p|p]; cbn [Z.to_int]; try discriminate.
    intros [= H]. by apply (Unsigned.to_uint_nonnil p).
  - destruct z as [|p|p]; cbn [Z.to_int]; try discriminate.
    intros [= H]. by apply (Unsigned.to_uint_nonnil p).
Qed.

(** *** Documents *)

(** Induction on a JSON value with the hypothesis for every element of an
    array and for every property value of an object. *)
Lemma JSON_induction (P : JSON -> Prop) :
  P JNull ->
  (forall b, P (JBool b)) ->
  (forall n, P (JNumber n)) ->
  (forall s, P (JString s)) ->
  (forall items, Forall P items -> P (JArray items)) ->
  (forall props, Forall (fun kv => P (snd kv)) props -> P (JObject props)) ->
  forall v, P v.
Proof.
  intros Hnull Hbool Hnumber Hstring Harray Hobject.
  refine (fix IH (v : JSON) : P v :=
            match v with
            | JNull => Hnull
            | JBool b => Hbool b
            | JNumber n => Hnumber n
            | JString s => Hstring s
            | JArray items =>
                Harray items
                  ((fix all (l : list JSON) : Forall P l :=
                      match l with
                      | [] => List.Forall_nil P
                      | x :: r => List.Forall_cons P x r (IH x) (all r)
                      end) items)
            | JObject props =>
                Hobject props
                  ((fix all (l : list (string * JSON))
                     : Forall (fun kv => P (snd kv)) l :=
                      match l with
                      | [] => List.Forall_nil _
                      | (k, x) :: r => List.Forall_cons _ (k, x) r (IH x) (all r)
                      end) props)
            end).
Qed.

Lemma stringify_array (items : list JSON) (rest : string) :
  String.append (stringify (JArray items)) rest
  = String "["
      (String.append (join "," (map stringify items)) (String "]" rest)).
Proof.
  cbn [stringify]. rewrite !append_cons, !append_empty, append_assoc.
  reflexivity.
Qed.

Lemma stringify_object (props : list (string * JSON)) (rest : string) :
  String.append (stringify (JObject props)) rest
  = String "{"
      (String.append (join "," (map prop_text props)) (String "}" rest)).
Proof.
  cbn [stringify]. rewrite !append_cons, !append_empty, append_assoc.
  reflexivity.
Qed.

Lemma join_cons (sep p : string) (q : string) (rest : list string) :
  join sep (p :: q :: rest)
  = String.append p (String.append sep (join sep (q :: rest))).
Proof. reflexivity. Qed.

Lemma is_digit_opens_value (c : ascii) :
  is_digit c = true \/ c = "-"%char -> opens_value c = true.
Proof.
  intros [H|H]; destruct c as [[] [] [] [] [] [] [] []];
    try discriminate; reflexivity.
Qed.

Lemma string_of_int_head (z : Z) :
  exists c s,
    NilZero.string_of_int (Z.to_int z) = String c s
    /\ (is_digit c = true \/ c = "-"%char).
Proof.
  destruct z as [|p|p]; cbn [Z.to_int NilZero.string_of_int].
  - eexists _, _. split; [reflexivity|by left].
  - destruct (string_of_uint_nonnil (Pos.to_uint p)
                (Unsigned.to_uint_nonnil p)) as (-> & c & s & -> & Hc).
    eexists _, _. split; [reflexivity|by left].
  - eexists _, _. split; [reflexivity|by right].
Qed.

Lemma stringify_head (v : JSON) :
  exists c s, stringify v = String c s /\ opens_value c = true.
Proof.
  destruct v as [|[]|z|s|items|props]; try (by eexists _, _).
  destruct (string_of_int_head z) as (c & s & Hs & Hc).
  exists c, s. split; [exact Hs|]. by apply is_digit_opens_value.
Qed.

Lemma parse_value_number (fuel : nat) (c : ascii) (s : string) :
  is_digit c = true \/ c = "-"%char ->
  parse_value (S fuel) (String c s)
  = match parse_number (String c s) with
    | Some (n, after) => Some (JNumber n, after)
    | None => None
    end.
Proof.
  intros [H|H]; destruct c as [[] [] [] [] [] [] [] []];
    try discriminate; reflexivity.
Qed.

Lemma not_closing (A : Type) (c : ascii) (s : string)
  (empty : string -> A) (other : A) :
  opens_value c = true ->
  match skip_ws (String c s) with
  | String "]" after => empty after
  | _ => other
  end = other.
Proof.
  destruct c as [[] [] [] [] [] [] [] []]; try discriminate; reflexivity.
Qed.

Lemma distinct_names_array (items : list JSON) :
  distinct_names (JArray items) <-> Forall distinct_names items.
Proof.
  cbn [distinct_names].
  induction items as [|x items IH]; split; intros H.
  - constructor.
  - exact I.
  - destruct H as [Hx H]. constructor; [exact Hx|]. by apply IH.
  - inversion_clear H as [|? ? Hx Hrest]. split; [exact Hx|]. by apply IH.
Qed.

Lemma distinct_names_object (props : list (string * JSON)) :
  distinct_names (JObject props)
  <-> NoDup (map fst props) /\ Forall (fun kv => distinct_names (snd kv)) props.
Proof.
  cbn [distinct_names].
  assert (Hall :
            (fix all (l : list (string * JSON)) : Prop :=
               match l with
               | [] => True
               | (_, x) :: r => distinct_names x /\ all r
               end) props
            <-> Forall (fun kv => distinct_names (snd kv)) props).
  { induction props as [|[k x] props IH]; split; intros H.
    - constructor.
    - exact I.
    - destruct H as [Hx H]. constructor; [exact Hx|]. by apply IH.
    - inversion_clear H as [|? ? Hx Hrest]. split; [exact Hx|]. by apply IH. }
  by rewrite Hall.
Qed.

Lemma parse_items_step (fuel : nat) (s : string) :
  parse_items (S fuel) s
  = match parse_value fuel s with
    | Some (item, after) =>
        match skip_ws after with
        | String "," more =>
            match parse_items fuel more with
            | Some (items, rest) => Some (item :: items, rest)
            | None => None
            end
        | String "]" rest => Some ([item], rest)
        | _ => None
        end
    | None => None
    end.
Proof. reflexivity. Qed.

Lemma parse_props_step (fuel : nat) (seen : list (string * JSON))
  (keyText : string) :
  parse_props (S fuel) seen (String quote keyText)
  = match parse_string_body keyText with
    | Some (key, after) =>
        match skip_ws after with
        | String ":" valueText =>
            match parse_value fuel valueText with
            | Some (value, after') =>
                match skip_ws after' with
                | String "," more =>
                    parse_props fuel (ModelClient.set_prop key value seen)
                      more
                | String "}" rest =>
                    Some (ModelClient.set_prop key value seen, rest)
                | _ => None
                end
            | None => None
            end
        | _ => None
        end
    | None => None
    end.
Proof. reflexivity. Qed.

Lemma parse_items_printed (items : list JSON) :
  Forall reads_back items ->
  Forall distinct_names items ->
  items <> [] ->
  forall fuel rest,
    (need_items items <= fuel)%nat ->
    parse_items fuel
      (String.append (join "," (map stringify items)) (String "]" rest))
    = Some (items, rest).
Proof.
  induction items as [|x items IH]; [done|].
  intros Hreads Hnames _ fuel rest Hfuel.
  inversion_clear Hreads as [|? ? Hx Hreads'].
  inversion_clear Hnames as [|? ? Hnx Hnames'].
  destruct fuel as [|fuel]; [cbn in Hfuel; lia|].
  assert (Hneed : (need x <= fuel)%nat /\ (need_items items <= fuel)%nat).
  { change (need_items (x :: items))
      with (S (Nat.max (need x) (need_items items))) in Hfuel. lia. }
  destruct Hneed as [Hneedx Hneeds].
  rewrite parse_items_step.
  destruct items as [|y items].
  - cbn [map join].
    rewrite (Hx Hnx fuel (String "]" rest) Hneedx eq_refl). reflexivity.
  - cbn [map]. rewrite join_cons, !append_assoc.
    rewrite append_cons, append_empty.
    rewrite (Hx Hnx fuel (String "," _) Hneedx eq_refl).
    change (skip_ws (String "," ?more)) with (String "," more).
    cbn [map] in IH. cbv iota beta.
    rewrite (IH Hreads' Hnames' ltac:(discriminate) fuel rest Hneeds).
    reflexivity.
Qed.

Lemma prop_text_append (k : string) (v : JSON) (tail : string) :
  String.append (prop_text (k, v)) tail
  = String quote
      (String.append (escape k)
         (String quote (String ":" (String.append (stringify v) tail)))).
Proof.
  unfold prop_text, quoted.
  rewrite !append_cons, !append_assoc, !append_cons, !append_empty.
  reflexivity.
Qed.

Lemma parse_props_printed (props : list (string * JSON)) :
  Forall (fun kv => reads_back (snd kv)) props ->
  Forall (fun kv => distinct_names (snd kv)) props ->
  props <> [] ->
  forall fuel seen rest,
    (need_props props <= fuel)%nat ->
    parse_props fuel seen
      (String.append (join "," (map prop_text props)) (String "}" rest))
    = Some (add_props props seen, rest).
Proof.
  induction props as [|[k x] props IH]; [done|].
  intros Hreads Hnames _ fuel seen rest Hfuel.
  inversion_clear Hreads as [|? ? Hx Hreads'].
  inversion_clear Hnames as [|? ? Hnx Hnames'].
  cbn [snd] in Hx, Hnx.
  destruct fuel as [|fuel]; [cbn in Hfuel; lia|].
  assert (Hneed : (need x <= fuel)%nat /\ (need_props props <= fuel)%nat).
  { change (need_props ((k, x) :: props))
      with (S (Nat.max (need x) (need_props props))) in Hfuel. lia. }
  destruct Hneed as [Hneedx Hneeds].
  destruct props as [|p props].
  - cbn [map join]. rewrite prop_text_append, parse_props_step.
    rewrite parse_escaped.
    change (skip_ws (String ":" ?t)) with (String ":" t). cbv iota beta.
    rewrite (Hx Hnx fuel (String "}" rest) Hneedx eq_refl). reflexivity.
  - cbn [map]. rewrite join_cons, !append_assoc.
    rewrite (append_cons "," EmptyString), append_empty.
    rewrite prop_text_append, parse_props_step.
    rewrite parse_escaped.
    change (skip_ws (String ":" ?t)) with (String ":" t). cbv iota beta.
    rewrite (Hx Hnx fuel (String "," _) Hneedx eq_refl).
    change (skip_ws (String "," ?more)) with (String "," more).
    cbv iota beta. cbn [map] in IH.
    rewrite (IH Hreads' Hnames' ltac:(discriminate) fuel _ rest Hneeds).
    reflexivity.
Qed.

Lemma set_prop_fresh (k : string) (v : JSON) (seen : list (string * JSON)) :
  ~ In k (map fst seen) ->
  ModelClient.set_prop k v seen = seen ++ [(k, v)].
Proof.
  induction seen as [|[k' v'] seen IH]; intros Hfresh; [reflexivity|].
  cbn [ModelClient.set_prop].
  destruct (String.eqb_spec k k') as [->|Hne].
  - exfalso. apply Hfresh. by left.
  - cbn [app]. rewrite IH; [reflexivity|].
    intros Hin. apply Hfresh. by right.
Qed.

Lemma add_props_distinct (props : list (string * JSON)) :
  forall seen,
    NoDup (map fst (seen ++ props)) ->
    add_props props seen = seen ++ props.
Proof.
  unfold add_props.
  induction props as [|[k v] props IH]; intros seen Hnodup.
  - by rewrite app_nil_r.
  - cbn [fold_left fst snd].
    rewrite set_prop_fresh.
    + rewrite IH; [by rewrite <- app_assoc|].
      by rewrite <- app_assoc.
    + rewrite map_app in Hnodup. cbn [map fst] in Hnodup.
      apply NoDup_app in Hnodup as (_ & Hapart & _).
      intros Hin. apply list_elem_of_In in Hin.
      apply (Hapart _ Hin). by left.
Qed.

Lemma parse_value_string (fuel : nat) (text : string) :
  parse_value (S fuel) (String quote text)
  = match parse_string_body text with
    | Some (body, after) => Some (JString body, after)
    | None => None
    end.
Proof. reflexivity. Qed.

Lemma parse_value_array (fuel : nat) (text : string) :
  parse_value (S fuel) (String "[" text)
  = match skip_ws text with
    | String "]" after => Some (JArray [], after)
    | _ =>
        match parse_items fuel text with
        | Some (items, after) => Some (JArray items, after)
        | None => None
        end
    end.
Proof. reflexivity. Qed.

Lemma parse_value_object (fuel : nat) (text : string) :
  parse_value (S fuel) (String "{" text)
  = match skip_ws text with
    | String "}" after => Some (JObject [], after)
    | _ =>
        match parse_props fuel [] text with
        | Some (props, after) => Some (JObject props, after)
        | None => None
        end
    end.
Proof. reflexivity. Qed.

Lemma array_not_empty (A : Type) (text : string) (c : ascii) (s : string)
  (empty : string -> A) (other : A) :
  text = String c s ->
  opens_value c = true ->
  match skip_ws text with
  | String "]" after => empty after
  | _ => other
  end = other.
Proof. intros -> Hc. by apply not_closing. Qed.

Lemma object_not_empty (A : Type) (text s : string)
  (empty : string -> A) (other : A) :
  text = String quote s ->
  match skip_ws text with
  | String "}" after => empty after
  | _ => other
  end = other.
Proof. by intros ->. Qed.

Lemma items_head (x : JSON) (items : list JSON) (tail : string) :
  exists c s,
    String.append (join "," (map stringify (x :: items))) tail = String c s
    /\ opens_value c = true.
Proof.
  destruct (stringify_head x) as (c & s & Hx & Hc).
  destruct items as [|y items]; cbn [map].
  - cbn [join]. rewrite Hx, append_cons. by eexists _, _.
  - rewrite join_cons, !append_assoc, Hx, append_cons. by eexists _, _.
Qed.

Lemma props_head (p : string * JSON) (props : list (string * JSON))
  (tail : string) :
  exists s,
    String.append (join "," (map prop_text (p :: props))) tail
    = String quote s.
Proof.
  destruct p as [k x].
  destruct props as [|q props]; cbn [map].
  - cbn [join]. rewrite prop_text_append. by eexists.
  - rewrite join_cons, !append_assoc, prop_text_append. by eexists.
Qed.

Theorem parse_value_stringify (v : JSON) : reads_back v.
Proof.
  induction v as [| b | n | s | items IH | props IH] using JSON_induction;
    intros Hnames fuel rest Hfuel Hrest;
    (destruct fuel as [|fuel]; [cbn in Hfuel; lia|]).
  - reflexivity.
  - by destruct b.
  - destruct (string_of_int_head n) as (c & tail & Hhead & Hc).
    cbn [stringify]. rewrite Hhead, append_cons.
    rewrite (parse_value_number fuel c _ Hc).
    rewrite <- append_cons, <- Hhead.
    by rewrite parse_number_to_int.
  - cbn [stringify]. unfold quoted.
    rewrite append_cons, append_assoc, append_cons, append_empty.
    rewrite parse_value_string.
    by rewrite parse_escaped.
  - apply distinct_names_array in Hnames.
    destruct items as [|x items]; [reflexivity|].
    rewrite stringify_array, parse_value_array.
    destruct (items_head x items (String "]" rest)) as (c & s & Hhead & Hc).
    rewrite (array_not_empty _ _ c s _ _ Hhead Hc).
    rewrite (parse_items_printed _ IH Hnames ltac:(discriminate) fuel rest);
      [reflexivity|].
    change (need (JArray (x :: items))) with (S (need_items (x :: items)))
      in Hfuel.
    lia.
  - apply distinct_names_object in Hnames as [Hdistinct Hnames].
    destruct props as [|p props]; [reflexivity|].
    rewrite stringify_object, parse_value_object.
    destruct (props_head p props (String "}" rest)) as (s & Hhead).
    rewrite (object_not_empty _ _ s _ _ Hhead).
    rewrite (parse_props_printed _ IH Hnames ltac:(discriminate) fuel [] rest).
    + by rewrite (add_props_distinct _ []).
    + change (need (JObject (p :: props))) with (S (need_props (p :: props)))
        in Hfuel.
      lia.
Qed.

Lemma need_items_bound (items : list JSON) :
  Forall (fun v => (need v <= String.length (stringify v))%nat) items ->
  (need_items items
   <= S (String.length (join "," (map stringify items))))%nat.
Proof.
  induction 1 as [|x items Hx _ IH]; [cbn; lia|].
  change (need_items (x :: items))
    with (S (Nat.max (need x) (need_items items))).
  destruct items as [|y items]; cbn [map].
  - cbn [join]. change (need_items []) with O. lia.
  - rewrite join_cons, !length_append. cbn [map] in IH.
    change (String.length ",") with 1%nat. lia.
Qed.

Lemma prop_text_length (k : string) (v : JSON) :
  (String.length (stringify v) <= String.length (prop_text (k, v)))%nat.
Proof. unfold prop_text. rewrite !length_append. lia. Qed.

Lemma need_props_bound (props : list (string * JSON)) :
  Forall (fun kv => (need (snd kv) <= String.length (stringify (snd kv)))%nat)
    props ->
  (need_props props
   <= S (String.length (join "," (map prop_text props))))%nat.
Proof.
  induction 1 as [|[k x] props Hx _ IH]; [cbn; lia|].
  change (need_props ((k, x) :: props))
    with (S (Nat.max (need x) (need_props props))).
  cbn [snd] in Hx. pose proof (prop_text_length k x) as Hk.
  destruct props as [|q props]; cbn [map].
  - cbn [join]. change (need_props []) with O. lia.
  - rewrite join_cons, !length_append. cbn [map] in IH.
    change (String.length ",") with 1%nat. lia.
Qed.

Lemma need_bound (v : JSON) : (need v <= String.length (stringify v))%nat.
Proof.
  induction v as [| b | n | s | items IH | props IH] using JSON_induction.
  - cbn. lia.
  - destruct b; cbn; lia.
  - destruct (string_of_int_head n) as (c & tail & Hhead & _).
    cbn [stringify need]. rewrite Hhead. cbn [String.length]. lia.
  - cbn [stringify need]. unfold quoted. cbn [String.length]. lia.
  - pose proof (need_items_bound items IH) as Hitems.
    change (need (JArray items)) with (S (need_items items)).
    cbn [stringify]. rewrite !length_append.
    change (String.length "[") with 1%nat.
    change (String.length "]") with 1%nat. lia.
  - pose proof (need_props_bound props IH) as Hprops.
    change (need (JObject props)) with (S (need_props props)).
    change (stringify (JObject props))
      with (String.append "{"
              (String.append (join "," (map prop_text props)) "}")).
    rewrite !length_append.
    change (String.length "{") with 1%nat.
    change (String.length "}") with 1%nat. lia.
Qed.

(** JSON.parse(JSON.stringify(v)) is v, for every value whose objects have
    pairwise distinct property names. *)
Theorem parse_stringify (v : JSON) :
  distinct_names v -> parse (stringify v) = Ok v.
Proof.
  intros Hnames. unfold parse.
  pose proof (need_bound v) as Hneed.
  rewrite <- (append_nil_r (stringify v)) at 2.
  rewrite (parse_value_stringify v Hnames _ EmptyString); [reflexivity|lia|].
  reflexivity.
Qed.

End JsonRoundTrip.

(** ** Provider adapter *)

Section ProviderAdapter.
Import ModelClient.

Lemma zodToJsonSchema_constant (schema : ZodType) :
  zodToJsonSchema schema = empty_schema.
Proof. reflexivity. Qed.

(** C1.  The schema conversion is not structural: [zodToJsonSchema] sends
    every parameter schema to the same object with no properties and no
    required fields, so two tools with different schemas are declared
    alike in both wire formats; the schema of [list_pull_requests], with
    its required [repo], is declared as the empty schema. *)
Theorem C1_zodToJsonSchema_discards_the_schema :
  (forall s1 s2 : ZodType, zodToJsonSchema s1 = zodToJsonSchema s2)
  /\ Scenario.list_pull_requests_schema <> ZString
  /\ oa_tool_parameters (toolToOpenAI (World := unit) Scenario.list_pull_requests)
     = JObject [("type", JString "object");
                ("properties", JObject []);
                ("required", JArray [])]
  /\ an_tool_input_schema (toolToAnthropic (World := unit) Scenario.list_pull_requests)
     = JObject [("type", JString "object");
                ("properties", JObject []);
                ("required", JArray [])].
Proof.
  repeat split; try reflexivity.
  discriminate.
Qed.

(** *** Tool calls on the wire and back *)

Lemma toolCallFromOpenAI_toolCallToOpenAI {codec : JsonCodec}
  (tc : ToolCall) :
  JSON_parse (JSON_stringify (tc_arguments tc)) = Ok (tc_arguments tc) ->
  toolCallFromOpenAI (toolCallToOpenAI tc) = Ok tc.
Proof.
  intros Hargs. unfold toolCallFromOpenAI, toolCallToOpenAI. simpl.
  rewrite Hargs. destruct tc; reflexivity.
Qed.

Lemma toolCallsFromOpenAI_map {codec : JsonCodec} (calls : list ToolCall) :
  Forall (fun tc => JSON_parse (JSON_stringify (tc_arguments tc))
                    = Ok (tc_arguments tc)) calls ->
  toolCallsFromOpenAI (map toolCallToOpenAI calls) = Ok calls.
Proof.
  induction 1 as [|tc rest Htc _ IH]; simpl.
  - reflexivity.
  - rewrite (toolCallFromOpenAI_toolCallToOpenAI tc Htc), IH. reflexivity.
Qed.

Lemma fold_blockFromAnthropic_tool_uses (calls : list ToolCall) :
  forall text acc,
    fold_left blockFromAnthropic (map toolCallToAnthropic calls) (text, acc)
    = (text, acc ++ calls).
Proof.
  induction calls as [|tc rest IH]; intros text acc; simpl.
  - by rewrite app_nil_r.
  - rewrite IH, <- app_assoc. by destruct tc.
Qed.

Lemma blocksFromAnthropic_tool_uses (prefix : list ContentBlock)
  (calls : list ToolCall) :
  (forall b, In b prefix -> exists s, b = Block_text s) ->
  snd (blocksFromAnthropic (prefix ++ map toolCallToAnthropic calls)) = calls.
Proof.
  unfold blocksFromAnthropic. intros Htext.
  rewrite fold_left_app.
  assert (Hpre : forall text,
             exists text', fold_left blockFromAnthropic prefix (text, [])
                           = (text', [])).
  { induction prefix as [|b rest IH]; intros text; simpl.
    - by exists text.
    - destruct (Htext b (or_introl eq_refl)) as [s ->]. simpl.
      apply IH. intros b' Hb'. apply Htext. by right. }
  destruct (Hpre EmptyString) as [text' ->].
  by rewrite fold_blockFromAnthropic_tool_uses.
Qed.

(** C9.  An assistant message with two tool calls, translated to the
    OpenAI-style [tool_calls] entries or to the Anthropic-style [tool_use]
    blocks and read back the way a response is read, gives the two
    original calls: same ids, same names, same argument payloads, same
    order.  On the OpenAI side the payload travels as text, through
    [JSON.stringify] and [JSON.parse] of the platform, which are taken to
    be inverse on the two payloads. *)
Theorem C9_two_tool_calls_round_trip {codec : JsonCodec}
  (msg : Message) (tc1 tc2 : ToolCall) :
  msg_role msg = assistant ->
  msg_toolCalls msg = Some [tc1; tc2] ->
  JSON_parse (JSON_stringify (tc_arguments tc1)) = Ok (tc_arguments tc1) ->
  JSON_parse (JSON_stringify (tc_arguments tc2)) = Ok (tc_arguments tc2) ->
  (exists text wire,
      messagesToOpenAI [msg] = [OpenAI_assistant_calls text wire]
      /\ map oa_id wire = [tc_id tc1; tc_id tc2]
      /\ toolCallsFromOpenAI wire = Ok [tc1; tc2])
  /\ (exists blocks,
         messagesToAnthropic [msg]
         = (None, [{| an_role := anthropic_assistant;
                      an_content := Content_blocks blocks |}])
         /\ snd (blocksFromAnthropic blocks) = [tc1; tc2]).
Proof.
  intros Hrole Hcalls H1 H2. split.
  - eexists _, (map toolCallToOpenAI [tc1; tc2]).
    unfold messagesToOpenAI, messageToOpenAI. simpl.
    rewrite Hrole, Hcalls.
    split; [reflexivity|]. split; [reflexivity|].
    apply (toolCallsFromOpenAI_map [tc1; tc2]). by repeat constructor.
  - eexists.
    unfold messagesToAnthropic, messageToAnthropic. simpl.
    rewrite Hrole, Hcalls. split; [reflexivity|].
    apply blocksFromAnthropic_tool_uses.
    intros b Hb. destruct (msg_content msg); simpl in Hb.
    + destruct Hb.
    + destruct Hb as [<-|[]]. by eexists.
Qed.
End ProviderAdapter.

Section ProviderAdapterRuns.
Import ModelClient.

Lemma C9_two_tool_calls_round_trip_witness :
  (msg_role Scenario.two_calls = assistant
   /\ msg_toolCalls Scenario.two_calls
      = Some [Scenario.call_a; Scenario.call_b]
   /\ Json.parse (Json.stringify (tc_arguments Scenario.call_a))
      = Ok (tc_arguments Scenario.call_a)
   /\ Json.parse (Json.stringify (tc_arguments Scenario.call_b))
      = Ok (tc_arguments Scenario.call_b))
  /\ (exists text wire,
         messagesToOpenAI (codec := Json.codec) [Scenario.two_calls]
         = [OpenAI_assistant_calls text wire]
         /\ map oa_id wire = ["call_a"; "call_b"]
         /\ toolCallsFromOpenAI (codec := Json.codec) wire
            = Ok [Scenario.call_a; Scenario.call_b])
  /\ (exists blocks,
         messagesToAnthropic [Scenario.two_calls]
         = (None, [{| an_role := anthropic_assistant;
                      an_content := Content_blocks blocks |}])
         /\ snd (blocksFromAnthropic blocks)
            = [Scenario.call_a; Scenario.call_b]).
Proof.
  split.
  - repeat split; vm_compute; reflexivity.
  - apply (C9_two_tool_calls_round_trip (codec := Json.codec)
             Scenario.two_calls Scenario.call_a Scenario.call_b);
      vm_compute; reflexivity.
Defined.

(** C10.  Without a client for the provider a request resolves to, the
    streaming operation ends at once, with no fragment, no failure and no
    network call, where the one-shot operation throws
    [... client not configured], also before any network call.  This holds
    for the per-provider operations ([streamOpenAI] against
    [completeOpenAI], [streamAnthropic] against [completeAnthropic]) and
    for [streamComplete] against [complete] on every model that the
    detector resolves to such a provider. *)
Theorem C10_unconfigured_stream_ends_where_complete_throws
  {World : Type} {net : Network World} {codec : JsonCodec}
  (getModel : string -> option ModelInfo) (self : t)
  (options : CompletionOptions World) (w : World) :
  (forall key,
      openaiClients self !! clientKey_name key = None ->
      streamOpenAI self options key w
      = ({| fragments := []; failure := None |}, w, [])
      /\ completeOpenAI self options key w
         = (Throw (String.append (clientKey_name key)
                     " client not configured"), w, []))
  /\ (anthropicClient self = None ->
      streamAnthropic self options w
      = ({| fragments := []; failure := None |}, w, [])
      /\ completeAnthropic self options w
         = (Throw "Anthropic client not configured", w, []))
  /\ (forall modelInfo,
         getModel (opt_model options) = Some modelInfo ->
         unconfigured self (mi_provider modelInfo) ->
         streamComplete getModel self options w
         = ({| fragments := []; failure := None |}, w, [])
         /\ exists who,
             complete getModel self options w
             = (Throw (String.append who " client not configured"), w, [])).
Proof.
  assert (Hopenai : forall key,
             openaiClients self !! clientKey_name key = None ->
             streamOpenAI self options key w
             = ({| fragments := []; failure := None |}, w, [])
             /\ completeOpenAI self options key w
                = (Throw (String.append (clientKey_name key)
                            " client not configured"), w, [])).
  { intros key Hnone. unfold streamOpenAI, completeOpenAI.
    rewrite Hnone. split; reflexivity. }
  assert (Hanthropic :
           anthropicClient self = None ->
           streamAnthropic self options w
           = ({| fragments := []; failure := None |}, w, [])
           /\ completeAnthropic self options w
              = (Throw "Anthropic client not configured", w, [])).
  { intros Hnone. unfold streamAnthropic, completeAnthropic.
    rewrite Hnone. split; reflexivity. }
  split; [exact Hopenai|]. split; [exact Hanthropic|].
  intros modelInfo Hmodel Hno.
  unfold streamComplete, complete. rewrite Hmodel.
  destruct (mi_provider modelInfo); simpl in Hno.
  - destruct (Hopenai key_openai Hno) as [-> ->]. split; [reflexivity|].
    by exists "openai".
  - destruct (Hanthropic Hno) as [-> ->]. split; [reflexivity|].
    by exists "Anthropic".
  - destruct (Hopenai key_lmstudio Hno) as [-> ->]. split; [reflexivity|].
    by exists "lmstudio".
  - destruct Hno.
Qed.

Lemma C10_unconfigured_stream_ends_where_complete_throws_witness :
  unconfigured new openai
  /\ streamComplete (net := Scenario.offline) (codec := Json.codec)
       (Scenario.detected "gpt-4o" openai) new (Scenario.ask "gpt-4o") tt
     = ({| fragments := []; failure := None |}, tt, [])
  /\ exists who,
      complete (net := Scenario.offline) (codec := Json.codec)
        (Scenario.detected "gpt-4o" openai) new (Scenario.ask "gpt-4o") tt
      = (Throw (String.append who " client not configured"), tt, []).
Proof.
  assert (Hno : unconfigured new openai) by reflexivity.
  split; [exact Hno|].
  destruct (C10_unconfigured_stream_ends_where_complete_throws
              (net := Scenario.offline) (codec := Json.codec)
              (Scenario.detected "gpt-4o" openai) new
              (Scenario.ask "gpt-4o") tt) as (_ & _ & Hpublic).
  exact (Hpublic
           {| mi_id := "gpt-4o"; mi_name := "gpt-4o"; mi_provider := openai;
              mi_isLocal := false;
              mi_capabilities := Scenario.default_capabilities;
               mi_isAvailable := true |}
           eq_refl Hno).
Defined.
End ProviderAdapterRuns.

(** ** Execution engine *)

Section MonadFacts.
Context {World : Type}.

Lemma bind_run {A B} (m : M World A) (k : A -> M World B) (w : World) :
  bind m k w
  = match outcome (m w) with
    | Ok a => prepend (trace (m w)) (k a (world_after (m w)))
    | Throw e => (Throw e, world_after (m w), trace (m w))
    end.
Proof.
  unfold bind, prepend, outcome, world_after, trace.
  destruct (m w) as [[[a|e] w1] t1]; simpl; [|reflexivity].
  destruct (k a w1) as [[r w2] t2]; reflexivity.
Qed.

Lemma bind_ok {A B} (m : M World A) (k : A -> M World B) w a w1 t1 :
  m w = (Ok a, w1, t1) -> bind m k w = prepend t1 (k a w1).
Proof. intros H. rewrite bind_run, H. reflexivity. Qed.

Lemma bind_throw {A B} (m : M World A) (k : A -> M World B) w e w1 t1 :
  m w = (Throw e, w1, t1) -> bind m k w = (Throw e, w1, t1).
Proof. intros H. rewrite bind_run, H. reflexivity. Qed.

Lemma prepend_prepend {A} (t1 t2 : list Event)
  (r : Result A * World * list Event) :
  prepend t1 (prepend t2 r) = prepend (t1 ++ t2) r.
Proof. unfold prepend. simpl. by rewrite app_assoc. Qed.

Lemma prepend_nil {A} (r : Result A * World * list Event) : prepend [] r = r.
Proof. by destruct r as [[o w] t]. Qed.

Lemma outcome_prepend {A} t (r : Result A * World * list Event) :
  outcome (prepend t r) = outcome r.
Proof. reflexivity. Qed.

Lemma trace_prepend {A} t (r : Result A * World * list Event) :
  trace (prepend t r) = t ++ trace r.
Proof. reflexivity. Qed.

Lemma world_after_prepend {A} t (r : Result A * World * list Event) :
  world_after (prepend t r) = world_after r.
Proof. reflexivity. Qed.
End MonadFacts.

Lemma completions_app (t1 t2 : list Event) :
  completions (t1 ++ t2) = completions t1 ++ completions t2.
Proof. unfold completions. apply List.filter_app. Qed.

Section EngineFacts.
Context {World : Type} {rt : Runtime World}.
Variable self : BaseAgent.t World.

(** [executeTool], case by case. *)
Lemma executeTool_run (toolCall : ToolCall) (w : World) :
  BaseAgent.executeTool self toolCall w
  = match map_get (tc_name toolCall) (BaseAgent.tools self) with
    | None =>
        (Ok (failure toolCall
               (String.append "Unknown tool: " (tc_name toolCall))), w, [])
    | Some tl =>
        match execute tl (tc_arguments toolCall) w with
        | (Returned result, w1) => (Ok result, w1, [])
        | (Raised (Thrown_error message), w1) =>
            (Ok (failure toolCall message), w1, [])
        | (Raised Thrown_value, w1) =>
            (Ok (failure_without_message toolCall), w1, [])
        | (Raised Thrown_null, w1) =>
            (Throw "Cannot read properties of null (reading 'message')",
             w1, [])
        | (Raised Thrown_undefined, w1) =>
            (Throw "Cannot read properties of undefined (reading 'message')",
             w1, [])
        end
    end.
Proof.
  unfold BaseAgent.executeTool.
  destruct (map_get (tc_name toolCall) (BaseAgent.tools self)) as [tl|];
    [|reflexivity].
  by destruct (execute tl (tc_arguments toolCall) w) as [[result|[]] w1].
Qed.

Lemma message_of_throws (thrown : Thrown) (e : string) :
  BaseAgent.message_of thrown = Throw e -> reads_message_of_nothing e.
Proof.
  destruct thrown; cbn; try discriminate; intros [= <-];
    [by left|by right].
Qed.

(** [executeTool] returns a result, or it throws because the tool raised a
    value off which no message can be read. *)
Lemma executeTool_settles (toolCall : ToolCall) (w : World) :
  (exists result w1,
      BaseAgent.executeTool self toolCall w = (Ok result, w1, []))
  \/ (exists e w1 tl thrown,
         BaseAgent.executeTool self toolCall w = (Throw e, w1, [])
         /\ map_get (tc_name toolCall) (BaseAgent.tools self) = Some tl
         /\ execute tl (tc_arguments toolCall) w = (Raised thrown, w1)
         /\ BaseAgent.message_of thrown = Throw e).
Proof.
  rewrite executeTool_run.
  destruct (map_get (tc_name toolCall) (BaseAgent.tools self)) as [tl|];
    [|left; by eexists _, _].
  destruct (execute tl (tc_arguments toolCall) w) as [[result|thrown] w1]
    eqn:Hrun; [left; by eexists _, _|].
  destruct thrown; try (left; by eexists _, _); right.
  - eexists _, w1, tl, Thrown_null. by repeat split.
  - eexists _, w1, tl, Thrown_undefined. by repeat split.
Qed.

Lemma fresh_id_run (w : World) :
  BaseAgent.fresh_id w = (Ok (fst (generateId w)), snd (generateId w), []).
Proof. unfold BaseAgent.fresh_id, call. by destruct (generateId w). Qed.

Lemma read_run {A} (f : World -> A) (w : World) :
  read f w = (Ok (f w), w, []).
Proof. reflexivity. Qed.

(** One turn of the dispatch loop for a call that [executeTool] returns
    for: two messages are pushed, and the loop goes on with the calls
    that remain. *)
Lemma dispatch_cons (response : CompletionResponse) (toolCall : ToolCall)
  (rest : list ToolCall) (messages : list Message) (w : World)
  (result : ToolResult) (w1 : World) :
  BaseAgent.executeTool self toolCall w = (Ok result, w1, []) ->
  BaseAgent.dispatch self response (toolCall :: rest) messages w
  = prepend [Emit_tool_call toolCall; Emit_tool_result result]
      (BaseAgent.dispatch self response rest
         (messages
          ++ [BaseAgent.assistant_message response toolCall
                (fst (generateId w1)) (now (snd (generateId w1)))]
          ++ [BaseAgent.tool_message result
                (fst (generateId (snd (generateId w1))))
                (now (snd (generateId (snd (generateId w1)))))])
         (snd (generateId (snd (generateId w1))))).
Proof.
  intros Hrun. cbn [BaseAgent.dispatch].
  rewrite (bind_ok _ _ _ tt w [Emit_tool_call toolCall]) by reflexivity.
  rewrite (bind_ok _ _ _ _ _ _ Hrun), prepend_nil.
  rewrite (bind_ok _ _ _ tt w1 [Emit_tool_result result]) by reflexivity.
  rewrite prepend_prepend.
  rewrite (bind_ok _ _ _ _ _ _ (fresh_id_run w1)), prepend_nil.
  rewrite (bind_ok _ _ _ _ _ _ (read_run now _)), prepend_nil.
  rewrite (bind_ok _ _ _ _ _ _ (fresh_id_run _)), prepend_nil.
  rewrite (bind_ok _ _ _ _ _ _ (read_run now _)), prepend_nil.
  reflexivity.
Qed.

(** One turn of the dispatch loop for a call at which [executeTool]
    throws: the call has been announced, and the loop is left. *)
Lemma dispatch_cons_throw (response : CompletionResponse)
  (toolCall : ToolCall) (rest : list ToolCall) (messages : list Message)
  (w : World) (e : string) (w1 : World) :
  BaseAgent.executeTool self toolCall w = (Throw e, w1, []) ->
  BaseAgent.dispatch self response (toolCall :: rest) messages w
  = (Throw e, w1, [Emit_tool_call toolCall]).
Proof.
  intros Hrun. cbn [BaseAgent.dispatch].
  rewrite (bind_ok _ _ _ tt w [Emit_tool_call toolCall]) by reflexivity.
  by rewrite (bind_throw _ _ _ _ _ _ Hrun).
Qed.

Lemma emitted_app (t1 t2 : list Event) :
  tool_calls_emitted (t1 ++ t2)
  = (tool_calls_emitted t1 + tool_calls_emitted t2)%nat
  /\ tool_results_emitted (t1 ++ t2)
     = (tool_results_emitted t1 + tool_results_emitted t2)%nat.
Proof.
  unfold tool_calls_emitted, tool_results_emitted.
  by rewrite !List.filter_app, !length_app.
Qed.

(** The dispatch loop asks for no completion.  Either every call gets the
    result of [executeTool] and its two messages, or the loop is cut short
    by a tool that raised a value without a readable message. *)
Lemma dispatch_runs (response : CompletionResponse) (calls : list ToolCall) :
  forall (messages : list Message) (w : World),
    let run := BaseAgent.dispatch self response calls messages w in
    completions (trace run) = []
    /\ ((exists results appended,
            outcome run = Ok (messages ++ appended)
            /\ Dispatched self calls w results (world_after run)
            /\ map shape appended = pushed response calls results
            /\ every_call_answered (trace run))
        \/ (exists e,
               outcome run = Throw e
               /\ Aborted self calls w e (world_after run)
               /\ tool_calls_emitted (trace run)
                  = S (tool_results_emitted (trace run)))).
Proof.
  induction calls as [|toolCall rest IH]; intros messages w; cbv zeta.
  - split; [reflexivity|]. left. exists [], [].
    cbn. rewrite app_nil_r. repeat split. constructor.
  - destruct (executeTool_settles toolCall w)
      as [(result & w1 & Hrun)|(e & w1 & tl & thrown & Hrun & Htl & Hraised & He)].
    + rewrite (dispatch_cons response toolCall rest messages w result w1 Hrun).
      match goal with
      | |- context [BaseAgent.dispatch self response rest ?ms ?w2] =>
          specialize (IH ms w2); cbv zeta in IH;
          set (run := BaseAgent.dispatch self response rest ms w2) in *
      end.
      destruct IH as [Hnone IH].
      rewrite trace_prepend, outcome_prepend, world_after_prepend.
      split; [by rewrite completions_app, Hnone|].
      unfold every_call_answered in *.
      destruct (emitted_app [Emit_tool_call toolCall; Emit_tool_result result]
                  (trace run)) as [-> ->].
      destruct IH as [(results & appended & Hout & Hall & Hshape & Hcount)
                     |(e & Hout & Habort & Hcount)].
      * left. exists (result :: results). eexists (_ :: _ :: appended).
        split; [by rewrite Hout, <- !app_assoc|].
        split; [by econstructor|].
        split; [cbn; by rewrite Hshape|].
        cbn. by rewrite Hcount.
      * right. exists e. split; [exact Hout|]. split; [|cbn; by rewrite Hcount].
        destruct Habort
          as (before & c & after & results & w0 & tl & thrown
              & -> & Hbefore & Htl & Hraised & He).
        exists (toolCall :: before), c, after, (result :: results), w0, tl,
          thrown.
        split; [reflexivity|]. split; [by econstructor|]. by repeat split.
    + rewrite (dispatch_cons_throw response toolCall rest messages w e w1 Hrun).
      split; [reflexivity|]. right. exists e.
      split; [reflexivity|]. split; [|reflexivity].
      exists [], toolCall, rest, [], w, tl, thrown.
      split; [reflexivity|]. split; [constructor|]. by repeat split.
Qed.

Lemma getCompletion_run (m : string) (messages : list Message) (w : World) :
  present (BaseAgent.modelId self) = Some m ->
  BaseAgent.getCompletion self messages w
  = (fst (complete (BaseAgent.completionOptions self m messages) w),
     snd (complete (BaseAgent.completionOptions self m messages) w),
     [Completion m messages
        (fst (complete (BaseAgent.completionOptions self m messages) w))]).
Proof.
  intros Hm. unfold BaseAgent.getCompletion, request. rewrite Hm.
  by destruct (complete _ w).
Qed.

(** An iteration whose completion carries tool calls runs them and enters
    the next iteration with the messages that the dispatch leaves. *)
Lemma loop_step (remaining iterations : nat) (task : Task)
  (messages : list Message) (w : World) (m : string)
  (answer : CompletionResponse) (w1 : World) (calls : list ToolCall) :
  present (BaseAgent.modelId self) = Some m ->
  complete (BaseAgent.completionOptions self m messages) w = (Ok answer, w1) ->
  ModelClient.nonempty (toolCalls answer) = Some calls ->
  BaseAgent.loop self (S remaining) iterations task messages w
  = prepend [Emit_thinking (S iterations); Completion m messages (Ok answer)]
      (bind (BaseAgent.dispatch self answer calls messages)
         (fun messages' =>
            BaseAgent.loop self remaining (S iterations) task messages') w1).
Proof.
  intros Hm Hanswer Hcalls. cbn [BaseAgent.loop].
  rewrite (bind_ok _ _ _ tt w [Emit_thinking (S iterations)]) by reflexivity.
  pose proof (getCompletion_run m messages w Hm) as Hget.
  rewrite Hanswer in Hget. simpl in Hget.
  rewrite (bind_ok _ _ _ _ _ _ Hget), prepend_prepend, Hcalls.
  reflexivity.
Qed.

(** The two ways on from a completion with tool calls. *)
Lemma loop_step_on (remaining iterations : nat) (task : Task)
  (messages : list Message) (w : World) (m : string)
  (answer : CompletionResponse) (w1 : World) (calls : list ToolCall) :
  present (BaseAgent.modelId self) = Some m ->
  complete (BaseAgent.completionOptions self m messages) w = (Ok answer, w1) ->
  ModelClient.nonempty (toolCalls answer) = Some calls ->
  let run := BaseAgent.dispatch self answer calls messages w1 in
  BaseAgent.loop self (S remaining) iterations task messages w
  = match outcome run with
    | Ok messages' =>
        prepend
          (Emit_thinking (S iterations)
           :: Completion m messages (Ok answer) :: trace run)
          (BaseAgent.loop self remaining (S iterations) task messages'
             (world_after run))
    | Throw e =>
        (Throw e, world_after run,
         Emit_thinking (S iterations)
         :: Completion m messages (Ok answer) :: trace run)
    end.
Proof.
  intros Hm Hanswer Hcalls. cbv zeta.
  rewrite (loop_step remaining iterations task messages w m answer w1 calls
             Hm Hanswer Hcalls).
  destruct (BaseAgent.dispatch self answer calls messages w1)
    as [[[messages'|e] w2] t] eqn:Hdispatch.
  - by rewrite (bind_ok _ _ _ _ _ _ Hdispatch), prepend_prepend.
  - by rewrite (bind_throw _ _ _ _ _ _ Hdispatch).
Qed.
End EngineFacts.

Section EngineBounds.
Context {World : Type} {rt : Runtime World}.
Variable self : BaseAgent.t World.

Lemma carries_tool_calls_nonempty (answer : CompletionResponse) :
  carries_tool_calls answer
  = match ModelClient.nonempty (toolCalls answer) with
    | Some _ => true
    | None => false
    end.
Proof.
  unfold carries_tool_calls, ModelClient.nonempty.
  by destruct (toolCalls answer) as [[|c cs]|].
Qed.


End EngineBounds.

Section EngineRuns.
Context {World : Type} {rt : Runtime World}.
Variable self : BaseAgent.t World.

Lemma buildMessages_run (task : Task) (w : World) :
  exists msgs,
    BaseAgent.buildMessages self task w
    = (Ok msgs, snd (generateId w), []).
Proof.
  unfold BaseAgent.buildMessages.
  rewrite (bind_ok _ _ _ _ _ _ (read_run now w)), prepend_nil.
  rewrite bind_run. unfold call at 1 2 3.
  destruct (generateId w) as [id w1].
  cbn [outcome trace world_after fst snd]. rewrite prepend_nil.
  rewrite (bind_ok _ _ _ _ _ _ (read_run now w1)), prepend_nil.
  eexists. reflexivity.
Qed.

(** [execute] is the loop, started with a full budget on the messages built
    for the task, with a thrown error turned into a failed result. *)
Lemma execute_run (task : Task) (w : World) :
  exists msgs,
    BaseAgent.buildMessages self task w = (Ok msgs, snd (generateId w), [])
    /\ BaseAgent.execute self task w
       = let run :=
           BaseAgent.loop self BaseAgent.maxIterations 0 task msgs
             (snd (generateId w)) in
         match outcome run with
         | Ok res =>
             (Ok (res, released self (now w)), world_after run,
              Emit_started task :: trace run)
         | Throw e =>
             (Ok ((caught e,
                   BaseAgent.with_result task failed (task_completedAt task)
                     (caught e)),
                  released self (now w)),
              world_after run,
              Emit_started task
              :: trace run
                 ++ [Emit_failed
                       (BaseAgent.with_result task failed
                          (task_completedAt task) (caught e)) e])
         end.
Proof.
  destruct (buildMessages_run task w) as [msgs Hbuild].
  exists msgs. split; [exact Hbuild|].
  unfold BaseAgent.execute.
  rewrite (bind_ok _ _ _ _ _ _ (read_run now w)), prepend_nil.
  rewrite (bind_ok _ _ _ tt w [Emit_started task]) by reflexivity.
  cbv zeta.
  destruct (BaseAgent.loop self BaseAgent.maxIterations 0 task msgs
              (snd (generateId w))) as [[[res|e] w1] t] eqn:Hloop.
  - rewrite bind_run. unfold try_catch.
    rewrite (bind_ok _ _ _ _ _ _ Hbuild), prepend_nil, Hloop.
    unfold prepend, ret, released. cbn. by rewrite app_nil_r.
  - rewrite bind_run. unfold try_catch.
    rewrite (bind_ok _ _ _ _ _ _ Hbuild), prepend_nil, Hloop.
    unfold prepend, ret, released. cbn. by rewrite app_nil_r.
Qed.

(** The notifications that [execute] puts around the loop are no tool
    events. *)
Lemma answered_started (task : Task) (t : list Event) :
  every_call_answered (Emit_started task :: t) <-> every_call_answered t.
Proof. reflexivity. Qed.

Lemma answered_failed (task : Task) (e : string) (t : list Event) :
  every_call_answered (t ++ [Emit_failed task e]) <-> every_call_answered t.
Proof.
  unfold every_call_answered.
  destruct (emitted_app t [Emit_failed task e]) as [-> ->]. cbn. lia.
Qed.

End EngineRuns.

Section EngineClaims.
Context {World : Type} {rt : Runtime World}.
Variable self : BaseAgent.t World.





End EngineClaims.

Section EngineScenarios.



(** A model that asks for a tool that rejects with [null]: the call
    before it gets its two messages, the call itself gets none, and the
    loop ends with the [TypeError]. *)
Lemma C2_tool_that_rejects_with_null_ends_the_loop :
  let run :=
    BaseAgent.dispatch (rt := Scenario.reckless) Scenario.agent
      (Scenario.wants_tools
         [Scenario.call_a; Scenario.call_void; Scenario.call_b])
      [Scenario.call_a; Scenario.call_void; Scenario.call_b] [] 0%nat in
  outcome run = Throw "Cannot read properties of null (reading 'message')"
  /\ trace run
     = [Emit_tool_call Scenario.call_a;
        Emit_tool_result
          {| toolCallId := "generated"; success := true;
             output := Some "[Mock] Listed PRs"; error := None |};
        Emit_tool_call Scenario.call_void]
  /\ outcome
       (BaseAgent.execute (rt := Scenario.reckless) Scenario.agent
          Scenario.review_task 0%nat)
     = Ok (caught "Cannot read properties of null (reading 'message')",
           BaseAgent.with_result Scenario.review_task failed None
             (caught "Cannot read properties of null (reading 'message')"),
           released Scenario.agent 0)
  /\ length
       (completions
          (trace
             (BaseAgent.execute (rt := Scenario.reckless) Scenario.agent
                Scenario.review_task 0%nat))) = 1%nat.
Proof. cbv zeta. repeat split; vm_compute; reflexivity. Qed.




(** A tool that rejects with [null] is not contained, and one that throws
    a text is contained without an error. *)
Lemma C4_tools_that_raise_no_error :
  BaseAgent.executeTool Scenario.agent Scenario.call_void 0%nat
  = (Throw "Cannot read properties of null (reading 'message')", 0%nat, [])
  /\ BaseAgent.executeTool Scenario.agent Scenario.call_blurt 0%nat
     = (Ok (failure_without_message Scenario.call_blurt), 0%nat, []).
Proof. split; reflexivity. Qed.

End EngineScenarios.

(** ** Classifier *)

(** *** Tags *)

Section TagFacts.
Import Utils.

Lemma span_until_rest (stop : ascii) (s : string) :
  (String.length (snd (span_until stop s)) <= String.length s)%nat.
Proof.
  induction s as [|c s IH]; [reflexivity|].
  cbn [span_until]. destruct (Ascii.eqb c stop); [reflexivity|].
  destruct (span_until stop s) as [run after]. cbn [snd String.length] in *.
  lia.
Qed.

Lemma match_tag_at_rest (s group after : string) :
  match_tag_at s = Some (group, after) ->
  (String.length after < String.length s)%nat.
Proof.
  destruct s as [|c rest]; [discriminate|].
  unfold match_tag_at.
  destruct (Ascii.eqb_spec c "[") as [->|Hc].
  - pose proof (span_until_rest "]" rest) as Hlen.
    destruct (span_until "]" rest) as [[|x run] [|y after']];
      try discriminate.
    intros [= _ <-]. cbn [snd String.length] in *. lia.
  - destruct c as [[] [] [] [] [] [] [] []]; try discriminate.
    by contradiction Hc.
Qed.

(** The fuel that [extractTags] gives its scan is enough: any fuel that
    covers the length of the text gives the same groups and the same
    remaining text. *)
Lemma scan_tags_fuel (n : nat) :
  forall s fuel fuel',
    (String.length s <= n)%nat ->
    (String.length s <= fuel)%nat ->
    (String.length s <= fuel')%nat ->
    scan_tags fuel s = scan_tags fuel' s.
Proof.
  induction n as [|n IH]; intros s fuel fuel' Hn Hfuel Hfuel'.
  - destruct s; [|cbn in Hn; lia]. by destruct fuel, fuel'.
  - destruct s as [|c rest]; [by destruct fuel, fuel'|].
    cbn [String.length] in *.
    destruct fuel as [|fuel]; [lia|]. destruct fuel' as [|fuel']; [lia|].
    cbn [scan_tags].
    destruct (match_tag_at (String c rest)) as [[group after]|] eqn:Hmatch.
    + apply match_tag_at_rest in Hmatch. cbn [String.length] in Hmatch.
      by rewrite (IH after fuel fuel') by lia.
    + by rewrite (IH rest fuel fuel') by lia.
Qed.

(** More fuel than [extractTags] gives changes nothing. *)
Lemma scan_tags_exhausts (s : string) (extra : nat) :
  scan_tags (S (String.length s) + extra) s
  = scan_tags (S (String.length s)) s.
Proof. apply (scan_tags_fuel (String.length s)); lia. Qed.

Lemma lower_char_bracket (c : ascii) :
  Ascii.eqb (lower_char c) "]" = Ascii.eqb c "]".
Proof. destruct c as [[] [] [] [] [] [] [] []]; reflexivity. Qed.

Lemma contains_toLowerCase (s : string) :
  contains "]" (toLowerCase s) = contains "]" s.
Proof.
  induction s as [|c s IH]; [reflexivity|].
  cbn [toLowerCase contains]. by rewrite lower_char_bracket, IH.
Qed.

Lemma match_tag_at_other (c : ascii) (r : string) :
  c <> "["%char -> match_tag_at (String c r) = None.
Proof.
  intros Hc. unfold match_tag_at.
  destruct c as [[] [] [] [] [] [] [] []]; try reflexivity.
  by contradiction Hc.
Qed.








End TagFacts.

(** *** Heuristic stage *)

Section HeuristicFacts.
Import Samantha.
Import PrimFloat.

Lemma score_from (indicators : list string) (lowerInput : string) :
  forall n,
    fold_left
      (fun n indicator => if includes indicator lowerInput then S n else n)
      indicators n
    = (n + length (List.filter (fun indicator =>
                                  includes indicator lowerInput)
                     indicators))%nat.
Proof.
  induction indicators as [|k rest IH]; intros n; simpl.
  - lia.
  - rewrite IH. destruct (includes k lowerInput); simpl; lia.
Qed.

Lemma score_matches (indicators : list string) (input : string) :
  score indicators (Utils.toLowerCase input) = matches indicators input.
Proof. unfold score, matches. by rewrite score_from. Qed.

Lemma heuristicClassify_scores (input : string) :
  type (intent (heuristicClassify input))
  = code_type (score workIndicators (Utils.toLowerCase input))
      (score personalIndicators (Utils.toLowerCase input))
  /\ confidence (intent (heuristicClassify input))
     = code_confidence (score workIndicators (Utils.toLowerCase input))
         (score personalIndicators (Utils.toLowerCase input)).
Proof.
  split;
    lazy delta [heuristicClassify code_type code_confidence type confidence
                  intent] beta iota zeta;
    reflexivity.
Qed.

Lemma matches_bound (indicators : list string) (input : string) :
  (matches indicators input <= length indicators)%nat.
Proof. unfold matches. apply List.filter_length_le. Qed.

(** The checks of [confidence_checked] pass for every pair of counts that
    the two lists of indicators allow. *)
Lemma confidence_table (w p : nat) :
  (w <= length workIndicators)%nat ->
  (p <= length personalIndicators)%nat ->
  confidence_checked w p = true.
Proof.
  intros Hw Hp.
  assert (Hall :
            forallb (fun w => forallb (confidence_checked w) (seq 0 20))
              (seq 0 28) = true) by (vm_compute; reflexivity).
  rewrite forallb_forall in Hall.
  assert (Hrow : forallb (confidence_checked w) (seq 0 20) = true).
  { apply Hall, in_seq. cbn in Hw. lia. }
  rewrite forallb_forall in Hrow. apply Hrow, in_seq. cbn in Hp. lia.
Qed.

(** The intent of the heuristic stage by the two counts: the type, the
    confidence as the doubles give it, what the test of [classifyTask]
    makes of it, and how near it is to the value of the formula. *)
Lemma heuristicClassify_intent (input : string) :
  let w := matches workIndicators input in
  let p := matches personalIndicators input in
  let c := confidence (intent (heuristicClassify input)) in
  type (intent (heuristicClassify input)) = code_type w p
  /\ c = code_confidence w p
  /\ (PrimFloat.ltb 0.8 c = true <-> sure w p)
  /\ PrimFloat.leb c 0.8 = negb (PrimFloat.ltb 0.8 c)
  /\ exists value,
      value_of c = Some value
      /\ (Qabs (value - heuristic_confidence w p) <= rounding)%Q.
Proof.
  cbv zeta. destruct (heuristicClassify_scores input) as [-> ->].
  rewrite !score_matches.
  pose proof (confidence_table _ _ (matches_bound workIndicators input)
                (matches_bound personalIndicators input)) as Hchecked.
  revert Hchecked.
  generalize (matches workIndicators input)
    (matches personalIndicators input).
  intros w p Hchecked. unfold confidence_checked in Hchecked.
  apply andb_prop in Hchecked as [Hchecked Hnear].
  apply andb_prop in Hchecked as [Htest Hle].
  apply Bool.eqb_prop in Htest, Hle.
  split; [reflexivity|]. split; [reflexivity|]. split; [|split].
  - rewrite Htest. unfold sure. apply Z.ltb_lt.
  - exact Hle.
  - destruct (value_of (code_confidence w p)) as [value|]; [|discriminate].
    exists value. split; [reflexivity|]. by apply Qle_bool_iff.
Qed.

(** C8 (as the code has it).  The heuristic stage counts the work
    indicators and the personal indicators that occur in the lower-cased
    input.  The type is [work] exactly when the work count is strictly
    larger, [personal] exactly when the personal count is strictly larger,
    and [unclear] exactly on a tie.  The confidence is the double that
    min(0.9, 0.5 + (|w - p| / max(w + p, 1)) * 0.4) gives when every
    operation is rounded, in this order; it is the value of the formula
    min(0.9, 0.5 + 0.4 * |w - p| / max(w + p, 1)) up to 2 parts in 10^16,
    and not always the double nearest to it.  With three work matches and
    no personal match it is the double 0.9, and the type is [work]. *)
Theorem C8_heuristic_type_and_confidence (input : string) :
  let w := matches workIndicators input in
  let p := matches personalIndicators input in
  let i := intent (heuristicClassify input) in
  (type i = known work <-> (p < w)%nat)
  /\ (type i = known personal <-> (w < p)%nat)
  /\ (type i = unclear <-> w = p)
  /\ confidence i
     = Math_min 0.9
         (0.5
          + PrimFloat.abs (number w - number p)
            / Math_max (number w + number p) 1
            * 0.4)%float
  /\ (exists value,
         value_of (confidence i) = Some value
         /\ (Qabs
               (value
                - Qmin (9 # 10)
                    ((5 # 10)
                     + (4 # 10) * inject_Z (Z.abs (Z.of_nat w - Z.of_nat p))
                       / inject_Z (Z.max (Z.of_nat w + Z.of_nat p) 1)))
             <= 1 # 5000000000000000)%Q)
  /\ (w = 3%nat -> p = 0%nat ->
      type i = known work /\ confidence i = 0.9%float).
Proof.
  cbv zeta.
  destruct (heuristicClassify_intent input)
    as (Htype & Hconf & _ & _ & Hnear).
  cbv zeta in *. revert Htype Hconf Hnear.
  generalize (matches workIndicators input)
    (matches personalIndicators input).
  intros w p Htype Hconf Hnear. rewrite Htype. unfold code_type.
  split; [|split; [|split; [|split; [|split]]]].
  - destruct (Nat.ltb_spec p w) as [H|H]; [by split|].
    destruct (Nat.ltb_spec w p); split; try discriminate; lia.
  - destruct (Nat.ltb_spec p w) as [H|H]; [split; [discriminate|lia]|].
    destruct (Nat.ltb_spec w p); split; try discriminate; try lia; done.
  - destruct (Nat.ltb_spec p w) as [H|H]; [split; [discriminate|lia]|].
    destruct (Nat.ltb_spec w p); split; try discriminate; try lia; done.
  - exact Hconf.
  - exact Hnear.
  - intros Hw Hp. rewrite Hconf, Hw, Hp. split; reflexivity.
Qed.

Lemma C8_heuristic_type_and_confidence_witness :
  matches workIndicators "merge the bug fix for the api" = 3%nat
  /\ matches personalIndicators "merge the bug fix for the api" = 0%nat
  /\ type (intent (heuristicClassify "merge the bug fix for the api"))
     = known work
  /\ confidence (intent (heuristicClassify "merge the bug fix for the api"))
     = 0.9%float.
Proof.
  assert (Hw : matches workIndicators "merge the bug fix for the api" = 3%nat)
    by (vm_compute; reflexivity).
  assert (Hp : matches personalIndicators "merge the bug fix for the api"
               = 0%nat) by (vm_compute; reflexivity).
  split; [exact Hw|]. split; [exact Hp|].
  destruct (C8_heuristic_type_and_confidence "merge the bug fix for the api")
    as (_ & _ & _ & _ & _ & Hthree).
  exact (Hthree Hw Hp).
Defined.

(** Three work matches and two personal ones: the formula gives 0.58, and
    the code gives the next double above the double of 0.58. *)
Lemma C8_three_work_and_two_personal_matches :
  let input := "merge the bug fix for the api at home with family" in
  let c := confidence (intent (heuristicClassify input)) in
  matches workIndicators input = 3%nat
  /\ matches personalIndicators input = 2%nat
  /\ (Qmin (9 # 10) ((5 # 10) + (4 # 10) * inject_Z 1 / inject_Z 5)
      == 58 # 100)%Q
  /\ c = 0.5800000000000001%float
  /\ PrimFloat.eqb c 0.58 = false
  /\ PrimFloat.ltb 0.58 c = true
  /\ value_of c = Some (5224175567749776 # 9007199254740992)%Q
  /\ ~ (5224175567749776 # 9007199254740992 == 58 # 100)%Q.
Proof.
  cbv zeta. repeat split; try (vm_compute; reflexivity).
  vm_compute. discriminate.
Qed.
End HeuristicFacts.

Section ClassifierFacts.
Import Samantha.
Import PrimFloat.
Context {World : Type} {rt : Runtime World} {codec : JsonCodec}.
Variable SAMANTHA_SYSTEM_PROMPT : string.
Variable classificationPrompt : string -> string.
Variable modelId : option string.

Lemma request_run (m : string) (msgs : list Message)
  (f : World -> Result CompletionResponse * World) (w : World) :
  request m msgs f w = (fst (f w), snd (f w), [Completion m msgs (fst (f w))]).
Proof. unfold request. by destruct (f w). Qed.

Lemma classifyTask_explicit (input : string) (t : AgentType) (w : World) :
  classifyTask SAMANTHA_SYSTEM_PROMPT classificationPrompt modelId input
    (Some t) w
  = (Ok (Built (quickClassify input t)), w, []).
Proof. reflexivity. Qed.

(** [classifyTask] without an explicit type, stage by stage. *)
Lemma classifyTask_stages (input : string) (w : World) :
  classifyTask SAMANTHA_SYSTEM_PROMPT classificationPrompt modelId input
    None w
  = if PrimFloat.ltb 0.8 (confidence (intent (heuristicClassify input)))
    then (Ok (Built (heuristicClassify input)), w, [])
    else
      match present modelId with
      | None => (Ok (Built (heuristicClassify input)), w, [])
      | Some m =>
          model_stage (heuristicClassify input) m
            (classificationMessages SAMANTHA_SYSTEM_PROMPT
               classificationPrompt input (now w))
            (complete
               (classificationOptions m
                  (classificationMessages SAMANTHA_SYSTEM_PROMPT
                     classificationPrompt input (now w))) w)
      end.
Proof.
  unfold classifyTask.
  generalize (heuristicClassify input). intros h.
  destruct (PrimFloat.ltb 0.8 (confidence (intent h))); [reflexivity|].
  destruct (present modelId) as [m|]; [|reflexivity].
  rewrite bind_run.
  match goal with
  | |- context [try_catch ?b ?h] => set (body := b); set (handler := h)
  end.
  set (msgs := classificationMessages SAMANTHA_SYSTEM_PROMPT
                 classificationPrompt input (now w)).
  assert (Hbody :
            body w
            = match complete
                      (classificationOptions m
                         msgs) w with
              | (Throw e, w1) =>
                  (Throw e, w1,
                   [Completion m msgs
                      (Throw e)])
              | (Ok answer, w1) =>
                  match jsonMatch (content answer) with
                  | None =>
                      (Ok None, w1,
                       [Completion m msgs
                          (Ok answer)])
                  | Some text =>
                      match JSON_parse text with
                      | Ok value =>
                          (Ok (Some (Parsed value)), w1,
                           [Completion m msgs
                              (Ok answer)])
                      | Throw e =>
                          (Throw e, w1,
                           [Completion m msgs
                              (Ok answer)])
                      end
                  end
              end).
  { subst body msgs.
    rewrite (bind_ok _ _ _ _ _ _ (read_run now w)), prepend_nil.
    rewrite (bind_ok _ _ _ _ _ _ (read_run now w)), prepend_nil.
    set (msgs := classificationMessages SAMANTHA_SYSTEM_PROMPT
                   classificationPrompt input (now w)).
    fold (classificationOptions (World := World) m msgs).
    rewrite bind_run, request_run.
    destruct (complete _ w) as [[answer|e] w1];
      cbn [outcome trace world_after fst snd]; [|reflexivity].
    destruct (jsonMatch (content answer)) as [text|]; [|reflexivity].
    rewrite bind_run. unfold ModelClient.lift.
    destruct (JSON_parse text) as [value|e]; reflexivity. }
  unfold try_catch. rewrite Hbody. unfold model_stage.
  destruct (complete _ w) as [[answer|e] w1]; [|reflexivity].
  destruct (jsonMatch (content answer)) as [text|]; [|reflexivity].
  destruct (JSON_parse text) as [value|e]; reflexivity.
Qed.

(** C5.  [classifyTask] never throws.  Without an explicit type (the
    stages behind the tag check): when no model is configured, when the
    model's answer holds nothing that parses as JSON, and also when the
    completion itself throws, the classification returned is the result of
    the heuristic stage for that input. *)
Theorem C5_classification_falls_back_on_the_heuristic
  (input : string) (w : World) :
  let run :=
    classifyTask SAMANTHA_SYSTEM_PROMPT classificationPrompt modelId input
      None w in
  (forall explicitType,
      exists classification w' t,
        classifyTask SAMANTHA_SYSTEM_PROMPT classificationPrompt modelId
          input explicitType w
        = (Ok classification, w', t))
  /\ (present modelId = None ->
      run = (Ok (Built (heuristicClassify input)), w, []))
  /\ (forall m msgs answer,
         In (Completion m msgs (Ok answer)) (trace run) ->
         unparseable (content answer) ->
         outcome run = Ok (Built (heuristicClassify input)))
  /\ (forall m msgs e,
         In (Completion m msgs (Throw e)) (trace run) ->
         outcome run = Ok (Built (heuristicClassify input))).
Proof.
  cbv zeta. rewrite classifyTask_stages.
  generalize (heuristicClassify input). intros h.
  split; [|split; [|split]].
  - intros [t|].
    + rewrite classifyTask_explicit. by eexists _, _, _.
    + rewrite classifyTask_stages.
      destruct (PrimFloat.ltb _ _); [by eexists _, _, _|].
      destruct (present modelId) as [m|]; [|by eexists _, _, _].
      unfold model_stage.
      destruct (complete _ w) as [[answer|e] w1]; [|by eexists _, _, _].
      destruct (jsonMatch (content answer)) as [text|]; [|by eexists _, _, _].
      destruct (JSON_parse text); by eexists _, _, _.
  - intros Hnone. rewrite Hnone. by destruct (PrimFloat.ltb _ _).
  - intros m' msgs answer' Hin Hbad.
    destruct (PrimFloat.ltb _ _); [reflexivity|].
    destruct (present modelId) as [m|]; [|reflexivity].
    unfold model_stage in *.
    destruct (complete _ w) as [[answer|e] w1]; [|reflexivity].
    unfold unparseable in Hbad.
    destruct (jsonMatch (content answer)) as [text|] eqn:Hmatch;
      [|reflexivity].
    destruct (JSON_parse text) as [value|e] eqn:Hparse; [|reflexivity].
    exfalso. destruct Hin as [Hin|[]].
    injection Hin as _ _ <-. rewrite Hmatch in Hbad.
    destruct Hbad as [e He]. rewrite Hparse in He. discriminate.
  - intros m' msgs e' Hin.
    destruct (PrimFloat.ltb _ _); [reflexivity|].
    destruct (present modelId) as [m|]; [|reflexivity].
    unfold model_stage in *.
    destruct (complete _ w) as [[answer|e] w1]; [|reflexivity].
    destruct (jsonMatch (content answer)) as [text|]; [|reflexivity].
    destruct (JSON_parse text) as [value|e]; [|reflexivity].
    exfalso. destruct Hin as [Hin|[]]. discriminate.
Qed.


(** *** Extraction of the JSON object *)

Lemma from_first_skips (c : ascii) (before rest : string) :
  contains c before = false ->
  from_first c (String.append before (String c rest)) = Some (String c rest).
Proof.
  induction before as [|a before IH]; simpl.
  - intros _. by rewrite Ascii.eqb_refl.
  - intros H. apply orb_false_elim in H as [-> H]. by apply IH.
Qed.

Lemma through_last_none (c : ascii) (after : string) :
  contains c after = false -> through_last c after = None.
Proof.
  induction after as [|a after IH]; simpl; [done|].
  intros H. apply orb_false_elim in H as [-> H]. by rewrite IH.
Qed.

Lemma through_last_stops (c : ascii) (kept after : string) :
  contains c after = false ->
  through_last c (String.append kept (String c after))
  = Some (String.append kept (String c EmptyString)).
Proof.
  intros H. induction kept as [|a kept IH]; simpl.
  - by rewrite (through_last_none c after H), Ascii.eqb_refl.
  - by rewrite IH.
Qed.

(** C6 (as the code has it).  The classifier takes the span from the first
    opening brace of the answer to its last closing brace.  When the answer
    is an object-shaped span between prose, the prose before it holds no
    opening brace and the prose after it holds no closing brace, the span
    taken is exactly that object, and when [JSON.parse] accepts it the
    classification returned is the parsed value. *)
Theorem C6_object_between_plain_prose (before body after : string) :
  contains "{" before = false ->
  contains "}" after = false ->
  let object := String "{" (String.append body "}") in
  let text := String.append before (String.append object after) in
  jsonMatch text = Some object
  /\ forall input w m answer w1 value,
      present modelId = Some m ->
      PrimFloat.leb (confidence (intent (heuristicClassify input))) 0.8
      = true ->
      complete
        (classificationOptions m
           (classificationMessages SAMANTHA_SYSTEM_PROMPT
              classificationPrompt input (now w))) w
      = (Ok answer, w1) ->
      content answer = text ->
      JSON_parse object = Ok value ->
      outcome
        (classifyTask SAMANTHA_SYSTEM_PROMPT classificationPrompt modelId
           input None w)
      = Ok (Parsed value).
Proof.
  intros Hbefore Hafter object text.
  assert (Hmatch : jsonMatch text = Some object).
  { unfold jsonMatch, text, object.
    change (String.append (String "{" (String.append body "}")) after)
      with (String "{" (String.append (String.append body "}") after)).
    rewrite (from_first_skips "{" before _ Hbefore).
    rewrite (append_assoc body "}" after).
    change (String "{" (String.append body (String.append "}" after)))
      with (String.append (String "{" body) (String "}" after)).
    rewrite (through_last_stops "}" (String "{" body) after Hafter).
    reflexivity. }
  split; [exact Hmatch|].
  intros input w m answer w1 value Hm Hlow Hanswer Htext Hparse.
  rewrite classifyTask_stages.
  destruct (heuristicClassify_intent input) as (_ & _ & _ & Hle & _).
  cbv zeta in Hle. rewrite Hlow in Hle.
  destruct (PrimFloat.ltb 0.8 (confidence (intent (heuristicClassify input))));
    [discriminate|].
  rewrite Hm, Hanswer. unfold model_stage.
  rewrite Htext, Hmatch, Hparse. reflexivity.
Qed.
End ClassifierFacts.

Section ClassifierScenarios.
Import Samantha.
Import PrimFloat.

(** An answer whose prose has a closing brace after the object: the span
    taken runs to that brace, is not the first balanced object, does not
    parse, and the classification falls back on the heuristic, although the
    object itself parses. *)
Lemma C6_closing_brace_in_trailing_prose :
  let text := "Here you go: {} (an empty object, written } at the end)" in
  first_balanced_object text = Some "{}"
  /\ jsonMatch text = Some "{} (an empty object, written }"
  /\ jsonMatch text <> first_balanced_object text
  /\ Json.parse "{}" = Ok (JObject [])
  /\ outcome
       (classifyTask (rt := Scenario.trailing_brace) (codec := Json.codec)
          Scenario.system_prompt Scenario.classification_prompt
          (Some "openai:gpt-4o") Scenario.mixed_request None 0%nat)
     = Ok (Built (heuristicClassify Scenario.mixed_request)).
Proof.
  cbv zeta. repeat split; try (vm_compute; reflexivity).
  vm_compute. discriminate.
Qed.

Lemma C6_object_between_plain_prose_witness :
  (contains "{" "Here you go: " = false
   /\ contains "}" " as asked." = false)
  /\ jsonMatch "Here you go: {} as asked." = Some "{}"
  /\ outcome
       (classifyTask (rt := Scenario.tidy) (codec := Json.codec)
          Scenario.system_prompt Scenario.classification_prompt
          (Some "openai:gpt-4o") Scenario.mixed_request None 0%nat)
     = Ok (Parsed (JObject [])).
Proof.
  split; [by split|].
  destruct (C6_object_between_plain_prose (rt := Scenario.tidy)
              (codec := Json.codec) Scenario.system_prompt
              Scenario.classification_prompt (Some "openai:gpt-4o")
              "Here you go: " EmptyString " as asked." eq_refl eq_refl)
    as [Hmatch Hparsed].
  split; [exact Hmatch|].
  apply (Hparsed Scenario.mixed_request 0%nat "openai:gpt-4o"
           (Scenario.says "Here you go: {} as asked.") 0%nat (JObject []));
    reflexivity.
Defined.

Lemma C5_classification_falls_back_on_the_heuristic_witness :
  let run :=
    classifyTask (rt := Scenario.chatty) (codec := Json.codec)
      Scenario.system_prompt Scenario.classification_prompt
      (Some "openai:gpt-4o") Scenario.mixed_request None 0%nat in
  confidence (intent (heuristicClassify Scenario.mixed_request)) = 0.6%float
  /\ In (Completion "openai:gpt-4o"
           (classificationMessages Scenario.system_prompt
              Scenario.classification_prompt Scenario.mixed_request 0)
           (Ok (Scenario.says "I would call this one personal.")))
        (trace run)
  /\ unparseable (codec := Json.codec) "I would call this one personal."
  /\ outcome run = Ok (Built (heuristicClassify Scenario.mixed_request)).
Proof.
  cbv zeta.
  assert (Hin :
            In (Completion "openai:gpt-4o"
                  (classificationMessages Scenario.system_prompt
                     Scenario.classification_prompt Scenario.mixed_request 0)
                  (Ok (Scenario.says "I would call this one personal.")))
               (trace
                  (classifyTask (rt := Scenario.chatty) (codec := Json.codec)
                     Scenario.system_prompt Scenario.classification_prompt
                     (Some "openai:gpt-4o") Scenario.mixed_request None
                     0%nat))).
  { vm_compute. left. reflexivity. }
  assert (Hbad : unparseable (codec := Json.codec)
                   "I would call this one personal.") by exact I.
  split; [vm_compute; reflexivity|]. split; [exact Hin|].
  split; [exact Hbad|].
  destruct (C5_classification_falls_back_on_the_heuristic
              (rt := Scenario.chatty) (codec := Json.codec)
              Scenario.system_prompt Scenario.classification_prompt
              (Some "openai:gpt-4o") Scenario.mixed_request 0%nat)
    as (_ & _ & Hfallback & _).
  exact (Hfallback _ _ _ Hin Hbad).
Defined.


End ClassifierScenarios.

(** * Further properties *)

(** ** Utilities (src/utils/index.ts) *)

Section TruncateFacts.
Import Utils.

Lemma substring_length (n : nat) (s : string) :
  String.length (String.substring 0 n s) = Nat.min n (String.length s).
Proof.
  revert n. induction s as [|c s IH]; intros [|n]; try reflexivity.
  cbn [String.substring String.length]. by rewrite IH.
Qed.

Lemma substring_prefix (n : nat) (s : string) :
  String.prefix (String.substring 0 n s) s = true.
Proof.
  revert n. induction s as [|c s IH]; intros [|n]; try reflexivity.
  cbn [String.substring String.prefix].
  destruct (ascii_dec c c) as [_|Hc]; [apply IH|done].
Qed.

(** X1.  [truncate] returns a short text as it is. A longer text comes
    back with exactly [maxLength] characters, a prefix of the text
    followed by the suffix, provided that the suffix fits in [maxLength];
    when the suffix is longer than [maxLength], the result is longer than
    [maxLength]. *)
Theorem X1_truncate_length (text : string) (maxLength : Z) (suffix : string) :
  let result := truncate text maxLength suffix in
  let len (s : string) := Z.of_nat (String.length s) in
  ((len text <= maxLength)%Z -> result = text)
  /\ ((maxLength < len text)%Z ->
      exists kept,
        result = String.append kept suffix
        /\ String.prefix kept text = true
        /\ ((len suffix <= maxLength)%Z -> len result = maxLength)
        /\ ((maxLength < len suffix)%Z -> (maxLength < len result)%Z)).
Proof.
  cbv zeta. unfold truncate. split.
  - intros Hshort. by rewrite (proj2 (Z.leb_le _ _) Hshort).
  - intros Hlong. rewrite (proj2 (Z.leb_gt _ _) Hlong).
    eexists. split; [reflexivity|]. unfold slice_to.
    split; [apply substring_prefix|].
    rewrite length_append, substring_length.
    destruct (Z.ltb_spec (maxLength - Z.of_nat (String.length suffix)) 0);
      split; intros Hsuffix; lia.
Qed.

End TruncateFacts.

Section RelativeTimeFacts.
Import Utils.

(** X2.  [formatRelativeTime] by the age [current - date] in milliseconds:
    anything younger than a minute, a date in the future included, is
    [just now]; from then on the age is given in whole minutes up to an
    hour, in whole hours up to a day, and in whole days beyond. *)
Theorem X2_formatRelativeTime_ranges (current date : Z) :
  let age := (current - date)%Z in
  ((age < 60000)%Z -> formatRelativeTime current date = "just now")
  /\ ((60000 <= age < 3600000)%Z ->
      formatRelativeTime current date
      = String.append (string_of_Z (age / 60000)) "m ago")
  /\ ((3600000 <= age < 86400000)%Z ->
      formatRelativeTime current date
      = String.append (string_of_Z (age / 3600000)) "h ago")
  /\ ((86400000 <= age)%Z ->
      formatRelativeTime current date
      = String.append (string_of_Z (age / 86400000)) "d ago").
Proof.
  cbv zeta. unfold formatRelativeTime.
  set (age := (current - date)%Z).
  rewrite !Z.div_div by lia.
  change (1000 * 60)%Z with 60000%Z.
  change (1000 * (60 * 60))%Z with 3600000%Z.
  change (1000 * (60 * (60 * 24)))%Z with 86400000%Z.
  pose proof (Z.div_mod age 60000 ltac:(lia)) as Hm.
  pose proof (Z.mod_pos_bound age 60000 ltac:(lia)) as Hm'.
  pose proof (Z.div_mod age 3600000 ltac:(lia)) as Hh.
  pose proof (Z.mod_pos_bound age 3600000 ltac:(lia)) as Hh'.
  pose proof (Z.div_mod age 86400000 ltac:(lia)) as Hd.
  pose proof (Z.mod_pos_bound age 86400000 ltac:(lia)) as Hd'.
  repeat split; intros Hage;
    destruct (Z.ltb_spec 0 (age / 86400000));
    destruct (Z.ltb_spec 0 (age / 3600000));
    destruct (Z.ltb_spec 0 (age / 60000));
    try reflexivity; lia.
Qed.

End RelativeTimeFacts.

Section RetryFacts.
Import Utils.
Context {World A : Type}.
Variable fn : World -> Result A * World.
Variable sleep : Z -> World -> World.

Lemma retry_from_steps (maxRetries : nat) (baseDelay maxDelay : Z)
  (remaining : nat) :
  forall (attempt : nat) (lastError : Thrown) (w : World),
    (remaining + attempt = maxRetries)%nat ->
    (0 < remaining)%nat ->
    let run :=
      retry_from fn sleep maxRetries baseDelay maxDelay remaining attempt
        lastError w in
    let steps := snd run in
    (1 <= attempts steps <= remaining)%nat
    /\ sleeps steps
       = map (backoff baseDelay maxDelay) (seq attempt (attempts steps - 1))
    /\ last steps = Some Attempt
    /\ match fst (fst run) with
       | inl _ => True
       | inr e =>
           attempts steps = remaining
           /\ exists message, e = Thrown_error message
       end.
Proof.
  induction remaining as [|remaining IH]; intros attempt lastError w Hsum Hpos;
    [lia|].
  cbv zeta. cbn [retry_from].
  destruct (fn w) as [[a|e] w1].
  - cbn. repeat split; lia.
  - destruct (Z.ltb_spec (Z.of_nat attempt) (Z.of_nat maxRetries - 1))
      as [Hmore|Hlast].
    + specialize (IH (S attempt) (Thrown_error e)
                    (sleep (Z.min (baseDelay * 2 ^ Z.of_nat attempt) maxDelay)
                       w1) ltac:(lia) ltac:(lia)).
      cbv zeta in IH.
      destruct (retry_from _ _ _ _ _ remaining (S attempt) _ _)
        as [[r w2] steps].
      cbn [fst snd] in *.
      destruct IH as ((Hone & Hmost) & Hsleeps & Hlast & Hend).
      change (attempts (Attempt :: Sleep ?d :: steps))
        with (S (attempts steps)).
      change (sleeps (Attempt :: Sleep ?d :: steps)) with (d :: sleeps steps).
      split; [lia|]. split.
      * rewrite Hsleeps.
        replace (S (attempts steps) - 1)%nat
          with (S (attempts steps - 1)) by lia.
        reflexivity.
      * split.
        -- destruct steps as [|s steps]; [discriminate|]. exact Hlast.
        -- destruct r as [a|thrown]; [exact I|].
           destruct Hend as [Hcount Hthrown]. split; [lia|exact Hthrown].
    + assert (remaining = 0%nat) as -> by lia.
      cbn. repeat split; try lia. by eexists.
Qed.

(** A call that returns after [k] failed ones ends [retry]. *)
Lemma retry_from_returns (maxRetries : nat) (baseDelay maxDelay : Z)
  (k : nat) :
  forall (remaining attempt : nat) (lastError : Thrown) (w : World) (a : A),
    (k < remaining)%nat ->
    (remaining + attempt = maxRetries)%nat ->
    (forall i,
        (i < k)%nat ->
        exists e,
          fst (fn (world_before fn sleep baseDelay maxDelay attempt i w))
          = Throw e) ->
    fst (fn (world_before fn sleep baseDelay maxDelay attempt k w)) = Ok a ->
    retry_from fn sleep maxRetries baseDelay maxDelay remaining attempt
      lastError w
    = (inl a,
       snd (fn (world_before fn sleep baseDelay maxDelay attempt k w)),
       schedule baseDelay maxDelay attempt k).
Proof.
  induction k as [|k IH];
    intros remaining attempt lastError w a Hk Hsum Hfail Hok;
    (destruct remaining as [|remaining]; [lia|]); cbn [retry_from].
  - cbn [world_before schedule] in *.
    destruct (fn w) as [[x|e] w1]; cbn [fst] in Hok; [|discriminate].
    by injection Hok as ->.
  - destruct (Hfail 0%nat ltac:(lia)) as [e He]. cbn [world_before] in He.
    destruct (fn w) as [[x|e'] w1] eqn:Hw; [discriminate|].
    destruct (Z.ltb_spec (Z.of_nat attempt) (Z.of_nat maxRetries - 1))
      as [_|Hlast]; [|lia].
    rewrite (IH remaining (S attempt) (Thrown_error e')
               (sleep (Z.min (baseDelay * 2 ^ Z.of_nat attempt) maxDelay) w1)
               a ltac:(lia) ltac:(lia)).
    + cbn [world_before schedule]. by rewrite Hw.
    + intros i Hi. specialize (Hfail (S i) ltac:(lia)).
      cbn [world_before] in Hfail. by rewrite Hw in Hfail.
    + cbn [world_before] in Hok. by rewrite Hw in Hok.
Qed.

(** When every call allowed fails, [retry] throws the error of the last
    one. *)
Lemma retry_from_gives_up (maxRetries : nat) (baseDelay maxDelay : Z)
  (n : nat) :
  forall (attempt : nat) (lastError : Thrown) (w : World),
    (S n + attempt = maxRetries)%nat ->
    (forall i,
        (i <= n)%nat ->
        exists e,
          fst (fn (world_before fn sleep baseDelay maxDelay attempt i w))
          = Throw e) ->
    exists e,
      fst (fn (world_before fn sleep baseDelay maxDelay attempt n w))
      = Throw e
      /\ retry_from fn sleep maxRetries baseDelay maxDelay (S n) attempt
           lastError w
         = (inr (Thrown_error e),
            snd (fn (world_before fn sleep baseDelay maxDelay attempt n w)),
            schedule baseDelay maxDelay attempt n).
Proof.
  induction n as [|n IH]; intros attempt lastError w Hsum Hfail;
    cbn [retry_from].
  - destruct (Hfail 0%nat ltac:(lia)) as [e He]. cbn [world_before] in *.
    exists e. split; [exact He|].
    destruct (fn w) as [[x|e'] w1]; [discriminate|]. cbn [fst] in He.
    injection He as ->.
    destruct (Z.ltb_spec (Z.of_nat attempt) (Z.of_nat maxRetries - 1))
      as [Hmore|_]; [lia|]. reflexivity.
  - destruct (Hfail 0%nat ltac:(lia)) as [e He]. cbn [world_before] in He.
    destruct (fn w) as [[x|e'] w1] eqn:Hw; [discriminate|].
    destruct (Z.ltb_spec (Z.of_nat attempt) (Z.of_nat maxRetries - 1))
      as [_|Hlast]; [|lia].
    destruct (IH (S attempt) (Thrown_error e')
                (sleep (Z.min (baseDelay * 2 ^ Z.of_nat attempt) maxDelay) w1)
                ltac:(lia)) as (last & Hlast & Hrun).
    + intros i Hi. specialize (Hfail (S i) ltac:(lia)).
      cbn [world_before] in Hfail. by rewrite Hw in Hfail.
    + exists last. cbn [world_before schedule]. rewrite Hw.
      split; [exact Hlast|]. cbn [retry_from] in Hrun. by rewrite Hrun.
Qed.

(** X3.  [retry] calls [fn] at most [maxRetries] times and stops at the
    first call that returns: when the first [k] calls fail and the next
    one returns, [retry] returns what that call returned, and it has made
    those [k + 1] calls and no other.  Between two calls it sleeps once,
    [min(baseDelay * 2^i, maxDelay)] after the failed call number [i]
    (counted from 0), and it does not sleep after its last call.  When all
    [maxRetries] calls fail, it throws the error of the last of them; with
    [maxRetries = 0] it throws [undefined] without a call. *)
Theorem X3_retry_schedule (options : RetryOptions) (w : World) :
  let maxRetries := default 3%nat (opt_maxRetries options) in
  let baseDelay := default 1000%Z (opt_baseDelay options) in
  let maxDelay := default 10000%Z (opt_maxDelay options) in
  let run := retry fn sleep options w in
  let steps := snd run in
  let world i := world_before fn sleep baseDelay maxDelay 0 i w in
  (attempts steps <= maxRetries)%nat
  /\ sleeps steps
     = map (backoff baseDelay maxDelay) (seq 0 (attempts steps - 1))
  /\ (forall ms, last steps <> Some (Sleep ms))
  /\ (forall k a,
         (k < maxRetries)%nat ->
         (forall i, (i < k)%nat -> exists e, fst (fn (world i)) = Throw e) ->
         fst (fn (world k)) = Ok a ->
         run = (inl a, snd (fn (world k)), schedule baseDelay maxDelay 0 k)
         /\ attempts steps = S k)
  /\ (forall n,
         maxRetries = S n ->
         (forall i, (i <= n)%nat -> exists e, fst (fn (world i)) = Throw e) ->
         exists e,
           fst (fn (world n)) = Throw e
           /\ run
              = (inr (Thrown_error e), snd (fn (world n)),
                 schedule baseDelay maxDelay 0 n)
           /\ attempts steps = maxRetries)
  /\ (maxRetries = 0%nat -> run = (inr Thrown_undefined, w, [])).
Proof.
  cbv zeta.
  assert (Hcount : forall attempt k,
             attempts
               (schedule (default 1000%Z (opt_baseDelay options))
                  (default 10000%Z (opt_maxDelay options)) attempt k)
             = S k).
  { intros attempt k. revert attempt.
    induction k as [|k IH]; intros attempt; [reflexivity|].
    cbn [schedule].
    change (attempts (Attempt :: Sleep ?d :: ?l)) with (S (attempts l)).
    by rewrite IH. }
  assert (Hsteps :
            let steps := snd (retry fn sleep options w) in
            (attempts steps <= default 3%nat (opt_maxRetries options))%nat
            /\ sleeps steps
               = map (backoff (default 1000%Z (opt_baseDelay options))
                        (default 10000%Z (opt_maxDelay options)))
                   (seq 0 (attempts steps - 1))
            /\ (forall ms, last steps <> Some (Sleep ms))).
  { cbv zeta. unfold retry.
    destruct (default 3%nat (opt_maxRetries options)) as [|n] eqn:Hn.
    - cbn. split; [lia|]. split; [reflexivity|done].
    - pose proof (retry_from_steps (S n)
                    (default 1000%Z (opt_baseDelay options))
                    (default 10000%Z (opt_maxDelay options))
                    (S n) 0 Thrown_undefined w ltac:(lia) ltac:(lia)) as Hrun.
      cbv zeta in Hrun.
      destruct (retry_from _ _ _ _ _ _ _ _ _) as [[r w'] steps].
      cbn [fst snd] in *.
      destruct Hrun as ((Hone & Hmost) & Hsleeps & Hlast & Hend).
      split; [lia|]. split; [exact Hsleeps|].
      intros ms. by rewrite Hlast. }
  cbv zeta in Hsteps. destruct Hsteps as (Hmost & Hsleeps & Hlast).
  split; [exact Hmost|]. split; [exact Hsleeps|]. split; [exact Hlast|].
  unfold retry. split; [|split].
  - intros k a Hk Hfail Hok.
    rewrite (retry_from_returns (default 3%nat (opt_maxRetries options))
               (default 1000%Z (opt_baseDelay options))
               (default 10000%Z (opt_maxDelay options)) k
               (default 3%nat (opt_maxRetries options)) 0%nat
               Thrown_undefined w a Hk ltac:(lia) Hfail Hok).
    split; [reflexivity|]. cbn [snd]. apply Hcount.
  - intros n Hn Hfail. rewrite Hn.
    destruct (retry_from_gives_up (S n)
                (default 1000%Z (opt_baseDelay options))
                (default 10000%Z (opt_maxDelay options)) n 0%nat
                Thrown_undefined w ltac:(lia) Hfail) as (e & He & Hrun).
    exists e. split; [exact He|]. rewrite Hrun.
    split; [reflexivity|]. cbn [snd]. apply Hcount.
  - by intros ->.
Qed.

End RetryFacts.

Section PathFacts.
Import Utils.
Variable normalize : string -> string.
Variable join : string -> string -> string.
Variable homedir : string.

Lemma includes_cons (sub s : string) (c : ascii) :
  includes sub (String c s)
  = String.prefix sub (String c s) || includes sub s.
Proof. reflexivity. Qed.

(** An occurrence of a text does not start at a character other than the
    first of the text. *)
Lemma includes_skip (d : ascii) (sub s : string) (c : ascii) :
  c <> d ->
  includes (String d sub) (String c s) = includes (String d sub) s.
Proof.
  intros Hc. rewrite includes_cons. cbn [String.prefix].
  destruct (ascii_dec d c) as [->|_]; [done|]. reflexivity.
Qed.

Lemma includes_strip_separator (sub s : string) :
  includes (String "." sub) (strip_separator s) = includes (String "." sub) s.
Proof.
  destruct s as [|c s]; [reflexivity|].
  cbn [strip_separator].
  destruct (Ascii.eqb_spec c "/") as [->|Hslash];
    [by rewrite includes_skip|].
  destruct (Ascii.eqb_spec c "\") as [->|Hback];
    [by rewrite includes_skip|].
  reflexivity.
Qed.

(** X4.  A path that starts with [~] and holds [../] or [..\] anywhere is
    refused, whatever [path.normalize] would make of it; a path that
    starts with [~] and is accepted is the home directory joined with a
    normalized path that does not start with [..]; any other path is
    normalized and returned without a check. *)
Theorem X4_expandPath_refuses_traversal (filePath : string) :
  (startsWith "~" filePath = true ->
   (includes "../" filePath || includes "..\" filePath = true ->
    expandPath normalize join homedir filePath = Throw path_traversal_error)
   /\ (forall expanded,
          expandPath normalize join homedir filePath = Ok expanded ->
          exists normalized,
            expanded = join homedir normalized
            /\ startsWith ".." normalized = false))
  /\ (startsWith "~" filePath = false ->
      expandPath normalize join homedir filePath = Ok (normalize filePath)).
Proof.
  unfold expandPath. split.
  - intros Htilde. rewrite Htilde.
    destruct filePath as [|c rest]; [discriminate|].
    assert (c = "~"%char) as ->.
    { unfold startsWith in Htilde. cbn [String.prefix] in Htilde.
      destruct (ascii_dec "~" c) as [<-|_]; [reflexivity|discriminate]. }
    cbn [slice_from].
    rewrite !includes_strip_separator.
    rewrite !(includes_skip "." _ rest "~") by discriminate.
    split.
    + by intros ->.
    + intros expanded.
      destruct (includes "../" rest || includes "..\" rest); [discriminate|].
      destruct (startsWith ".." (normalize _)) eqn:Hdots; [discriminate|].
      intros [= <-]. by eexists.
  - by intros ->.
Qed.

End PathFacts.

Lemma X4_expandPath_refuses_traversal_witness :
  Utils.expandPath (fun p => p) (fun a b => String.append a (String "/" b))
    "/home/ernest" "~/docs/../../../etc/passwd"
  = Throw Utils.path_traversal_error
  /\ Utils.expandPath (fun p => p) (fun a b => String.append a (String "/" b))
       "/home/ernest" "~/Documents/test.txt"
     = Ok "/home/ernest/Documents/test.txt".
Proof.
  split.
  - apply (X4_expandPath_refuses_traversal (fun p => p)
             (fun a b => String.append a (String "/" b)) "/home/ernest"
             "~/docs/../../../etc/passwd"); reflexivity.
  - reflexivity.
Defined.

Section TagShape.
Import Utils.

Lemma lower_char_idempotent (c : ascii) :
  lower_char (lower_char c) = lower_char c.
Proof. destruct c as [[] [] [] [] [] [] [] []]; reflexivity. Qed.

Lemma toLowerCase_idempotent (s : string) :
  toLowerCase (toLowerCase s) = toLowerCase s.
Proof.
  induction s as [|c s IH]; [reflexivity|].
  cbn [toLowerCase]. by rewrite lower_char_idempotent, IH.
Qed.

Lemma span_until_run (stop : ascii) (s : string) :
  contains stop (fst (span_until stop s)) = false.
Proof.
  induction s as [|c s IH]; [reflexivity|].
  cbn [span_until]. destruct (Ascii.eqb c stop) eqn:Hc; [reflexivity|].
  destruct (span_until stop s) as [run after]. cbn [fst contains] in *.
  by rewrite Hc, IH.
Qed.

Lemma match_tag_at_group (s group after : string) :
  match_tag_at s = Some (group, after) ->
  group <> EmptyString /\ contains "]" group = false.
Proof.
  destruct s as [|c rest]; [discriminate|].
  unfold match_tag_at.
  destruct (Ascii.eqb_spec c "[") as [->|Hc].
  - pose proof (span_until_run "]" rest) as Hrun.
    destruct (span_until "]" rest) as [[|x run] [|y after']];
      try discriminate.
    intros [= <- _]. split; [discriminate|exact Hrun].
  - destruct c as [[] [] [] [] [] [] [] []]; try discriminate.
    by contradiction Hc.
Qed.

Lemma scan_tags_groups (fuel : nat) :
  forall s,
    Forall (fun group => group <> EmptyString /\ contains "]" group = false)
      (fst (scan_tags fuel s)).
Proof.
  induction fuel as [|fuel IH]; intros s; [by constructor|].
  destruct s as [|c rest]; [by constructor|].
  cbn [scan_tags].
  destruct (match_tag_at (String c rest)) as [[group after]|] eqn:Hmatch.
  - specialize (IH after). destruct (scan_tags fuel after) as [groups text].
    cbn [fst] in *. constructor; [|exact IH].
    by apply (match_tag_at_group _ _ _ Hmatch).
  - specialize (IH rest). by destruct (scan_tags fuel rest).
Qed.

(** X5.  Every tag that [extractTags] returns is a non-empty text without
    a closing bracket, in lower case. *)
Theorem X5_extractTags_tags_are_lower_case_groups (input : string) :
  Forall (fun tag =>
            tag <> EmptyString
            /\ contains "]" tag = false
            /\ toLowerCase tag = tag)
    (tags (extractTags input)).
Proof.
  unfold extractTags.
  pose proof (scan_tags_groups (S (String.length input)) input) as Hgroups.
  destruct (scan_tags (S (String.length input)) input) as [groups text].
  cbn [fst tags] in *.
  induction Hgroups as [|group groups [Hne Hfree] _ IH]; [by constructor|].
  cbn [map]. constructor; [|exact IH].
  split; [by destruct group|].
  split; [by rewrite contains_toLowerCase|apply toLowerCase_idempotent].
Qed.

End TagShape.

Section TagRemoval.
Import Utils.

Lemma span_until_without (stop : ascii) (s : string) :
  contains stop s = false -> span_until stop s = (s, EmptyString).
Proof.
  induction s as [|c s IH]; [reflexivity|].
  cbn [contains span_until]. intros [Hc Hs]%orb_false_elim.
  by rewrite Hc, (IH Hs).
Qed.

Lemma span_until_with (stop : ascii) (s : string) :
  contains stop s = true ->
  exists after, snd (span_until stop s) = String stop after.
Proof.
  induction s as [|c s IH]; [discriminate|].
  cbn [contains span_until].
  destruct (Ascii.eqb_spec c stop) as [->|Hc].
  - intros _. by eexists.
  - cbn [orb]. intros Hs. destruct (IH Hs) as [after Hafter].
    destruct (span_until stop s) as [run rest]. by exists after.
Qed.

Lemma match_tag_at_bracket (r : string) :
  match_tag_at (String "[" r) = None <-> blocked r = true.
Proof.
  unfold match_tag_at. destruct r as [|c r]; [split; reflexivity|].
  cbn [blocked].
  destruct (Ascii.eqb_spec c "]") as [->|Hc]; [split; reflexivity|].
  cbn [orb]. destruct (contains "]" (String c r)) eqn:Hin.
  - destruct (span_until_with _ _ Hin) as [after Hafter].
    cbn [span_until] in *.
    rewrite (proj2 (Ascii.eqb_neq _ _) Hc) in *.
    destruct (span_until "]" r) as [run rest]. cbn [snd] in Hafter.
    by rewrite Hafter.
  - by rewrite (span_until_without _ _ Hin).
Qed.

Lemma match_tag_at_without (s : string) :
  contains "]" s = false -> match_tag_at s = None.
Proof.
  destruct s as [|c r]; [reflexivity|]. intros Hs.
  destruct (ascii_dec c "[") as [->|Hc]; [|by apply match_tag_at_other].
  apply match_tag_at_bracket. cbn [contains] in Hs.
  apply orb_false_elim in Hs as [_ Hr].
  destruct r as [|d r]; [reflexivity|]. cbn [blocked].
  by rewrite Hr, orb_true_r.
Qed.

Lemma scan_tags_without (fuel : nat) :
  forall s, contains "]" s = false -> scan_tags fuel s = ([], s).
Proof.
  induction fuel as [|fuel IH]; intros s Hs; [reflexivity|].
  destruct s as [|c r]; [reflexivity|].
  cbn [scan_tags]. rewrite (match_tag_at_without _ Hs).
  cbn [contains] in Hs. apply orb_false_elim in Hs as [_ Hr].
  by rewrite (IH r Hr).
Qed.

Lemma scan_tags_blocked (fuel : nat) (r : string) :
  blocked r = true -> blocked (snd (scan_tags fuel r)) = true.
Proof.
  destruct fuel as [|fuel]; [done|].
  destruct r as [|c r]; [done|].
  cbn [blocked]. destruct (Ascii.eqb_spec c "]") as [->|Hc].
  - intros _. cbn [scan_tags].
    rewrite match_tag_at_other by discriminate.
    by destruct (scan_tags fuel r).
  - cbn [orb]. intros Hfree%negb_true_iff.
    rewrite (scan_tags_without _ _ Hfree). cbn [snd blocked].
    by rewrite Hfree, orb_true_r.
Qed.

Lemma tag_free_cons (c : ascii) (s : string) :
  tag_free (String c s) = true
  <-> match_tag_at (String c s) = None /\ tag_free s = true.
Proof.
  cbn [tag_free]. destruct (match_tag_at (String c s)).
  - split; [discriminate|]. by intros [? _].
  - split; [by intros ?|by intros [_ ?]].
Qed.

Lemma tag_free_from (c : ascii) (s : string) :
  (c = "["%char -> blocked s = true) ->
  tag_free s = true ->
  tag_free (String c s) = true.
Proof.
  intros Hc Hs. apply tag_free_cons. split; [|exact Hs].
  destruct (ascii_dec c "[") as [->|Hother].
  - apply match_tag_at_bracket. by apply Hc.
  - by apply match_tag_at_other.
Qed.

Lemma tag_free_blocked (s : string) :
  tag_free (String "[" s) = true -> blocked s = true.
Proof. intros [Hs _]%tag_free_cons. by apply match_tag_at_bracket. Qed.

(** What a scan with enough fuel leaves holds no tag. *)
Lemma scan_tags_tag_free (fuel : nat) :
  forall s,
    (String.length s <= fuel)%nat ->
    tag_free (snd (scan_tags fuel s)) = true.
Proof.
  induction fuel as [|fuel IH]; intros s Hfuel.
  - destruct s; [reflexivity|cbn in Hfuel; lia].
  - destruct s as [|c r]; [reflexivity|].
    cbn [String.length] in Hfuel. cbn [scan_tags].
    destruct (match_tag_at (String c r)) as [[group after]|] eqn:Hmatch.
    + apply match_tag_at_rest in Hmatch as Hshorter.
      cbn [String.length] in Hshorter.
      specialize (IH after ltac:(lia)).
      by destruct (scan_tags fuel after).
    + pose proof (IH r ltac:(lia)) as Hr.
      pose proof (scan_tags_blocked fuel r) as Hblocked.
      destruct (scan_tags fuel r) as [groups text]. cbn [snd] in *.
      apply tag_free_from; [|exact Hr].
      intros ->. apply Hblocked. by apply match_tag_at_bracket.
Qed.

Lemma tag_free_scan (fuel : nat) :
  forall s, tag_free s = true -> scan_tags fuel s = ([], s).
Proof.
  induction fuel as [|fuel IH]; intros s Hs; [reflexivity|].
  destruct s as [|c r]; [reflexivity|].
  apply tag_free_cons in Hs as [Hhead Hr].
  cbn [scan_tags]. by rewrite Hhead, (IH r Hr).
Qed.

Lemma tag_free_trimStart (s : string) :
  tag_free s = true -> tag_free (trimStart s) = true.
Proof.
  induction s as [|c s IH]; [done|]. intros Hs.
  cbn [trimStart]. destruct (is_space c); [|exact Hs].
  apply IH. by apply tag_free_cons in Hs as [_ Hs].
Qed.

Lemma trimEnd_cons (c : ascii) (s : string) :
  trimEnd (String c s)
  = match trimEnd s with
    | EmptyString =>
        if is_space c then EmptyString else String c EmptyString
    | kept => String c kept
    end.
Proof. reflexivity. Qed.

Lemma contains_trimEnd (c : ascii) (s : string) :
  contains c s = false -> contains c (trimEnd s) = false.
Proof.
  induction s as [|a s IH]; [done|].
  cbn [contains]. intros [Ha Hs]%orb_false_elim.
  rewrite trimEnd_cons. specialize (IH Hs).
  destruct (trimEnd s) as [|k kept].
  - destruct (is_space a); [reflexivity|]. cbn [contains]. by rewrite Ha.
  - cbn [contains] in *. by rewrite Ha, IH.
Qed.

Lemma blocked_trimEnd (s : string) :
  blocked s = true -> blocked (trimEnd s) = true.
Proof.
  destruct s as [|c s]; [done|].
  cbn [blocked]. rewrite trimEnd_cons.
  destruct (Ascii.eqb_spec c "]") as [->|Hc].
  - intros _. by destruct (trimEnd s).
  - cbn [orb]. intros Hfree%negb_true_iff.
    pose proof (contains_trimEnd _ _ Hfree) as Hkept.
    rewrite trimEnd_cons in Hkept.
    destruct (trimEnd s) as [|k kept].
    + destruct (is_space c); [reflexivity|]. cbn [blocked].
      by rewrite Hkept, orb_true_r.
    + cbn [blocked]. by rewrite Hkept, orb_true_r.
Qed.

Lemma tag_free_trimEnd (s : string) :
  tag_free s = true -> tag_free (trimEnd s) = true.
Proof.
  induction s as [|c s IH]; [done|]. intros Hs.
  pose proof (blocked_trimEnd s) as Hblocked.
  assert (Hopen : c = "["%char -> blocked s = true).
  { intros ->. by apply tag_free_blocked. }
  apply tag_free_cons in Hs as [_ Hs]. specialize (IH Hs).
  rewrite trimEnd_cons. destruct (trimEnd s) as [|k kept] eqn:Hkept.
  - destruct (is_space c); [reflexivity|].
    apply tag_free_from; [done|reflexivity].
  - apply tag_free_from; [|exact IH]. intros Hc. by apply Hblocked, Hopen.
Qed.

Lemma trimEnd_idempotent (s : string) : trimEnd (trimEnd s) = trimEnd s.
Proof.
  induction s as [|c s IH]; [reflexivity|].
  rewrite trimEnd_cons. destruct (trimEnd s) as [|k kept] eqn:Hkept.
  - destruct (is_space c) eqn:Hc; [reflexivity|].
    rewrite trimEnd_cons. cbn [trimEnd]. by rewrite Hc.
  - rewrite trimEnd_cons. by rewrite IH.
Qed.

Lemma trimStart_trimEnd (s : string) :
  trimStart s = s -> trimStart (trimEnd s) = trimEnd s.
Proof.
  destruct s as [|c s]; [reflexivity|].
  cbn [trimStart]. destruct (is_space c) eqn:Hc.
  - intros Hs. exfalso.
    assert (Hlen : forall t,
               (String.length (trimStart t) <= String.length t)%nat).
    { induction t as [|a t IHt]; [reflexivity|].
      cbn [trimStart]. destruct (is_space a); cbn [String.length]; lia. }
    specialize (Hlen s). rewrite Hs in Hlen. cbn [String.length] in Hlen. lia.
  - intros _. rewrite trimEnd_cons.
    destruct (trimEnd s); rewrite ?Hc; cbn [trimStart]; by rewrite Hc.
Qed.

Lemma trimStart_idempotent (s : string) :
  trimStart (trimStart s) = trimStart s.
Proof.
  induction s as [|c s IH]; [reflexivity|].
  cbn [trimStart]. destruct (is_space c) eqn:Hc; [exact IH|].
  cbn [trimStart]. by rewrite Hc.
Qed.

Lemma trim_idempotent (s : string) : trim (trim s) = trim s.
Proof.
  unfold trim.
  rewrite (trimStart_trimEnd (trimStart s) (trimStart_idempotent s)).
  apply trimEnd_idempotent.
Qed.

(** X6.  The cleaned input that [extractTags] returns holds no tag any
    more: extracting again finds no tag and leaves the text as it is, so
    the cleaned input never carries an explicit agent type. *)
Theorem X6_extractTags_leaves_no_tag (input : string) :
  let clean := cleanInput (extractTags input) in
  extractTags clean = {| tags := []; cleanInput := clean |}
  /\ hasExplicitAgentType clean = None.
Proof.
  cbv zeta.
  assert (Hfree : tag_free (cleanInput (extractTags input)) = true).
  { unfold extractTags.
    pose proof (scan_tags_tag_free (S (String.length input)) input
                  ltac:(lia)) as Htext.
    destruct (scan_tags (S (String.length input)) input) as [groups text].
    cbn [snd cleanInput] in *. unfold trim.
    by apply tag_free_trimEnd, tag_free_trimStart. }
  assert (Hagain :
            extractTags (cleanInput (extractTags input))
            = {| tags := []; cleanInput := cleanInput (extractTags input) |}).
  { unfold extractTags at 1. rewrite (tag_free_scan _ _ Hfree).
    cbn [map]. f_equal. unfold extractTags.
    destruct (scan_tags (S (String.length input)) input) as [groups text].
    cbn [cleanInput]. apply trim_idempotent. }
  split; [exact Hagain|].
  unfold hasExplicitAgentType. by rewrite Hagain.
Qed.

End TagRemoval.

(** ** Model client (src/models/client.ts) *)

Section AnthropicMessages.
Import ModelClient.

Lemma messageToAnthropic_acc (sys : option string)
  (out : list AnthropicMessage) (msg : Message) :
  messageToAnthropic (sys, out) msg
  = (if is_system msg then Some (msg_content msg) else sys,
     out ++ anthropic_wire msg).
Proof.
  unfold anthropic_wire, messageToAnthropic, is_system.
  destruct (msg_role msg), (msg_toolResults msg), (msg_toolCalls msg);
    cbn [fst snd app]; by rewrite ?app_nil_r.
Qed.

Lemma messagesToAnthropic_acc (messages : list Message) :
  forall (sys : option string) (out : list AnthropicMessage),
    fold_left messageToAnthropic messages (sys, out)
    = (match last (map msg_content (List.filter is_system messages)) with
       | Some prompt => Some prompt
       | None => sys
       end,
       out ++ flat_map anthropic_wire messages).
Proof.
  induction messages as [|msg messages IH]; intros sys out.
  - cbn. by rewrite app_nil_r.
  - cbn [fold_left]. rewrite messageToAnthropic_acc, IH.
    cbn [List.filter flat_map]. rewrite app_assoc. f_equal.
    destruct (is_system msg); [|reflexivity].
    cbn [map]. rewrite last_cons.
    by destruct (last (map msg_content (List.filter is_system messages))).
Qed.

(** X7.  [messagesToAnthropic] takes the system messages out of the
    conversation: the system prompt is the content of the last of them (an
    earlier one is dropped), none of them appears among the messages, and
    every other message becomes exactly one wire message, in the order of
    the conversation. *)
Theorem X7_messagesToAnthropic_hoists_the_last_system_message
  (messages : list Message) :
  messagesToAnthropic messages
  = (last (map msg_content (List.filter is_system messages)),
     flat_map anthropic_wire messages)
  /\ (forall msg, is_system msg = true -> anthropic_wire msg = [])
  /\ (forall msg, is_system msg = false -> length (anthropic_wire msg) = 1%nat)
  /\ length (snd (messagesToAnthropic messages))
     = length (List.filter (fun msg => negb (is_system msg)) messages).
Proof.
  assert (Hsystem :
            forall msg, is_system msg = true -> anthropic_wire msg = []).
  { intros msg. unfold is_system, anthropic_wire, messageToAnthropic.
    destruct (msg_role msg), (msg_toolResults msg), (msg_toolCalls msg);
      try discriminate; reflexivity. }
  assert (Hother :
            forall msg, is_system msg = false ->
                        length (anthropic_wire msg) = 1%nat).
  { intros msg. unfold is_system, anthropic_wire, messageToAnthropic.
    destruct (msg_role msg), (msg_toolResults msg), (msg_toolCalls msg);
      try discriminate; reflexivity. }
  assert (Hall :
            messagesToAnthropic messages
            = (last (map msg_content (List.filter is_system messages)),
               flat_map anthropic_wire messages)).
  { unfold messagesToAnthropic. rewrite messagesToAnthropic_acc.
    by destruct (last _). }
  split; [exact Hall|]. split; [exact Hsystem|]. split; [exact Hother|].
  rewrite Hall. cbn [snd]. clear Hall.
  induction messages as [|msg messages IH]; [reflexivity|].
  cbn [flat_map List.filter]. rewrite length_app.
  destruct (is_system msg) eqn:Hmsg; cbn [negb].
  - rewrite (Hsystem msg Hmsg). exact IH.
  - rewrite (Hother msg Hmsg). cbn [length]. by rewrite IH.
Qed.

End AnthropicMessages.

Section CompletionRuns.
Import ModelClient.
Context {World : Type} {net : Network World} {codec : JsonCodec}.
Variable getModel : string -> option ModelInfo.

Lemma completeOpenAI_run (self : t) (options : CompletionOptions World)
  (key : ClientKey) (w : World) :
  completeOpenAI self options key w
  = match openaiClients self !! clientKey_name key with
    | None =>
        (Throw (String.append (clientKey_name key) " client not configured"),
         w, [])
    | Some client =>
        let called :=
          Network_call (clientKey_name key) (modelName (opt_model options)) in
        match openai_create client (openAIRequest options true false) w with
        | (Ok response, w1) =>
            match readOpenAI response with
            | Ok answer => (Ok answer, w1, [called])
            | Throw e =>
                (Throw e, w1,
                 [called; Log_error "OpenAI completion failed:" e])
            end
        | (Throw e, w1) =>
            (Throw e, w1, [called; Log_error "OpenAI completion failed:" e])
        end
    end.
Proof.
  unfold completeOpenAI.
  destruct (openaiClients self !! clientKey_name key) as [client|];
    [|reflexivity].
  unfold try_catch, bind, tell, call, lift, throw, ret. cbv zeta.
  destruct (openai_create client _ w) as [[response|e] w1]; [|reflexivity].
  by destruct (readOpenAI response).
Qed.

Lemma completeAnthropic_run (self : t) (options : CompletionOptions World)
  (w : World) :
  completeAnthropic self options w
  = match anthropicClient self with
    | None => (Throw "Anthropic client not configured", w, [])
    | Some client =>
        let called :=
          Network_call "anthropic" (modelName (opt_model options)) in
        match anthropic_create client (anthropicRequest options true) w with
        | (Ok response, w1) => (Ok (readAnthropic response), w1, [called])
        | (Throw e, w1) =>
            (Throw e, w1,
             [called; Log_error "Anthropic completion failed:" e])
        end
    end.
Proof.
  unfold completeAnthropic.
  destruct (anthropicClient self) as [client|]; [|reflexivity].
  unfold try_catch, bind, tell, call, throw, ret. cbv zeta.
  by destruct (anthropic_create client _ w) as [[response|e] w1].
Qed.

Lemma readOpenAI_finish (response : OpenAIResponse)
  (answer : CompletionResponse) :
  readOpenAI response = Ok answer ->
  finishReason answer = finish_stop
  \/ finishReason answer = finish_tool_calls.
Proof.
  unfold readOpenAI. destruct (oa_choices response) as [|choice _];
    [discriminate|].
  destruct (oa_message_tool_calls choice) as [tcs|].
  - destruct (toolCallsFromOpenAI tcs); [|discriminate].
    intros [= <-]. cbn [finishReason].
    destruct (String.eqb _ _); [by right|by left].
  - intros [= <-]. cbn [finishReason].
    destruct (String.eqb _ _); [by right|by left].
Qed.

Lemma readAnthropic_finish (response : AnthropicResponse) :
  (finishReason (readAnthropic response) = finish_stop
   \/ finishReason (readAnthropic response) = finish_tool_calls)
  /\ toolCalls (readAnthropic response) <> Some [].
Proof.
  unfold readAnthropic.
  destruct (blocksFromAnthropic (an_resp_content response)) as [text calls].
  cbn [finishReason toolCalls]. split.
  - destruct (String.eqb _ _); [by right|by left].
  - by destruct calls.
Qed.

Lemma completeOpenAI_outcome (self : t) (options : CompletionOptions World)
  (key : ClientKey) (w : World) :
  completion_outcome options w (completeOpenAI self options key w).
Proof.
  rewrite completeOpenAI_run. unfold completion_outcome.
  destruct (openaiClients self !! clientKey_name key) as [client|];
    [|by left].
  cbv zeta.
  destruct (openai_create client _ w) as [[response|e] w1].
  - destruct (readOpenAI response) as [answer|e] eqn:Hread.
    + split; [by eexists|]. by apply (readOpenAI_finish response).
    + right. by eexists _, _.
  - right. by eexists _, _.
Qed.

Lemma completeAnthropic_outcome (self : t) (options : CompletionOptions World)
  (w : World) :
  completion_outcome options w (completeAnthropic self options w).
Proof.
  rewrite completeAnthropic_run. unfold completion_outcome.
  destruct (anthropicClient self) as [client|]; [|by left].
  cbv zeta.
  destruct (anthropic_create client _ w) as [[response|e] w1].
  - split; [by eexists|]. apply readAnthropic_finish.
  - right. by eexists _, _.
Qed.

(** X8.  A call of [complete] calls an SDK at most once, under the model
    name without its provider prefix. When it returns, that call is all it
    did, and the finish reason it reports is [stop] or [tool_calls] -
    never [length] or [error]. When it throws, either nothing happened (no
    call, no log entry, the world as it was: an unknown model, an
    unsupported provider or a missing client), or the call was made and
    the error thrown is logged once, unchanged. *)
Theorem X8_complete_calls_once_and_logs_what_it_rethrows
  (self : t) (options : CompletionOptions World) (w : World) :
  let run := complete getModel self options w in
  (forall answer,
      outcome run = Ok answer ->
      (exists provider,
          trace run
          = [Network_call provider (modelName (opt_model options))])
      /\ (finishReason answer = finish_stop
          \/ finishReason answer = finish_tool_calls))
  /\ (forall e,
         outcome run = Throw e ->
         (trace run = [] /\ world_after run = w)
         \/ exists provider context,
             trace run
             = [Network_call provider (modelName (opt_model options));
                Log_error context e]).
Proof.
  cbv zeta.
  assert (Hrun : completion_outcome options w
                   (complete getModel self options w)).
  { unfold complete.
    destruct (getModel (opt_model options)) as [modelInfo|].
    - destruct (mi_provider modelInfo);
        try apply completeOpenAI_outcome;
        try apply completeAnthropic_outcome.
      by left.
    - repeat (destruct (startsWith _ _));
        try apply completeOpenAI_outcome;
        try apply completeAnthropic_outcome.
      by left. }
  unfold completion_outcome in Hrun.
  destruct (outcome (complete getModel self options w)) as [answer|e].
  - split; [by intros ? [= <-]|discriminate].
  - split; [discriminate|by intros ? [= <-]].
Qed.

End CompletionRuns.

Section ConfigureProvider.
Import ModelClient.
Context {World : Type} {net : Network World} {codec : JsonCodec}.

Lemma completeOpenAI_client (self self' : t)
  (options : CompletionOptions World) (key : ClientKey) (w : World) :
  openaiClients self' !! clientKey_name key
  = openaiClients self !! clientKey_name key ->
  completeOpenAI self' options key w = completeOpenAI self options key w.
Proof. intros Hsame. unfold completeOpenAI. by rewrite Hsame. Qed.

Lemma configureProvider_anthropicClient (self : t) (config : ProviderConfig) :
  anthropicClient (configureProvider self config)
  = match pc_provider config, present (pc_apiKey config) with
    | anthropic, Some key =>
        Some {| client_apiKey := key; client_baseURL := None |}
    | _, _ => anthropicClient self
    end.
Proof.
  unfold configureProvider.
  by destruct (pc_provider config), (pc_apiKey config) as [[|a k]|].
Qed.

Lemma configureProvider_openaiClients (self : t) (config : ProviderConfig)
  (key : ClientKey) :
  openaiClients (configureProvider self config) !! clientKey_name key
  = match pc_provider config, key, present (pc_apiKey config) with
    | openai, key_openai, Some apiKey =>
        Some {| client_apiKey := apiKey;
                client_baseURL := pc_baseUrl config |}
    | lmstudio, key_lmstudio, _ =>
        Some {| client_apiKey := "lm-studio";
                client_baseURL :=
                  Some (or_else (pc_baseUrl config)
                          "http://localhost:1234/v1") |}
    | _, _, _ => openaiClients self !! clientKey_name key
    end.
Proof.
  unfold configureProvider.
  destruct (pc_provider config), (pc_apiKey config) as [[|a k]|], key;
    cbn [openaiClients clientKey_name present];
    by rewrite ?lookup_insert_eq, ?lookup_insert_ne.
Qed.

(** X9.  [configureProvider] touches the client of the configured provider
    only: requests to the other providers run as before. An OpenAI or
    Anthropic configuration without an API key (absent or empty) changes
    no client at all - it neither installs one nor removes the one in
    place - while an LM Studio configuration always installs a client, and
    a configuration with a key makes the next request reach the SDK. *)
Theorem X9_configureProvider_installs_one_client
  (self : t) (config : ProviderConfig) (options : CompletionOptions World)
  (w : World) :
  let self' := configureProvider self config in
  (forall key,
      provider_of_key key <> pc_provider config
      \/ (pc_provider config = openai /\ present (pc_apiKey config) = None) ->
      completeOpenAI self' options key w = completeOpenAI self options key w)
  /\ (pc_provider config <> anthropic
      \/ present (pc_apiKey config) = None ->
      completeAnthropic self' options w = completeAnthropic self options w)
  /\ (forall key,
         provider_of_key key = pc_provider config ->
         key = key_lmstudio \/ present (pc_apiKey config) <> None ->
         exists logged,
           trace (completeOpenAI self' options key w)
           = Network_call (clientKey_name key) (modelName (opt_model options))
             :: logged)
  /\ (pc_provider config = anthropic ->
      present (pc_apiKey config) <> None ->
      exists logged,
        trace (completeAnthropic self' options w)
        = Network_call "anthropic" (modelName (opt_model options)) :: logged).
Proof.
  cbv zeta. split; [|split; [|split]].
  - intros key Hother. apply completeOpenAI_client.
    rewrite configureProvider_openaiClients.
    destruct (pc_provider config), key, (present (pc_apiKey config));
      cbn [provider_of_key] in Hother; try reflexivity;
      destruct Hother as [Hother|[Hp Hk]]; congruence.
  - intros Hother. unfold completeAnthropic.
    rewrite configureProvider_anthropicClient.
    destruct (pc_provider config), (present (pc_apiKey config));
      try reflexivity; destruct Hother; congruence.
  - intros key Hkey Hset. rewrite completeOpenAI_run.
    rewrite configureProvider_openaiClients.
    destruct (pc_provider config), key, (present (pc_apiKey config));
      cbn [provider_of_key] in Hkey; try discriminate;
      try (destruct Hset; congruence); cbv zeta.
    all: destruct (openai_create _ _ w) as [[response|e] w1];
      [destruct (readOpenAI response)|]; by eexists.
  - intros Hp Hset. rewrite completeAnthropic_run.
    rewrite configureProvider_anthropicClient, Hp.
    destruct (present (pc_apiKey config)); [|done]. cbv zeta.
    destruct (anthropic_create _ _ w) as [[response|e] w1]; by eexists.
Qed.

End ConfigureProvider.

Section ModelNames.
Import ModelClient.

Lemma includes_contains (c : ascii) (s : string) :
  includes (String c EmptyString) s = contains c s.
Proof.
  induction s as [|a s IH]; [reflexivity|].
  cbn [includes contains String.prefix]. rewrite IH.
  destruct (ascii_dec c a) as [->|Hc].
  - rewrite Ascii.eqb_refl. by destruct s.
  - by rewrite (proj2 (Ascii.eqb_neq a c)) by congruence.
Qed.

Lemma contains_append (c : ascii) (a b : string) :
  contains c (String.append a b) = contains c a || contains c b.
Proof.
  induction a as [|x a IH]; [reflexivity|].
  rewrite append_cons. cbn [contains]. by rewrite IH, orb_assoc.
Qed.

Lemma split_without (sep : ascii) (s : string) :
  contains sep s = false -> split sep s = [s].
Proof.
  induction s as [|c s IH]; [reflexivity|].
  cbn [contains split]. intros [Hc Hs]%orb_false_elim.
  by rewrite Hc, (IH Hs).
Qed.

Lemma split_append (sep : ascii) (p rest : string) :
  contains sep p = false ->
  split sep (String.append p (String sep rest)) = p :: split sep rest.
Proof.
  induction p as [|c p IH].
  - intros _. rewrite append_empty. cbn [split]. by rewrite Ascii.eqb_refl.
  - cbn [contains]. intros [Hc Hp]%orb_false_elim.
    rewrite append_cons. cbn [split]. by rewrite Hc, (IH Hp).
Qed.

(** X10.  The model name sent to a provider is the model id itself when it
    has no colon; otherwise it is the text between the first colon and the
    second, so that the provider prefix is cut off and, in an id with two
    colons, everything from the second colon on is cut off as well. *)
Theorem X10_modelName_keeps_the_second_segment (prefix name tag : string) :
  contains ":" prefix = false ->
  contains ":" name = false ->
  modelName prefix = prefix
  /\ modelName (String.append prefix (String ":" name)) = name
  /\ modelName
       (String.append prefix
          (String ":" (String.append name (String ":" tag))))
     = name.
Proof.
  intros Hprefix Hname. unfold modelName.
  rewrite !includes_contains, !contains_append. cbn [contains].
  rewrite Hprefix, Ascii.eqb_refl, orb_true_r. cbn [orb].
  rewrite !split_append by done.
  rewrite (split_without _ _ Hname). done.
Qed.

Lemma X10_modelName_keeps_the_second_segment_witness :
  contains ":" "lmstudio" = false
  /\ contains ":" "qwen2.5" = false
  /\ modelName "lmstudio" = "lmstudio"
  /\ modelName "lmstudio:qwen2.5" = "qwen2.5"
  /\ modelName "lmstudio:qwen2.5:7b" = "qwen2.5".
Proof.
  split; [reflexivity|]. split; [reflexivity|].
  exact (X10_modelName_keeps_the_second_segment "lmstudio" "qwen2.5" "7b"
           eq_refl eq_refl).
Defined.

End ModelNames.

Section Streaming.
Import ModelClient.
Context {World : Type} {net : Network World} {codec : JsonCodec}.
Variable getModel : string -> option ModelInfo.

(** X11.  A model that the detector does not know is streamed through the
    OpenAI client whatever its id says, where [complete] goes by the
    prefix of the id: it sends an [anthropic:] id to the Anthropic client
    and an [lmstudio:] id to the LM Studio client, and throws [Unknown
    model] without any call for an id with no known prefix. *)
Theorem X11_streamComplete_ignores_the_prefix_of_an_unknown_model
  (self : t) (options : CompletionOptions World) (w : World) :
  getModel (opt_model options) = None ->
  streamComplete getModel self options w
  = streamOpenAI self options key_openai w
  /\ (startsWith "anthropic:" (opt_model options) = true ->
      complete getModel self options w = completeAnthropic self options w)
  /\ (startsWith "lmstudio:" (opt_model options) = true ->
      complete getModel self options w
      = completeOpenAI self options key_lmstudio w)
  /\ (startsWith "openai:" (opt_model options) = false ->
      startsWith "anthropic:" (opt_model options) = false ->
      startsWith "lmstudio:" (opt_model options) = false ->
      complete getModel self options w
      = (Throw (String.append "Unknown model: " (opt_model options)), w, [])).
Proof.
  intros Hunknown. unfold streamComplete, complete. rewrite Hunknown.
  split; [reflexivity|].
  assert (Hexclusive :
            forall p q s,
              String.prefix (String p EmptyString) (String q EmptyString)
              = false ->
              startsWith (String q s) (opt_model options) = true ->
              forall r, startsWith (String p r) (opt_model options) = false).
  { intros p q s Hpq Hq r. unfold startsWith in *.
    destruct (opt_model options) as [|c model]; [discriminate|].
    cbn [String.prefix] in *.
    destruct (ascii_dec q c) as [<-|]; [|discriminate].
    destruct (ascii_dec p q); [discriminate|reflexivity]. }
  split; [|split].
  - intros Hp.
    by rewrite (Hexclusive "o"%char "a"%char _ eq_refl Hp "penai:"), Hp.
  - intros Hp.
    rewrite (Hexclusive "o"%char "l"%char _ eq_refl Hp "penai:").
    by rewrite (Hexclusive "a"%char "l"%char _ eq_refl Hp "nthropic:"), Hp.
  - by intros -> -> ->.
Qed.

Lemma omap_nonempty (chunks : list (option string)) :
  Forall (fun fragment => fragment <> EmptyString)
    (omap (fun c => if truthy c then c else None) chunks).
Proof.
  induction chunks as [|[[|a s]|] chunks IH]; cbn [omap truthy];
    try exact IH.
  - by constructor.
  - cbn. constructor; [discriminate|exact IH].
Qed.

(** X12.  A stream from an OpenAI-style client makes at most one call
    and yields the contents of the chunks that it receives, in order,
    leaving out those that are absent or empty, so that it never yields an
    empty fragment.  A stream from the Anthropic client yields the text of
    every text delta among the events that it receives, in order, an empty
    one included, and nothing for any other event. *)
Theorem X12_streams_yield_what_they_receive
  (self : t) (options : CompletionOptions World) (key : ClientKey)
  (w : World) :
  let openai_run := streamOpenAI self options key w in
  Forall (fun fragment => fragment <> EmptyString)
    (fragments (fst (fst openai_run)))
  /\ (length (snd openai_run) <= 1)%nat
  /\ (forall client chunks fail w1,
         openaiClients self !! clientKey_name key = Some client ->
         openai_stream client (openAIRequest options false true) w
         = (Ok (chunks, fail), w1) ->
         map Some (fragments (fst (fst openai_run)))
         = List.filter truthy chunks)
  /\ (forall client events fail w1,
         anthropicClient self = Some client ->
         anthropic_stream client (anthropicRequest options false) w
         = (Ok (events, fail), w1) ->
         map Text_delta (fragments (fst (fst (streamAnthropic self options w))))
         = List.filter is_text_delta events).
Proof.
  cbv zeta. unfold streamOpenAI, streamAnthropic.
  split; [|split; [|split]].
  - destruct (openaiClients self !! clientKey_name key) as [client|];
      [|by constructor].
    destruct (openai_stream client _ w) as [[[chunks fail]|e] w1];
      cbn [fst fragments]; [apply omap_nonempty|by constructor].
  - destruct (openaiClients self !! clientKey_name key) as [client|];
      [|cbn; lia].
    destruct (openai_stream client _ w) as [[[chunks fail]|e] w1];
      cbn; lia.
  - intros client chunks fail w1 -> ->. cbn [fst fragments].
    induction chunks as [|[[|a text]|] chunks IH]; cbn [omap truthy];
      try exact IH; [reflexivity|].
    cbn. by rewrite <- IH.
  - intros client events fail w1 -> ->. cbn [fst fragments].
    induction events as [|[text|] events IH]; [reflexivity| |exact IH].
    cbn. by rewrite <- IH.
Qed.

End Streaming.

Lemma X11_streamComplete_ignores_the_prefix_of_an_unknown_model_witness :
  let nothing_detected (_ : string) := @None ModelInfo in
  let options := Scenario.ask "anthropic:claude-3-haiku-20240307" in
  ModelClient.streamComplete (net := Scenario.offline) (codec := Json.codec)
    nothing_detected ModelClient.new options tt
  = ModelClient.streamOpenAI (net := Scenario.offline) (codec := Json.codec)
      ModelClient.new options ModelClient.key_openai tt
  /\ ModelClient.complete (net := Scenario.offline) (codec := Json.codec)
       nothing_detected ModelClient.new options tt
     = ModelClient.completeAnthropic (net := Scenario.offline)
         ModelClient.new options tt.
Proof.
  cbv zeta.
  destruct (X11_streamComplete_ignores_the_prefix_of_an_unknown_model
              (net := Scenario.offline) (codec := Json.codec)
              (fun _ => None) ModelClient.new
              (Scenario.ask "anthropic:claude-3-haiku-20240307") tt eq_refl)
    as (Hstream & Hanthropic & _).
  split; [exact Hstream|]. exact (Hanthropic eq_refl).
Defined.

(** ** Model detector (src/models/detector.ts) *)

Section CapabilityFacts.
Import ModelDetector.

Lemma table_entry (entry : string * PartialCapabilities) :
  In entry MODEL_CAPABILITIES ->
  let caps := spread DEFAULT_CAPABILITIES (snd entry) in
  supportsTools caps = true
  /\ supportsStreaming caps = true
  /\ (16385 <= contextWindow caps)%Z
  /\ (4096 <= maxOutputTokens caps)%Z.
Proof.
  unfold MODEL_CAPABILITIES. cbn [In].
  intros H. repeat (destruct H as [<-|H]; [cbn; repeat split; lia|]).
  destruct H.
Qed.

Lemma prefix_refl (s : string) : String.prefix s s = true.
Proof.
  induction s as [|c s IH]; [reflexivity|].
  cbn [String.prefix]. by destruct (ascii_dec c c).
Qed.

Lemma includes_refl (s : string) : includes s s = true.
Proof. destruct s; cbn [includes]; by rewrite prefix_refl. Qed.

Lemma table_entry_own (entry : string * PartialCapabilities) :
  In entry MODEL_CAPABILITIES ->
  existsb (String.eqb (fst entry)) inherited = false.
Proof.
  unfold MODEL_CAPABILITIES. cbn [In].
  intros H. repeat (destruct H as [<-|H]; [reflexivity|]). destruct H.
Qed.

(** X13.  [getCapabilities] reports tool support and streaming support, a
    context window of at least 16385 tokens and an output limit of at
    least 2048 tokens for every model id - a model that the table does not
    know gets a window of 32768 - with one exception: for an id that is a
    property name of [Object.prototype], such as [constructor] or
    [toString], the lookup in the table finds the inherited property and
    the result is [DEFAULT_CAPABILITIES], without tool support. *)
Theorem X13_getCapabilities_bounds (modelId : string) :
  let caps := getCapabilities modelId in
  if existsb (String.eqb modelId) inherited
  then caps = DEFAULT_CAPABILITIES /\ supportsTools caps = false
  else
    supportsTools caps = true
    /\ supportsStreaming caps = true
    /\ (16385 <= contextWindow caps)%Z
    /\ (2048 <= maxOutputTokens caps)%Z
    /\ (find (fun entry => includes (fst entry) modelId) MODEL_CAPABILITIES
        = None ->
        contextWindow caps = 32768%Z /\ supportsVision caps = false).
Proof.
  cbv zeta. unfold getCapabilities, own.
  destruct (find (fun entry => String.eqb (fst entry) modelId)
              MODEL_CAPABILITIES) as [entry|] eqn:Hown.
  - apply find_some in Hown as [Hin Hkey].
    apply String.eqb_eq in Hkey. subst modelId.
    rewrite (table_entry_own entry Hin). cbn [option_map].
    destruct (table_entry entry Hin) as (Htools & Hstream & Hwindow & Hout).
    split; [exact Htools|]. split; [exact Hstream|].
    split; [exact Hwindow|]. split; [lia|].
    intros Hnone. pose proof (find_none _ _ Hnone entry Hin) as Hfree.
    cbn beta in Hfree. by rewrite includes_refl in Hfree.
  - cbn [option_map].
    destruct (existsb (String.eqb modelId) inherited); [done|].
    destruct (find (fun entry => includes (fst entry) modelId)
                MODEL_CAPABILITIES) as [entry|] eqn:Hpart.
    + apply find_some in Hpart as [Hin _].
      destruct (table_entry entry Hin) as (Htools & Hstream & Hwindow & Hout).
      split; [exact Htools|]. split; [exact Hstream|].
      split; [exact Hwindow|]. split; [lia|]. discriminate.
    + cbn. repeat split; try done; lia.
Qed.

End CapabilityFacts.

Section Deduplication.
Import ModelDetector.

Lemma existsb_eqb_In (x : string) (l : list string) :
  existsb (String.eqb x) l = true <-> In x l.
Proof.
  rewrite existsb_exists. split.
  - intros (y & Hy & Heq). apply String.eqb_eq in Heq. by subst.
  - intros Hx. exists x. by rewrite String.eqb_refl.
Qed.

Lemma uniqueModels_seen (models : list ModelInfo) :
  forall seen,
    let unique := uniqueModels seen models in
    NoDup (map (fun m => baseName (mi_name m)) unique)
    /\ (forall m, In m unique -> ~ In (baseName (mi_name m)) seen)
    /\ sublist unique models
    /\ (forall m,
           In m models ->
           In (baseName (mi_name m)) seen
           \/ In (baseName (mi_name m))
                (map (fun m => baseName (mi_name m)) unique)).
Proof.
  induction models as [|m models IH]; intros seen; cbv zeta.
  - cbn. repeat split; try done. by constructor.
  - cbn [uniqueModels].
    destruct (existsb (String.eqb (baseName (mi_name m))) seen) eqn:Hseen.
    + destruct (IH seen) as (Hnodup & Hfresh & Hsub & Hcover).
      split; [exact Hnodup|]. split; [exact Hfresh|].
      split; [by apply sublist_cons|].
      intros m' [<-|Hin]; [left; by apply existsb_eqb_In|by apply Hcover].
    + destruct (IH (baseName (mi_name m) :: seen))
        as (Hnodup & Hfresh & Hsub & Hcover).
      split; [|split; [|split]].
      * cbn [map]. apply NoDup_cons. split; [|exact Hnodup].
        intros Hin%list_elem_of_In.
        apply in_map_iff in Hin as (m' & Hbase & Hm').
        apply (Hfresh m' Hm'). left. by rewrite Hbase.
      * intros m' [<-|Hin].
        -- intros Hin%existsb_eqb_In. congruence.
        -- intros Hin'. apply (Hfresh m' Hin). by right.
      * by apply sublist_skip.
      * intros m' [<-|Hin]; [right; by left|].
        destruct (Hcover m' Hin) as [[Heq|Hold]|Hnew].
        -- right. left. exact Heq.
        -- by left.
        -- right. by right.
Qed.

(** Every model kept stands in the list behind models of other base names
    only. *)
Lemma uniqueModels_first (models : list ModelInfo) :
  forall seen m,
    In m (uniqueModels seen models) ->
    exists before after,
      models = before ++ m :: after
      /\ ~ In (baseName (mi_name m))
           (map (fun m' => baseName (mi_name m')) before).
Proof.
  induction models as [|m0 models IH]; intros seen m Hin; [done|].
  cbn [uniqueModels] in Hin.
  destruct (existsb (String.eqb (baseName (mi_name m0))) seen) eqn:Hseen.
  - destruct (IH seen m Hin) as (before & after & -> & Hfirst).
    exists (m0 :: before), after. split; [reflexivity|].
    intros [Heq|Hold]; [|by apply Hfirst].
    destruct (uniqueModels_seen (before ++ m :: after) seen)
      as (_ & Hfresh & _).
    apply (Hfresh m Hin). rewrite <- Heq. by apply existsb_eqb_In.
  - destruct Hin as [<-|Hin].
    + exists [], models. split; [reflexivity|by intros []].
    + destruct (IH _ m Hin) as (before & after & -> & Hfirst).
      exists (m0 :: before), after. split; [reflexivity|].
      intros [Heq|Hold]; [|by apply Hfirst].
      destruct (uniqueModels_seen (before ++ m :: after)
                  (baseName (mi_name m0) :: seen)) as (_ & Hfresh & _).
      apply (Hfresh m Hin). by left.
Qed.

(** X14.  The models that [detectOpenAI] returns have pairwise different
    base names (the first three dash-separated segments of the name): of
    the chat models listed under one base name, only the first is kept, in
    the order of the listing.  So the names kept are among the listed chat
    models in their order, each kept name stands in that list behind names
    of other base names only, and every listed chat model has its base
    name among the models kept.  When the listing fails, no model is
    returned. *)
Theorem X14_detectOpenAI_keeps_one_model_per_base_name (ids : list string) :
  let kept := fst (detectOpenAI (ids, None)) in
  let chat :=
    List.filter (fun id => existsb (fun cm => includes cm id) chatModels)
      ids in
  NoDup (map (fun m => baseName (mi_name m)) kept)
  /\ sublist (map mi_name kept) chat
  /\ (forall m,
         In m kept ->
         exists before after,
           chat = before ++ mi_name m :: after
           /\ forall id, In id before -> baseName id <> baseName (mi_name m))
  /\ (forall id,
         In id ids ->
         existsb (fun cm => includes cm id) chatModels = true ->
         In (baseName id) (map (fun m => baseName (mi_name m)) kept))
  /\ (forall e, fst (detectOpenAI (ids, Some e)) = []).
Proof.
  cbv zeta. unfold detectOpenAI. cbn [fst snd].
  set (chat := List.filter _ ids).
  match goal with
  | |- context [uniqueModels [] ?listed] => set (models := listed)
  end.
  assert (Hnames : map mi_name models = chat).
  { subst models. rewrite map_map. cbn [mi_name]. apply map_id. }
  destruct (uniqueModels_seen models []) as (Hnodup & _ & Hsub & Hcover).
  split; [exact Hnodup|]. split; [|split; [|split; [|done]]].
  - apply (fmap_sublist mi_name) in Hsub. by rewrite <- Hnames.
  - intros m Hin.
    destruct (uniqueModels_first models [] m Hin)
      as (before & after & Hsplit & Hfirst).
    exists (map mi_name before), (map mi_name after). split.
    + by rewrite <- Hnames, Hsplit, map_app.
    + intros id (m' & <- & Hm')%in_map_iff Heq. apply Hfirst.
      rewrite <- Heq. apply in_map_iff. by exists m'.
  - intros id Hid Hchat.
    assert (Hin : In {| mi_id := String.append "openai:" id;
                        mi_name := id;
                        mi_provider := openai;
                        mi_isLocal := false;
                        mi_capabilities := getCapabilities id;
                        mi_isAvailable := true |} models).
    { subst models. apply in_map_iff. exists id. split; [reflexivity|].
      subst chat. apply filter_In. by split. }
    by destruct (Hcover _ Hin) as [[]|Hkept].
Qed.

Lemma X14_detectOpenAI_keeps_one_model_per_base_name_witness :
  map mi_name
    (fst (ModelDetector.detectOpenAI
            (["gpt-4o"; "gpt-4o-2024-08-06"; "gpt-4o-mini";
              "gpt-4o-mini-2024-07-18"; "whisper-1"; "gpt-4-turbo";
              "gpt-4-turbo-preview"], None)))
  = ["gpt-4o"; "gpt-4o-2024-08-06"; "gpt-4o-mini"; "gpt-4-turbo"]
  /\ NoDup
       (map (fun m => ModelDetector.baseName (mi_name m))
          (fst (ModelDetector.detectOpenAI
                  (["gpt-4o"; "gpt-4o-2024-08-06"; "gpt-4o-mini";
                    "gpt-4o-mini-2024-07-18"; "whisper-1"; "gpt-4-turbo";
                    "gpt-4-turbo-preview"], None)))).
Proof.
  split; [reflexivity|].
  apply (X14_detectOpenAI_keeps_one_model_per_base_name
           ["gpt-4o"; "gpt-4o-2024-08-06"; "gpt-4o-mini";
            "gpt-4o-mini-2024-07-18"; "whisper-1"; "gpt-4-turbo";
            "gpt-4-turbo-preview"]).
Defined.

End Deduplication.

Section BestModels.
Import ModelDetector.

Lemma insert_by_window_head (m : ModelInfo) (sorted : list ModelInfo) :
  head (insert_by_window m sorted)
  = match head sorted with
    | Some x => if (window m <? window x)%Z then Some x else Some m
    | None => Some m
    end.
Proof.
  destruct sorted as [|x rest]; [reflexivity|].
  cbn [insert_by_window head]. fold (window m). fold (window x).
  by destruct (window m <? window x)%Z.
Qed.

(** The first model of the sorted list is a model of the list with the
    largest context window. *)
Lemma sort_head (models : list ModelInfo) :
  models <> [] ->
  exists best,
    head (sort models) = Some best
    /\ In best models
    /\ forall m, In m models -> (window m <= window best)%Z.
Proof.
  induction models as [|x models IH]; [done|]. intros _.
  unfold sort. cbn [fold_right]. fold (sort models).
  rewrite insert_by_window_head.
  destruct models as [|y models].
  - exists x. cbn. split; [reflexivity|]. split; [by left|].
    intros m [<-|[]]. lia.
  - destruct (IH ltac:(discriminate)) as (best & -> & Hin & Hmax).
    destruct (Z.ltb_spec (window x) (window best)).
    + exists best. split; [reflexivity|]. split; [by right|].
      intros m [<-|Hm]; [lia|by apply Hmax].
    + exists x. split; [reflexivity|]. split; [by left|].
      intros m [<-|Hm]; [lia|]. specialize (Hmax m Hm). lia.
Qed.

Lemma best_personal_model (self : t) :
  (getLocalModels self <> [] ->
   exists best,
     getBestPersonalModel self = Some best
     /\ mi_isLocal best = true
     /\ In best (getAllModels self)
     /\ forall m,
         In m (getAllModels self) -> mi_isLocal m = true ->
         (window m <= window best)%Z)
  /\ (getLocalModels self = [] ->
      match getBestPersonalModel self with
      | Some m =>
          mi_isLocal m = false /\ small m = true /\ In m (getAllModels self)
      | None =>
          forall m, In m (getAllModels self) -> small m = false
      end).
Proof.
  unfold getBestPersonalModel. split.
  - intros Hlocal.
    destruct (sort_head _ Hlocal) as (best & Hhead & Hin & Hmax).
    destruct (getLocalModels self) as [|x rest] eqn:Hmodels; [done|].
    exists best. split; [exact Hhead|].
    rewrite <- Hmodels in Hin, Hmax. unfold getLocalModels in Hin, Hmax.
    apply filter_In in Hin as [Hall Hbest].
    split; [exact Hbest|]. split; [exact Hall|].
    intros m Hm Hloc. apply Hmax. apply filter_In. by split.
  - intros Hnone. rewrite Hnone.
    destruct (find _ (getCloudModels self)) as [m|] eqn:Hfind.
    + apply find_some in Hfind as [Hin Hsmall].
      unfold getCloudModels in Hin. apply filter_In in Hin as [Hall Hcloud].
      split; [by apply negb_true_iff|]. by split.
    + intros m Hm. pose proof (find_none _ _ Hfind m) as Hnot.
      assert (Hcloud : mi_isLocal m = false).
      { destruct (mi_isLocal m) eqn:Hloc; [|reflexivity].
        assert (Hin : In m (getLocalModels self))
          by (apply filter_In; by split).
        by rewrite Hnone in Hin. }
      apply Hnot. unfold getCloudModels. apply filter_In.
      split; [exact Hm|]. by rewrite Hcloud.
Qed.

Lemma best_work_model (self : t) :
  match getBestWorkModel self with
  | Some m =>
      mi_isLocal m = false
      /\ In m (getAllModels self)
      /\ (preferred_for_work m = true
          \/ forall m', In m' (getCloudModels self) ->
                        preferred_for_work m' = false)
  | None => getCloudModels self = []
  end.
Proof.
  unfold getBestWorkModel.
  destruct (find _ (getCloudModels self)) as [m|] eqn:Hfind.
  - apply find_some in Hfind as [Hin Hpreferred].
    unfold getCloudModels in Hin. apply filter_In in Hin as [Hall Hcloud].
    split; [by apply negb_true_iff|]. split; [exact Hall|by left].
  - pose proof (find_none _ _ Hfind) as Hnone.
    destruct (getCloudModels self) as [|m rest] eqn:Hcloud; [reflexivity|].
    cbn [head].
    assert (Hin : In m (getCloudModels self)) by (rewrite Hcloud; by left).
    unfold getCloudModels in Hin. apply filter_In in Hin as [Hall Hm].
    split; [by apply negb_true_iff|]. split; [exact Hall|].
    right. exact Hnone.
Qed.

(** What [find] gives is the first element that passes the test. *)
Lemma find_first {A : Type} (test : A -> bool) (l : list A) (x : A) :
  find test l = Some x ->
  exists before after,
    l = before ++ x :: after
    /\ test x = true
    /\ forall y, In y before -> test y = false.
Proof.
  induction l as [|y l IH]; [done|]. cbn [find].
  destruct (test y) eqn:Hy.
  - intros [= <-]. exists [], l. by repeat split.
  - intros (before & after & -> & Hx & Hbefore)%IH.
    exists (y :: before), after. split; [reflexivity|]. split; [exact Hx|].
    intros y' [<-|Hin]; [exact Hy|by apply Hbefore].
Qed.

(** X15.  [getBestPersonalModel]: when a local model has been detected,
    the answer is a local model, and one with the largest context window
    among the local models - a cloud model is never chosen then. With no
    local model the answer is the first cloud model whose name holds
    [haiku] or [mini]: no cloud model before it in [getCloudModels] has
    such a name.  There is no answer when no cloud model has such a name,
    whatever other cloud models there are. *)
Theorem X15_getBestPersonalModel_prefers_local (self : t) :
  (getLocalModels self <> [] ->
   exists best,
     getBestPersonalModel self = Some best
     /\ mi_isLocal best = true
     /\ In best (getAllModels self)
     /\ forall m,
         In m (getAllModels self) -> mi_isLocal m = true ->
         (window m <= window best)%Z)
  /\ (getLocalModels self = [] ->
      match getBestPersonalModel self with
      | Some m =>
          mi_isLocal m = false /\ small m = true /\ In m (getAllModels self)
          /\ exists before after,
               getCloudModels self = before ++ m :: after
               /\ forall m', In m' before -> small m' = false
      | None =>
          forall m, In m (getAllModels self) -> small m = false
      end).
Proof.
  destruct (best_personal_model self) as [Hlocal Hcloud].
  split; [exact Hlocal|]. intros Hnone. specialize (Hcloud Hnone).
  unfold getBestPersonalModel in *. rewrite Hnone in *.
  change (find _ (getCloudModels self))
    with (find small (getCloudModels self)) in *.
  destruct (find small (getCloudModels self)) as [m|] eqn:Hfind;
    [|exact Hcloud].
  destruct Hcloud as (Hm & Hsmall & Hin).
  split; [exact Hm|]. split; [exact Hsmall|]. split; [exact Hin|].
  destruct (find_first _ _ _ Hfind) as (before & after & Hsplit & _ & Hfirst).
  by exists before, after.
Qed.

(** X16.  [getBestWorkModel] never answers with a local model: it answers
    with the first cloud model whose name holds [claude-3-5-sonnet] or
    [gpt-4o] - no cloud model before it in [getCloudModels] has such a
    name -, else, when no cloud model has such a name, with the first
    cloud model, and it has no answer exactly when no cloud model has been
    detected. *)
Theorem X16_getBestWorkModel_is_a_cloud_model (self : t) :
  match getBestWorkModel self with
  | Some m =>
      mi_isLocal m = false
      /\ In m (getAllModels self)
      /\ exists before after,
           getCloudModels self = before ++ m :: after
           /\ ((preferred_for_work m = true
                /\ forall m', In m' before -> preferred_for_work m' = false)
               \/ (before = []
                   /\ forall m', In m' (getCloudModels self) ->
                                 preferred_for_work m' = false))
  | None => getCloudModels self = []
  end.
Proof.
  pose proof (best_work_model self) as Hbest.
  unfold getBestWorkModel in *.
  change (find _ (getCloudModels self))
    with (find preferred_for_work (getCloudModels self)) in *.
  destruct (find preferred_for_work (getCloudModels self)) as [m|] eqn:Hfind.
  - destruct Hbest as (Hm & Hin & _).
    split; [exact Hm|]. split; [exact Hin|].
    destruct (find_first _ _ _ Hfind)
      as (before & after & Hsplit & Hpreferred & Hfirst).
    exists before, after. split; [exact Hsplit|]. by left.
  - pose proof (find_none _ _ Hfind) as Hnone.
    destruct (getCloudModels self) as [|m rest] eqn:Hcloud; [exact Hbest|].
    cbn [head] in *. destruct Hbest as (Hm & Hin & _).
    split; [exact Hm|]. split; [exact Hin|].
    exists [], rest. split; [reflexivity|]. right. by split.
Qed.

End BestModels.

Section DetectorCache.
Import ModelDetector.

Lemma map_get_set {V : Type} (key key' : string) (value : V)
  (entries : list (string * V)) :
  map_get key' (map_set key value entries)
  = if String.eqb key key' then Some value else map_get key' entries.
Proof.
  unfold map_get.
  induction entries as [|[k v] entries IH].
  - cbn. by destruct (String.eqb key key').
  - cbn [map_set]. destruct (String.eqb_spec k key) as [->|Hk].
    + cbn [find fst]. by destruct (String.eqb key key').
    + cbn [find fst]. destruct (String.eqb_spec k key') as [->|Hk'].
      * by rewrite (proj2 (String.eqb_neq key key')) by congruence.
      * exact IH.
Qed.

Lemma cache_models (results : list ModelInfo) :
  forall (cache : list (string * ModelInfo)) (id : string),
    map_get id
      (fold_left (fun cache model => map_set (mi_id model) model cache)
         results cache)
    = match last (List.filter (fun m => String.eqb (mi_id m) id) results) with
      | Some m => Some m
      | None => map_get id cache
      end.
Proof.
  induction results as [|m results IH]; intros cache id; [reflexivity|].
  cbn [fold_left List.filter]. rewrite IH, map_get_set.
  destruct (String.eqb (mi_id m) id); [|reflexivity].
  rewrite last_cons. by destruct (last _).
Qed.

(** X17.  [detectAll] only adds to the cache of detected models or
    replaces entries of it: a model detected once is still found by
    [getModel] after a later detection in which its provider fails or is
    disabled. Every model that a detection returns is found under its id
    afterwards (the last one returned under that id), and a detection that
    returns nothing leaves the cache as it was. *)
Theorem X17_detectAll_never_forgets (self : t)
  (lmstudioListing openaiListing : Listing)
  (anthropicValidation : Result unit) :
  let results :=
    fst (detectAll self lmstudioListing openaiListing anthropicValidation) in
  let self' :=
    snd (detectAll self lmstudioListing openaiListing anthropicValidation) in
  (forall id m,
      getModel self id = Some m -> exists m', getModel self' id = Some m')
  /\ (forall m,
         In m results ->
         exists m',
           getModel self' (mi_id m) = Some m'
           /\ In m' results /\ mi_id m' = mi_id m)
  /\ (results = [] -> self' = self).
Proof.
  cbv zeta. unfold detectAll, getModel. cbn [fst snd detectedModels].
  match goal with
  | |- context [fold_left _ ?found _] => generalize found
  end.
  intros results. split; [|split].
  - intros id m Hm. rewrite cache_models, Hm. destruct (last _); by eexists.
  - intros m Hm. rewrite cache_models.
    destruct (last (List.filter _ results)) as [m'|] eqn:Hlast.
    + exists m'. split; [reflexivity|].
      apply last_Some in Hlast as [l' Hl'].
      assert (Hin : In m' (List.filter (fun x => String.eqb (mi_id x) (mi_id m))
                             results)).
      { rewrite Hl'. apply in_or_app. right. by left. }
      apply filter_In in Hin as [Hin Hid]. split; [exact Hin|].
      by apply String.eqb_eq.
    + exfalso. apply last_None in Hlast.
      assert (Hin : In m (List.filter (fun x => String.eqb (mi_id x) (mi_id m))
                            results)).
      { apply filter_In. split; [exact Hm|apply String.eqb_refl]. }
      by rewrite Hlast in Hin.
  - intros ->. by destruct self.
Qed.

End DetectorCache.

(** ** Base agent (src/agents/base.ts) *)

Section HistoryFacts.
Context {World : Type}.

Lemma slice_last_length {A : Type} (n : nat) (l : list A) :
  length (BaseAgent.slice_last n l) = Nat.min n (length l).
Proof. unfold BaseAgent.slice_last. rewrite length_drop. lia. Qed.

Lemma history_addToHistory (a : BaseAgent.t World) (m : Message) :
  history_of (BaseAgent.addToHistory a m)
  = if (50 <? length (history_of a ++ [m]))%nat
    then BaseAgent.slice_last 30 (history_of a ++ [m])
    else history_of a ++ [m].
Proof. reflexivity. Qed.

(** X18.  [addToHistory] keeps the history at 50 messages at most: a
    history of fewer than 50 messages grows by the new message, and a
    history of 50 messages is cut to its 29 newest messages and the new
    one. The new message is always the last. So an agent whose history
    starts empty never holds more than 50 messages, however many are
    added. *)
Theorem X18_addToHistory_bounds_the_history (self : BaseAgent.t World)
  (message : Message) (messages : list Message) :
  ((length (history_of self) < 50)%nat ->
   history_of (BaseAgent.addToHistory self message)
   = history_of self ++ [message])
  /\ (length (history_of self) = 50%nat ->
      history_of (BaseAgent.addToHistory self message)
      = drop 21 (history_of self) ++ [message]
      /\ length (history_of (BaseAgent.addToHistory self message)) = 30%nat)
  /\ last (history_of (BaseAgent.addToHistory self message)) = Some message
  /\ (length
        (history_of
           (fold_left BaseAgent.addToHistory messages
              (BaseAgent.clearHistory self))) <= 50)%nat.
Proof.
  assert (Hstep : forall (a : BaseAgent.t World) m,
             (length (history_of a) <= 50)%nat ->
             (length (history_of (BaseAgent.addToHistory a m)) <= 50)%nat).
  { intros a m Ha. rewrite history_addToHistory.
    destruct (Nat.ltb_spec 50 (length (history_of a ++ [m])))
      as [Hlong|Hshort]; [|exact Hshort].
    rewrite slice_last_length. lia. }
  split; [|split; [|split]].
  - intros Hshort. rewrite history_addToHistory, length_app. cbn [length].
    by rewrite (proj2 (Nat.ltb_ge _ _)) by lia.
  - intros Hfull. rewrite history_addToHistory, length_app, Hfull.
    cbn [length Nat.add Nat.ltb Nat.leb].
    unfold BaseAgent.slice_last. rewrite length_app, Hfull.
    cbn [length Nat.add Nat.sub].
    rewrite drop_app_le by lia. split; [reflexivity|].
    rewrite length_app, length_drop, Hfull. reflexivity.
  - rewrite history_addToHistory.
    destruct (_ <? _)%nat; [|by rewrite last_snoc].
    unfold BaseAgent.slice_last. rewrite length_app. cbn [length].
    rewrite drop_app_le by lia. by rewrite last_snoc.
  - assert (Hall : forall a : BaseAgent.t World,
               (length (history_of a) <= 50)%nat ->
               (length
                  (history_of (fold_left BaseAgent.addToHistory messages a))
                <= 50)%nat).
    { induction messages as [|m messages IH]; intros a Ha; [exact Ha|].
      cbn [fold_left]. apply IH. by apply Hstep. }
    apply Hall. cbn. lia.
Qed.

End HistoryFacts.

Section ToolRegistry.
Context {World : Type}.



End ToolRegistry.

Section EngineEndings.
Context {World : Type} {rt : Runtime World}.
Variable self : BaseAgent.t World.

Lemma last_app_nonempty {A : Type} (l1 l2 : list A) (x : A) :
  last l2 = Some x -> last (l1 ++ l2) = Some x.
Proof.
  intros Hlast. apply last_Some in Hlast as [l' ->].
  by rewrite app_assoc, last_snoc.
Qed.

Lemma loop_ends (remaining : nat) :
  forall (iterations : nat) (task : Task) (messages : list Message)
         (w : World),
    loop_ending self remaining task
      (BaseAgent.loop self remaining iterations task messages w).
Proof.
  induction remaining as [|remaining IH]; intros iterations task messages w.
  - right. by repeat split.
  - destruct (present (BaseAgent.modelId self)) as [m|] eqn:Hm.
    + destruct (complete (BaseAgent.completionOptions self m messages) w)
        as [[answer|e] w1] eqn:Hanswer.
      * destruct (ModelClient.nonempty (toolCalls answer)) as [calls|]
          eqn:Hcalls.
        -- rewrite (loop_step_on self remaining iterations task messages w m
                      answer w1 calls Hm Hanswer Hcalls). cbv zeta.
           destruct (dispatch_runs self answer calls messages w1)
             as [Hnone Hdispatch]. cbv zeta in Hnone, Hdispatch.
           set (ran := BaseAgent.dispatch self answer calls messages w1) in *.
           assert (Hcarries : carries_tool_calls answer = true)
             by (by rewrite carries_tool_calls_nonempty, Hcalls).
           destruct Hdispatch
             as [(results & appended & Hout & _ & _ & Hcount)
                |(e & Hout & Habort & Hcount)]; rewrite Hout.
           ++ specialize (IH (S iterations) task (messages ++ appended)
                            (world_after ran)).
              set (rest := BaseAgent.loop self remaining (S iterations) task
                             (messages ++ appended) (world_after ran)) in *.
              unfold loop_ending, every_call_answered in *.
              rewrite trace_prepend, outcome_prepend.
              change (Emit_thinking (S iterations)
                      :: Completion m messages (Ok answer) :: trace ran)
                with ([Emit_thinking (S iterations);
                       Completion m messages (Ok answer)] ++ trace ran).
              rewrite <- !app_assoc.
              rewrite !completions_app, Hnone.
              destruct (emitted_app
                          [Emit_thinking (S iterations);
                           Completion m messages (Ok answer)]
                          (trace ran ++ trace rest)) as [-> ->].
              destruct (emitted_app (trace ran) (trace rest)) as [-> ->].
              cbn [completions List.filter is_completion app
                   tool_calls_emitted tool_results_emitted is_tool_call
                   is_tool_result length Nat.add].
              fold (completions (trace rest)).
              destruct (outcome rest) as [[result task']|e].
              ** destruct IH as [(m' & msgs & final & Hlast & Hfree & Hres)
                                |(Hres & Htask & Hlen & Hall & Hans)].
                 --- left. exists m', msgs, final. split; [|by split].
                     by apply (last_app_nonempty [_]).
                 --- right. split; [exact Hres|]. split; [exact Htask|].
                     cbn [length forallb answered_with_tool_calls].
                     rewrite Hlen, Hall, Hcarries.
                     split; [reflexivity|]. split; [reflexivity|]. lia.
              ** destruct IH as [(Hnomodel & _)
                                |[(m' & msgs & Hlast)
                                 |(m' & msgs & final & Hlast & Hfinal & He
                                   & Hans)]];
                   [congruence| |].
                 --- right. left. exists m', msgs.
                     by apply (last_app_nonempty [_]).
                 --- right. right. exists m', msgs, final.
                     split; [by apply (last_app_nonempty [_])|].
                     split; [exact Hfinal|]. split; [exact He|]. lia.
           ++ unfold loop_ending, every_call_answered.
              cbn [outcome trace fst snd].
              change (Emit_thinking (S iterations)
                      :: Completion m messages (Ok answer) :: trace ran)
                with ([Emit_thinking (S iterations);
                       Completion m messages (Ok answer)] ++ trace ran).
              rewrite !completions_app, Hnone.
              destruct (emitted_app
                          [Emit_thinking (S iterations);
                           Completion m messages (Ok answer)]
                          (trace ran)) as [-> ->].
              cbn [completions List.filter is_completion app
                   tool_calls_emitted tool_results_emitted is_tool_call
                   is_tool_result length Nat.add].
              right. right. exists m, messages, answer.
              split; [reflexivity|]. split; [exact Hcarries|].
              split; [|lia].
              destruct Habort as (? & ? & ? & ? & ? & ? & thrown & _ & _ & _
                                  & _ & He).
              exact (message_of_throws thrown e He).
        -- cbn [BaseAgent.loop].
           rewrite (bind_ok _ _ _ tt w [Emit_thinking (S iterations)])
             by reflexivity.
           pose proof (getCompletion_run self m messages w Hm) as Hget.
           rewrite Hanswer in Hget. cbn [fst snd] in Hget.
           rewrite (bind_ok _ _ _ _ _ _ Hget), prepend_prepend, Hcalls.
           left. exists m, messages, answer.
           split; [reflexivity|].
           split; [by rewrite carries_tool_calls_nonempty, Hcalls|].
           split; [reflexivity|]. by eexists.
      * cbn [BaseAgent.loop].
        rewrite (bind_ok _ _ _ tt w [Emit_thinking (S iterations)])
          by reflexivity.
        pose proof (getCompletion_run self m messages w Hm) as Hget.
        rewrite Hanswer in Hget. cbn [fst snd] in Hget.
        rewrite (bind_throw _ _ _ _ _ _ Hget).
        right. left. by exists m, messages.
    + cbn [BaseAgent.loop].
      rewrite (bind_ok _ _ _ tt w [Emit_thinking (S iterations)])
        by reflexivity.
      unfold BaseAgent.getCompletion. rewrite Hm.
      rewrite (bind_throw _ _ _ "No model available" w []) by reflexivity.
      left. by repeat split.
Qed.

Lemma completions_cons_other (e : Event) (t : list Event) :
  is_completion e = false -> completions (e :: t) = completions t.
Proof. intros He. unfold completions. cbn [List.filter]. by rewrite He. Qed.

Lemma execute_ends (task : Task) (w : World) :
  exists msgs,
    let run :=
      BaseAgent.loop self BaseAgent.maxIterations 0 task msgs
        (snd (generateId w)) in
    loop_ending self BaseAgent.maxIterations task run
    /\ completions (trace (BaseAgent.execute self task w))
       = completions (trace run)
    /\ (every_call_answered (trace (BaseAgent.execute self task w))
        <-> every_call_answered (trace run))
    /\ outcome (BaseAgent.execute self task w)
       = match outcome run with
         | Ok res => Ok (res, released self (now w))
         | Throw e =>
             Ok ((caught e,
                  BaseAgent.with_result task failed (task_completedAt task)
                    (caught e)),
                 released self (now w))
         end.
Proof.
  destruct (execute_run self task w) as (msgs & _ & Hrun).
  exists msgs. cbv zeta in *.
  split; [apply loop_ends|]. rewrite Hrun.
  destruct (outcome (BaseAgent.loop self BaseAgent.maxIterations 0 task msgs
                       (snd (generateId w)))) as [res|e].
  - repeat change (trace (?x, ?t)) with t.
    split; [by rewrite completions_cons_other|].
    split; [apply answered_started|reflexivity].
  - repeat change (trace (?x, ?t)) with t.
    split; [|split; [|reflexivity]].
    + rewrite completions_cons_other by reflexivity.
      rewrite completions_app. cbn. by rewrite app_nil_r.
    + by rewrite answered_started, answered_failed.
Qed.

Lemma execute_settles (task : Task) (w : World) :
  exists result status completedAt,
    outcome (BaseAgent.execute self task w)
    = Ok (result,
          BaseAgent.with_result task status completedAt result,
          released self (now w))
    /\ ((status = completed /\ tr_success result = true
         /\ exists time, completedAt = Some time)
        \/ (status = failed /\ tr_success result = false
            /\ completedAt = task_completedAt task
            /\ exists message, tr_error result = Some message)).
Proof.
  destruct (execute_ends task w) as (msgs & Hend & _ & _ & ->).
  cbv zeta in *. unfold loop_ending in Hend.
  destruct (outcome (BaseAgent.loop self BaseAgent.maxIterations 0 task msgs
                       (snd (generateId w)))) as [[result task']|e].
  - destruct Hend as [(m & sent & answer & _ & _ & -> & time & ->)
                     |(-> & -> & _)].
    + eexists _, completed, (Some time). split; [reflexivity|].
      left. repeat split. by exists time.
    + eexists _, failed, _. split; [reflexivity|].
      right. repeat split. by eexists.
  - eexists (caught e), failed, _. split; [reflexivity|].
    right. repeat split. by eexists.
Qed.

(** X20.  [execute] always returns, and it leaves the agent inactive,
    without a current task, with the time of the start as its last
    activity, and with its history, tools, model and configuration as they
    were. The task leaves with the result recorded in it and with status
    [completed] for a successful result or [failed] for a failed one -
    never [in_progress] - and otherwise unchanged; only a completed task
    gets a completion time. *)
Theorem X20_execute_releases_the_agent_and_settles_the_task
  (task : Task) (w : World) :
  exists result status completedAt,
    outcome (BaseAgent.execute self task w)
    = Ok (result,
          BaseAgent.with_result task status completedAt result,
          released self (now w))
    /\ BaseAgent.state (released self (now w))
       = {| BaseAgent.st_id := BaseAgent.st_id (BaseAgent.state self);
            BaseAgent.isActive := false;
            BaseAgent.currentTask := None;
            BaseAgent.lastActivity := Some (now w);
            BaseAgent.conversationHistory := history_of self |}
    /\ BaseAgent.config (released self (now w)) = BaseAgent.config self
    /\ BaseAgent.tools (released self (now w)) = BaseAgent.tools self
    /\ BaseAgent.modelId (released self (now w)) = BaseAgent.modelId self
    /\ ((status = completed /\ tr_success result = true
         /\ exists time, completedAt = Some time)
        \/ (status = failed /\ tr_success result = false
            /\ completedAt = task_completedAt task
            /\ exists message, tr_error result = Some message)).
Proof.
  destruct (execute_settles task w)
    as (result & status & completedAt & Hrun & Hstatus).
  exists result, status, completedAt. by repeat split.
Qed.

Lemma last_completion (t : list Event) (e : Event) :
  last (completions t) = Some e -> is_completion e = true.
Proof.
  intros Hlast. apply last_Some in Hlast as [l' Hl'].
  assert (Hin : In e (completions t)).
  { rewrite Hl'. apply in_or_app. right. by left. }
  unfold completions in Hin. by apply filter_In in Hin as [_ He].
Qed.

(** X21.  What [execute] returns is decided by the last completion that it
    asked for.  If that completion came back without tool calls, the result
    is successful and its output is the content of the completion.  If it
    threw, the result is failed with the error thrown.  If it came back
    with tool calls, then either it was the tenth, every tool call got a
    result, and the result is failed with [Max iterations reached without
    completion]; or a tool call of it got no result, because its tool
    threw [null] or [undefined], and the result is failed with the
    [TypeError] of reading the message of that value.  And if no
    completion was asked for at all, the agent has no model and the result
    is failed with [No model available]. *)
Theorem X21_execute_is_decided_by_the_last_completion
  (task : Task) (w : World) :
  let run := BaseAgent.execute self task w in
  exists result task' self',
    outcome run = Ok (result, task', self')
    /\ match last (completions (trace run)) with
       | Some (Completion m msgs (Ok answer)) =>
           if carries_tool_calls answer
           then (result = max_iterations_result
                 /\ length (completions (trace run)) = 10%nat
                 /\ every_call_answered (trace run))
                \/ (exists e,
                       result = caught e
                       /\ reads_message_of_nothing e
                       /\ ~ every_call_answered (trace run))
           else result = answered_result answer
       | Some (Completion m msgs (Throw e)) => result = caught e
       | Some _ => False
       | None =>
           result = caught "No model available"
           /\ present (BaseAgent.modelId self) = None
       end.
Proof.
  cbv zeta.
  destruct (execute_ends task w) as (msgs & Hend & -> & Hanswered & ->).
  cbv zeta in *. unfold loop_ending in Hend.
  set (run := BaseAgent.loop self BaseAgent.maxIterations 0 task msgs
                (snd (generateId w))) in *.
  destruct (outcome run) as [[result task']|e].
  - eexists _, _, _. split; [reflexivity|].
    destruct Hend as [(m & sent & answer & -> & -> & -> & _)
                     |(-> & _ & Hcount & Hall & Hans)]; [reflexivity|].
    destruct (last (completions (trace run))) as [ev|] eqn:Hlast.
    + pose proof (last_completion _ _ Hlast) as Hev.
      apply last_Some in Hlast as [l' Hl']. rewrite Hl' in Hall.
      rewrite forallb_app in Hall. apply andb_prop in Hall as [_ Hall].
      cbn [forallb] in Hall. rewrite andb_true_r in Hall.
      destruct ev as [| | | | | | |m sent [answer|e]|]; try discriminate.
      cbn [answered_with_tool_calls] in Hall. rewrite Hall.
      left. split; [reflexivity|]. split; [exact Hcount|].
      by apply Hanswered.
    + apply last_None in Hlast. rewrite Hlast in Hcount. discriminate.
  - eexists _, _, _. split; [reflexivity|].
    destruct Hend as [(Hnone & -> & ->)
                     |[(m & sent & ->)
                      |(m & sent & answer & -> & -> & He & Hans)]];
      [done|done|].
    right. exists e. split; [reflexivity|]. split; [exact He|].
    intros H. by apply Hans, Hanswered.
Qed.

End EngineEndings.

Section AgentInitialisation.
Import ModelDetector.
Context {World : Type}.
Variable registerTools : BaseAgent.t World -> BaseAgent.t World.
Hypothesis registerTools_keeps_the_model :
  forall agent,
    BaseAgent.modelId (registerTools agent) = BaseAgent.modelId agent.

(** X22.  [initialize] gives a work agent a cloud model and never a local
    one, and gives a personal agent a local model whenever one has been
    detected, so that a personal agent runs on a cloud model only when
    there is no local model. With no suitable model the agent keeps the
    model it had. (The hook [registerTools] of the subclass is taken not
    to touch the model, as is the case for every subclass.) *)
Theorem X22_initialize_chooses_the_model_by_agent_type
  (detector : ModelDetector.t) (self : BaseAgent.t World) :
  let chosen :=
    BaseAgent.modelId (fst (Agents.initialize registerTools detector self)) in
  match BaseAgent.cfg_type (BaseAgent.config self) with
  | work =>
      (exists m,
          chosen = Some (mi_id m)
          /\ In m (getAllModels detector) /\ mi_isLocal m = false)
      \/ (chosen = BaseAgent.modelId self /\ getCloudModels detector = [])
  | personal =>
      (getLocalModels detector <> [] ->
       exists m,
         chosen = Some (mi_id m)
         /\ In m (getAllModels detector) /\ mi_isLocal m = true)
      /\ (getLocalModels detector = [] ->
          (exists m,
              chosen = Some (mi_id m)
              /\ In m (getAllModels detector)
              /\ mi_isLocal m = false /\ small m = true)
          \/ chosen = BaseAgent.modelId self)
  end.
Proof.
  cbv zeta. unfold Agents.initialize.
  destruct (BaseAgent.cfg_type (BaseAgent.config self)).
  - pose proof (best_work_model detector) as Hbest.
    destruct (getBestWorkModel detector) as [m|]; cbn [fst];
      rewrite registerTools_keeps_the_model.
    + left. exists m. by destruct Hbest as (Hcloud & Hin & _).
    + by right.
  - destruct (best_personal_model detector) as [Hlocal Hcloud]. split.
    + intros Hsome. destruct (Hlocal Hsome) as (best & -> & Hbest & Hin & _).
      cbn [fst]. rewrite registerTools_keeps_the_model. by exists best.
    + intros Hnone. specialize (Hcloud Hnone).
      destruct (getBestPersonalModel detector) as [m|]; cbn [fst];
        rewrite registerTools_keeps_the_model.
      * left. exists m. by destruct Hcloud as (? & ? & ?).
      * by right.
Qed.

End AgentInitialisation.

Lemma X22_initialize_chooses_the_model_by_agent_type_witness :
  (forall agent : BaseAgent.t nat,
      BaseAgent.modelId
        (Agents.registerAll (Agents.GitHubAgent_tools (rt := Scenario.tidy))
           agent)
      = BaseAgent.modelId agent)
  /\ exists m,
      BaseAgent.modelId
        (fst (Agents.initialize
                (Agents.registerAll
                   (Agents.GitHubAgent_tools (rt := Scenario.tidy)))
                detector_with_both
                (Agents.GitHubAgent (fun _ => "You are the GitHub Agent."))))
      = Some (mi_id m)
      /\ In m (ModelDetector.getAllModels detector_with_both)
      /\ mi_isLocal m = false.
Proof.
  assert (Hkeeps :
            forall agent : BaseAgent.t nat,
              BaseAgent.modelId
                (Agents.registerAll
                   (Agents.GitHubAgent_tools (rt := Scenario.tidy)) agent)
              = BaseAgent.modelId agent) by (intros agent; reflexivity).
  split; [exact Hkeeps|].
  destruct (X22_initialize_chooses_the_model_by_agent_type
              (Agents.registerAll
                 (Agents.GitHubAgent_tools (rt := Scenario.tidy)))
              Hkeeps detector_with_both
              (Agents.GitHubAgent (fun _ => "You are the GitHub Agent.")))
    as [Hcloud|[_ Hnone]].
  - exact Hcloud.
  - vm_compute in Hnone. discriminate.
Defined.

Section MockTools.
Context {World : Type} {rt : Runtime World}.
Variable defaultSystemPrompt : AgentRole -> string.

Lemma mock_tools (tl : Tool World) :
  In tl (flat_map snd (Agents.agentClasses defaultSystemPrompt)) ->
  forall params w,
    match execute tl params w with
    | (Returned result, w1) =>
        params <> JNull
        /\ toolCallId result = fst (generateId w)
        /\ success result = true
        /\ (exists text, output result = Some (String "[" text))
        /\ w1 = snd (generateId w)
    | (Raised thrown, w1) =>
        params = JNull
        /\ (exists key,
               thrown
               = Thrown_error
                   (String.append "Cannot read properties of null (reading '"
                      (String.append key "')")))
        /\ w1 = snd (generateId w)
    end.
Proof.
  unfold Agents.agentClasses. cbn [flat_map snd app In].
  intros Htool params w.
  repeat (destruct Htool as [<-|Htool];
          [cbn [execute Agents.tool]; unfold Agents.mock;
           destruct (generateId w) as [id w1]; cbn [fst snd];
           destruct params; cbn;
           try (split; [reflexivity|]; split; [by eexists|reflexivity]);
           try (split; [discriminate|]; split; [reflexivity|];
                split; [reflexivity|]; split; [by eexists|reflexivity])|]).
  destruct Htool.
Qed.

(** X23.  The result of a mock tool of the specialized agents does not
    carry the id of the tool call that it answers: its [toolCallId] is an
    id generated for the result, and that id is what the tool message sent
    back to an OpenAI-style provider names as its [tool_call_id]. Only a
    call that fails keeps the id of the call: such a tool throws exactly
    when its arguments are [null], and the engine then reports the
    [TypeError] under the id of the call. *)
Theorem X23_mock_tool_results_carry_a_generated_id
  {codec : JsonCodec} (self : BaseAgent.t World) (tl : Tool World)
  (toolCall : ToolCall) (w : World) :
  In tl (flat_map snd (Agents.agentClasses defaultSystemPrompt)) ->
  map_get (tc_name toolCall) (BaseAgent.tools self) = Some tl ->
  exists result,
    BaseAgent.executeTool self toolCall w
    = (Ok result, snd (generateId w), [])
    /\ (tc_arguments toolCall <> JNull ->
        success result = true
        /\ toolCallId result = fst (generateId w)
        /\ forall id timestamp,
            exists text,
              ModelClient.messageToOpenAI
                (BaseAgent.tool_message result id timestamp)
              = ModelClient.OpenAI_tool (fst (generateId w)) text)
    /\ (tc_arguments toolCall = JNull ->
        exists key,
          result
          = failure toolCall
              (String.append "Cannot read properties of null (reading '"
                 (String.append key "')"))).
Proof.
  intros Htool Hregistered.
  pose proof (mock_tools tl Htool (tc_arguments toolCall) w) as Hrun.
  rewrite executeTool_run, Hregistered.
  destruct (execute tl (tc_arguments toolCall) w) as [[result|e] w1].
  - destruct Hrun as (Hparams & Hid & Hsuccess & [text Houtput] & ->).
    exists result. split; [reflexivity|]. split; [|done].
    intros _. split; [exact Hsuccess|]. split; [exact Hid|].
    intros id timestamp. eexists.
    unfold ModelClient.messageToOpenAI, BaseAgent.tool_message.
    cbn [msg_role msg_toolResults msg_content ModelClient.firstToolCallId].
    by rewrite Hid.
  - destruct Hrun as (Hparams & [key ->] & ->).
    eexists. split; [reflexivity|]. split; [done|].
    intros _. by exists key.
Qed.

End MockTools.

Lemma X23_mock_tool_results_carry_a_generated_id_witness :
  exists result,
    BaseAgent.executeTool github_agent Scenario.call_a 0%nat
    = (Ok result, snd (generateId (Runtime := Scenario.tidy) 0%nat), [])
    /\ toolCallId result <> tc_id Scenario.call_a
    /\ output result
       = Some "[Mock] Listed PRs for tjdoomer/Hemingway with state: open".
Proof.
  destruct (X23_mock_tool_results_carry_a_generated_id
              (rt := Scenario.tidy) (fun _ => "You are the GitHub Agent.")
              (codec := Json.codec) github_agent list_pull_requests_tool
              Scenario.call_a 0%nat)
    as (result & Hrun & Hok & _).
  - left. reflexivity.
  - vm_compute. reflexivity.
  - exists result. split; [exact Hrun|].
    destruct (Hok ltac:(discriminate)) as (_ & Hid & _).
    split.
    + rewrite Hid. vm_compute. discriminate.
    + vm_compute in Hrun. by injection Hrun as <-.
Defined.

(** ** Agent registry (src/agents/registry.ts) *)

Section RegistryLists.
Context {World : Type}.

Lemma findIndex_app (p : BaseAgent.t World -> bool)
  (before rest : list (BaseAgent.t World)) (x : BaseAgent.t World) :
  p x = true ->
  AgentRegistry.same_nat
    (AgentRegistry.findIndex p (before ++ x :: rest)) (length before)
  = negb (existsb p before).
Proof.
  intros Hx.
  assert (Hgen :
            forall n,
              AgentRegistry.same_nat
                (option_map (Nat.add n)
                   (AgentRegistry.findIndex p (before ++ x :: rest)))
                (n + length before)
              = negb (existsb p before)).
  { induction before as [|y before IH]; intros n.
    - cbn. rewrite Hx. cbn. by rewrite Nat.add_0_r, Nat.eqb_refl.
    - cbn [app AgentRegistry.findIndex existsb length].
      destruct (p y) eqn:Hy.
      + cbn. rewrite Nat.add_0_r.
        by rewrite (proj2 (Nat.eqb_neq _ _)) by lia.
      + cbn [orb]. rewrite <- (IH (S n)).
        replace (S n + length before)%nat with (n + S (length before))%nat
          by lia.
        destruct (AgentRegistry.findIndex p (before ++ x :: rest)); cbn;
          [|reflexivity].
        by replace (n + S n0)%nat with (S (n + n0)) by lia. }
  specialize (Hgen 0%nat). cbn [Nat.add] in Hgen.
  by destruct (AgentRegistry.findIndex p (before ++ x :: rest)).
Qed.

Lemma agents_of_type_from (type : AgentType)
  (rest : list (BaseAgent.t World)) :
  forall (before : list (BaseAgent.t World)) (seen : list string),
    (forall id, In id seen <-> In id (map agent_id before)) ->
    AgentRegistry.filter_from
      (fun agent index =>
         AgentRegistry.same_type
           (BaseAgent.cfg_type (BaseAgent.config agent)) type
         && AgentRegistry.same_nat
              (AgentRegistry.findIndex
                 (fun a => String.eqb (BaseAgent.cfg_id (BaseAgent.config a))
                             (BaseAgent.cfg_id (BaseAgent.config agent)))
                 (before ++ rest))
              index)
      (length before) rest
    = List.filter (of_type type) (AgentRegistry.unseen seen rest).
Proof.
  induction rest as [|x rest IH]; intros before seen Hseen; [reflexivity|].
  cbn [AgentRegistry.filter_from AgentRegistry.unseen].
  rewrite findIndex_app by apply String.eqb_refl.
  assert (Hmet :
            existsb (fun a => String.eqb (BaseAgent.cfg_id (BaseAgent.config a))
                                (BaseAgent.cfg_id (BaseAgent.config x)))
              before
            = existsb (String.eqb (BaseAgent.cfg_id (BaseAgent.config x)))
                seen).
  { apply eq_true_iff_eq. rewrite !existsb_exists. split.
    - intros (a & Ha & Heq). apply String.eqb_eq in Heq.
      exists (agent_id x). split; [|apply String.eqb_refl].
      apply Hseen. replace (agent_id x) with (agent_id a) by exact Heq.
      apply (in_map agent_id before a Ha).
    - intros (id & Hid & Heq). apply String.eqb_eq in Heq. subst id.
      apply Hseen in Hid. apply in_map_iff in Hid as (a & Ha & Hin).
      exists a. split; [exact Hin|]. unfold agent_id in Ha.
      rewrite Ha. apply String.eqb_refl. }
  rewrite Hmet.
  assert (Hnext : before ++ x :: rest = (before ++ [x]) ++ rest)
    by (by rewrite <- app_assoc).
  assert (Hlength : S (length before) = length (before ++ [x]))
    by (rewrite length_app; cbn; lia).
  destruct (existsb (String.eqb (BaseAgent.cfg_id (BaseAgent.config x))) seen)
    eqn:Hold.
  - rewrite andb_false_r. rewrite Hnext, Hlength. apply IH.
    intros id. rewrite map_app, in_app_iff, <- Hseen. cbn [map In].
    split; [by left|]. intros [Hid|[<-|[]]]; [exact Hid|].
    apply existsb_exists in Hold as (id & Hid & Heq).
    apply String.eqb_eq in Heq. unfold agent_id. by rewrite Heq.
  - rewrite andb_true_r. cbn [List.filter]. unfold of_type at 1, agent_type.
    rewrite Hnext, Hlength.
    rewrite (IH (before ++ [x])
               (BaseAgent.cfg_id (BaseAgent.config x) :: seen)).
    + by destruct (AgentRegistry.same_type _ type).
    + intros id. rewrite map_app, in_app_iff, <- Hseen. cbn [map In].
      unfold agent_id. tauto.
Qed.

Lemma unseen_ids (arr : list (BaseAgent.t World)) :
  forall seen,
    NoDup (map agent_id (AgentRegistry.unseen seen arr))
    /\ forall agent,
        In agent (AgentRegistry.unseen seen arr) ->
        ~ In (agent_id agent) seen.
Proof.
  induction arr as [|x arr IH]; intros seen.
  - split; [constructor|done].
  - cbn [AgentRegistry.unseen]. fold (agent_id x).
    destruct (existsb (String.eqb (agent_id x)) seen) eqn:Hseen;
      [apply IH|].
    destruct (IH (agent_id x :: seen)) as [Hnodup Hfresh]. split.
    + cbn [map]. apply NoDup_cons. split; [|exact Hnodup].
      intros Hin%list_elem_of_In.
      apply in_map_iff in Hin as (a & Hid & Ha).
      apply (Hfresh a Ha). left. by rewrite Hid.
    + intros agent [<-|Hin].
      * intros Hin. apply Bool.not_true_iff_false in Hseen. apply Hseen.
        apply existsb_exists. exists (agent_id x).
        split; [exact Hin|apply String.eqb_refl].
      * intros Hin'. apply (Hfresh agent Hin). by right.
Qed.

Lemma types_partition (l : list (BaseAgent.t World)) :
  (length (List.filter (of_type work) l)
   + length (List.filter (of_type personal) l))%nat
  = length l.
Proof.
  induction l as [|a l IH]; [reflexivity|].
  cbn [List.filter].
  destruct (of_type work a) eqn:Hwork, (of_type personal a) eqn:Hpersonal;
    cbn [length]; try lia;
    unfold of_type in Hwork, Hpersonal; destruct (agent_type a); discriminate.
Qed.

(** X24.  [getWorkAgents] and [getPersonalAgents], which look for the
    first index of an id, and [getAllAgents], which keeps a set of the ids
    it has met, agree: the work agents are the agents of [getAllAgents]
    that have type [work], the personal agents those that have type
    [personal], in the same order; no id occurs twice in [getAllAgents],
    and every agent is in exactly one of the two lists. *)
Theorem X24_agent_lists_agree (self : AgentRegistry.t World) :
  AgentRegistry.getWorkAgents self
  = List.filter (of_type work) (AgentRegistry.getAllAgents self)
  /\ AgentRegistry.getPersonalAgents self
     = List.filter (of_type personal) (AgentRegistry.getAllAgents self)
  /\ NoDup (map agent_id (AgentRegistry.getAllAgents self))
  /\ length (AgentRegistry.getWorkAgents self)
     + length (AgentRegistry.getPersonalAgents self)
     = length (AgentRegistry.getAllAgents self).
Proof.
  assert (Hlists :
            forall type,
              AgentRegistry.agents_of_type self type
              = List.filter (of_type type) (AgentRegistry.getAllAgents self)).
  { intros type. unfold AgentRegistry.agents_of_type.
    apply (agents_of_type_from type (AgentRegistry.values self) [] []).
    done. }
  unfold AgentRegistry.getWorkAgents, AgentRegistry.getPersonalAgents.
  rewrite !Hlists. split; [reflexivity|]. split; [reflexivity|].
  split; [apply unseen_ids|]. apply types_partition.
Qed.

End RegistryLists.

Section RegistryInitialisation.
Context {World : Type} {rt : Runtime World}.
Variable defaultSystemPrompt : AgentRole -> string.
Variable detector : ModelDetector.t.

Lemma registerAll_config (toRegister : list (Tool World)) :
  forall agent : BaseAgent.t World,
    BaseAgent.config (Agents.registerAll toRegister agent)
    = BaseAgent.config agent.
Proof.
  unfold Agents.registerAll.
  induction toRegister as [|tl toRegister IH]; intros agent; [reflexivity|].
  cbn [fold_left]. by rewrite IH.
Qed.

Lemma initialize_config (toRegister : list (Tool World))
  (agent : BaseAgent.t World) :
  BaseAgent.config
    (fst (Agents.initialize (Agents.registerAll toRegister) detector agent))
  = BaseAgent.config agent.
Proof.
  unfold Agents.initialize.
  destruct (match BaseAgent.cfg_type (BaseAgent.config agent) with
            | work => ModelDetector.getBestWorkModel detector
            | personal => ModelDetector.getBestPersonalModel detector
            end); cbn [fst]; by rewrite registerAll_config.
Qed.

Lemma register_step (self : AgentRegistry.t World)
  (lines : list ModelDetector.LogLine)
  (class : BaseAgent.t World * list (Tool World)) :
  exists agent line,
    BaseAgent.config agent = BaseAgent.config (fst class)
    /\ AgentRegistry.register detector (self, lines) class
       = ({| AgentRegistry.objects := AgentRegistry.objects self ++ [agent];
             AgentRegistry.agents :=
               map_set
                 (AgentRegistry.role_name (agent_role (fst class)))
                 (length (AgentRegistry.objects self))
                 (map_set (agent_id (fst class))
                    (length (AgentRegistry.objects self))
                    (AgentRegistry.agents self));
             AgentRegistry.initialized := AgentRegistry.initialized self |},
          lines ++ [line]).
Proof.
  unfold AgentRegistry.register.
  pose proof (initialize_config (snd class) (fst class)) as Hconfig.
  destruct (Agents.initialize _ detector (fst class)) as [agent line].
  cbn [fst] in Hconfig. exists agent, line. split; [exact Hconfig|].
  unfold agent_role, agent_id. by rewrite Hconfig.
Qed.

Lemma register_all (classes : list (BaseAgent.t World * list (Tool World))) :
  forall acc : AgentRegistry.t World * list ModelDetector.LogLine,
    let filled :=
      fst (fold_left (AgentRegistry.register detector) classes acc) in
    AgentRegistry.agents filled
    = keys (length (AgentRegistry.objects (fst acc))) classes
        (AgentRegistry.agents (fst acc))
    /\ map BaseAgent.config (AgentRegistry.objects filled)
       = map BaseAgent.config (AgentRegistry.objects (fst acc))
         ++ map (fun class => BaseAgent.config (fst class)) classes.
Proof.
  induction classes as [|class classes IH]; intros [self lines]; cbv zeta.
  - cbn. by rewrite app_nil_r.
  - cbn [fold_left].
    destruct (register_step self lines class) as (agent & line & Hconfig & ->).
    destruct (IH ({| AgentRegistry.objects :=
                       AgentRegistry.objects self ++ [agent];
                     AgentRegistry.agents :=
                       map_set
                         (AgentRegistry.role_name (agent_role (fst class)))
                         (length (AgentRegistry.objects self))
                         (map_set (agent_id (fst class))
                            (length (AgentRegistry.objects self))
                            (AgentRegistry.agents self));
                     AgentRegistry.initialized :=
                       AgentRegistry.initialized self |},
                  lines ++ [line])) as [Hkeys Hconfigs].
    cbv zeta in Hkeys, Hconfigs. rewrite Hkeys, Hconfigs.
    cbn [fst AgentRegistry.objects AgentRegistry.agents].
    rewrite length_app, map_app. cbn [length keys map].
    rewrite Hconfig, <- app_assoc.
    by replace (length (AgentRegistry.objects self) + 1)%nat
      with (S (length (AgentRegistry.objects self))) by lia.
Qed.

Lemma initialized_registry :
  let registry :=
    fst (AgentRegistry.initialize defaultSystemPrompt detector
           AgentRegistry.new) in
  AgentRegistry.agents registry
  = [("github-agent", 0); ("github", 0); ("coding-agent", 1); ("coding", 1);
     ("slack-agent", 2); ("slack", 2); ("email-agent", 3); ("email", 3);
     ("research-agent", 4); ("research", 4);
     ("calendar-agent", 5); ("calendar", 5);
     ("creative-agent", 6); ("creative", 6); ("chat-agent", 7); ("chat", 7);
     ("social-agent", 8); ("social", 8)]%nat
  /\ map card (AgentRegistry.objects registry) = cards.
Proof.
  cbv zeta. unfold AgentRegistry.initialize.
  cbn [AgentRegistry.initialized AgentRegistry.new].
  destruct (register_all (Agents.agentClasses defaultSystemPrompt)
              (AgentRegistry.new, [])) as [Hkeys Hconfigs].
  cbv zeta in Hkeys, Hconfigs.
  destruct (fold_left _ _ _) as [filled lines].
  cbn [fst AgentRegistry.agents AgentRegistry.objects] in *.
  split.
  - rewrite Hkeys. reflexivity.
  - transitivity
      (map (fun c => (BaseAgent.cfg_id c, BaseAgent.cfg_role c,
                      BaseAgent.cfg_type c))
         (map BaseAgent.config (AgentRegistry.objects filled)));
      [by rewrite map_map|].
    rewrite Hconfigs. reflexivity.
Qed.

Lemma registry_object (address : nat) (id : string) (role : AgentRole)
  (type : AgentType) :
  let registry :=
    fst (AgentRegistry.initialize defaultSystemPrompt detector
           AgentRegistry.new) in
  cards !! address = Some (id, role, type) ->
  exists agent,
    AgentRegistry.objects registry !! address = Some agent
    /\ agent_id agent = id /\ agent_role agent = role
    /\ agent_type agent = type.
Proof.
  cbv zeta. destruct initialized_registry as [_ Hcards].
  cbv zeta in Hcards. rewrite <- Hcards.
  change (map ?f ?l) with (f <$> l). rewrite list_lookup_fmap.
  intros (agent & Hagent & Hcard)%fmap_Some. exists agent.
  split; [exact Hagent|]. by injection Hcard as -> -> ->.
Qed.

Lemma registry_addresses (key : string) (address : nat) :
  let registry :=
    fst (AgentRegistry.initialize defaultSystemPrompt detector
           AgentRegistry.new) in
  map_get key (AgentRegistry.agents registry) = Some address ->
  exists agent, AgentRegistry.objects registry !! address = Some agent.
Proof.
  cbv zeta. destruct initialized_registry as [Hkeys Hroles].
  cbv zeta in Hkeys, Hroles. rewrite Hkeys. unfold map_get.
  destruct (find _ _) as [[k a]|] eqn:Hfind; [|discriminate].
  apply find_some in Hfind as [Hin _]. cbn [option_map snd].
  intros [= <-]. apply lookup_lt_is_Some_2.
  apply (f_equal length) in Hroles. rewrite length_map in Hroles.
  rewrite Hroles. cbn [In length cards] in *.
  repeat (destruct Hin as [[= <- <-]|Hin]; [lia|]).
  destruct Hin.
Qed.

(** X25.  After [initialize], [findAgentForTask] finds an agent for every
    task. It goes by the category of the task alone: a task whose category
    names the role of one of the nine agents goes to that agent, whatever
    the type of the task is - a personal task of category [github] goes to
    the GitHub agent, a work agent. The type decides only for a task whose
    category is no key of the registry: the coding agent for a work task,
    the chat agent for a personal one. *)
Theorem X25_findAgentForTask_goes_by_category (task : Task) :
  let registry :=
    fst (AgentRegistry.initialize defaultSystemPrompt detector
           AgentRegistry.new) in
  (exists agent, AgentRegistry.findAgentForTask registry task = Some agent)
  /\ (forall role,
         In role roles ->
         AgentRegistry.category_of task
         = Some (AgentRegistry.role_name role) ->
         exists agent,
           AgentRegistry.findAgentForTask registry task = Some agent
           /\ agent_role agent = role)
  /\ (AgentRegistry.category_of task = Some "github" ->
      exists agent,
        AgentRegistry.findAgentForTask registry task = Some agent
        /\ agent_role agent = github /\ agent_type agent = work)
  /\ (match AgentRegistry.category_of task with
      | Some category => AgentRegistry.getAgent registry category = None
      | None => True
      end ->
      exists agent,
        AgentRegistry.findAgentForTask registry task = Some agent
        /\ agent_role agent
           = match task_type task with
             | work => coding
             | personal => chat
             end).
Proof.
  cbv zeta.
  pose proof registry_object as Hobject.
  pose proof registry_addresses as Haddress.
  destruct initialized_registry as [Hkeys _].
  cbv zeta in Hobject, Haddress, Hkeys.
  set (registry := fst (AgentRegistry.initialize defaultSystemPrompt detector
                          AgentRegistry.new)) in *.
  assert (Hfallback :
            exists agent,
              (match task_type task with
               | work =>
                   map_get "coding"
                     (AgentRegistry.agents registry)
               | personal =>
                   map_get "chat"
                     (AgentRegistry.agents registry)
               end
               = Some match task_type task with
                      | work => 1%nat
                      | personal => 7%nat
                      end)
              /\ AgentRegistry.objects registry
                 !! match task_type task with
                    | work => 1%nat
                    | personal => 7%nat
                    end = Some agent
              /\ agent_role agent
                 = match task_type task with
                   | work => coding
                   | personal => chat
                   end).
  { rewrite Hkeys. destruct (task_type task).
    - destruct (Hobject 1%nat _ coding work eq_refl)
        as (agent & ? & _ & ? & _).
      by exists agent.
    - destruct (Hobject 7%nat _ chat personal eq_refl)
        as (agent & ? & _ & ? & _).
      by exists agent. }
  destruct Hfallback as (fallback & Hkey & Hfound & Hrole).
  assert (Hrole_key :
            forall role,
              In role roles ->
              AgentRegistry.category_of task
              = Some (AgentRegistry.role_name role) ->
              exists agent,
                AgentRegistry.findAgentForTask registry task = Some agent
                /\ agent_role agent = role /\
                (role = github -> agent_type agent = work)).
  { intros role Hin Hcategory.
    unfold AgentRegistry.findAgentForTask, AgentRegistry.findAgentAddress.
    rewrite Hcategory, Hkeys. unfold roles in Hin. cbn [In] in Hin.
    repeat (destruct Hin as [<-|Hin];
            [cbn [AgentRegistry.role_name map_get find fst snd
                  String.eqb Ascii.eqb Bool.eqb option_map];
             edestruct Hobject as (agent & -> & _ & Hr & Ht); [reflexivity|];
             exists agent; split; [reflexivity|]; split; [exact Hr|];
             try discriminate; by intros _|]).
    destruct Hin. }
  split; [|split; [|split]].
  - unfold AgentRegistry.findAgentForTask, AgentRegistry.findAgentAddress.
    destruct (AgentRegistry.category_of task) as [category|].
    + destruct (map_get category
                  (AgentRegistry.agents registry)) as [address|] eqn:Hget.
      * exact (Haddress category address Hget).
      * rewrite Hkey, Hfound. by eexists.
    + rewrite Hkey, Hfound. by eexists.
  - intros role Hin Hcategory.
    destruct (Hrole_key role Hin Hcategory) as (agent & ? & ? & _).
    by exists agent.
  - intros Hcategory.
    destruct (Hrole_key github ltac:(by left) Hcategory)
      as (agent & ? & ? & Hwork).
    exists agent. split; [done|]. split; [done|]. by apply Hwork.
  - intros Hunknown. exists fallback.
    unfold AgentRegistry.findAgentForTask, AgentRegistry.findAgentAddress.
    destruct (AgentRegistry.category_of task) as [category|].
    + unfold AgentRegistry.getAgent in Hunknown.
      destruct (map_get category
                  (AgentRegistry.agents registry)) as [address|] eqn:Hget.
      * destruct (Haddress category address Hget) as [agent Hagent].
        by rewrite Hagent in Hunknown.
      * by rewrite Hkey, Hfound.
    + by rewrite Hkey, Hfound.
Qed.

Lemma found_agent (task : Task) :
  let registry :=
    fst (AgentRegistry.initialize defaultSystemPrompt detector
           AgentRegistry.new) in
  exists address agent,
    AgentRegistry.findAgentAddress registry task = Some address
    /\ AgentRegistry.objects registry !! address = Some agent
    /\ cards !! address = Some (card agent).
Proof.
  cbv zeta.
  pose proof registry_object as Hobject.
  pose proof registry_addresses as Haddress.
  destruct initialized_registry as [Hkeys Hcards].
  cbv zeta in Hobject, Haddress, Hkeys, Hcards.
  set (registry := fst (AgentRegistry.initialize defaultSystemPrompt detector
                          AgentRegistry.new)) in *.
  assert (Hsome : exists address agent,
             AgentRegistry.findAgentAddress registry task = Some address
             /\ AgentRegistry.objects registry !! address = Some agent).
  { unfold AgentRegistry.findAgentAddress.
    assert (Hfallback :
              exists address agent,
                match task_type task with
                | work =>
                    map_get "coding"
                      (AgentRegistry.agents registry)
                | personal =>
                    map_get "chat"
                      (AgentRegistry.agents registry)
                end = Some address
                /\ AgentRegistry.objects registry !! address = Some agent).
    { rewrite Hkeys. destruct (task_type task).
      - destruct (Hobject 1%nat _ coding work eq_refl) as (agent & ? & _).
        by exists 1%nat, agent.
      - destruct (Hobject 7%nat _ chat personal eq_refl) as (agent & ? & _).
        by exists 7%nat, agent. }
    destruct Hfallback as (fallback & agent & Hkey & Hagent).
    destruct (AgentRegistry.category_of task) as [category|].
    - destruct (map_get category
                  (AgentRegistry.agents registry)) as [address|] eqn:Hget.
      + destruct (Haddress category address Hget) as [found Hfound].
        by exists address, found.
      + exists fallback, agent. by rewrite Hkey.
    - exists fallback, agent. by rewrite Hkey. }
  destruct Hsome as (address & agent & Hfind & Hagent).
  exists address, agent. split; [exact Hfind|]. split; [exact Hagent|].
  rewrite <- Hcards. change (map ?f ?l) with (f <$> l).
  by rewrite list_lookup_fmap, Hagent.
Qed.

(** X26.  [executeTask] on an initialized registry never throws: it finds
    an agent, assigns the task to it and runs it, and the task comes back
    assigned to that agent and [completed] or [failed]. The agent that ran
    is one object under its two keys: looked up by its id or by its role
    after the run, it is the agent as [execute] left it. On a registry
    that has not been initialized, [executeTask] throws [No agent found
    for task] and does nothing. *)
Theorem X26_executeTask_runs_the_task_on_the_agent_found
  (task : Task) (w : World) :
  let registry :=
    fst (AgentRegistry.initialize defaultSystemPrompt detector
           AgentRegistry.new) in
  (exists agent task' registry',
      AgentRegistry.findAgentForTask registry task = Some agent
      /\ outcome (AgentRegistry.executeTask registry task w)
         = Ok (task', registry')
      /\ task_assignedAgent task' = Some (agent_id agent)
      /\ (task_status task' = completed \/ task_status task' = failed)
      /\ AgentRegistry.getAgent registry' (agent_id agent)
         = Some (released agent (now w))
      /\ AgentRegistry.getAgent registry'
           (AgentRegistry.role_name (agent_role agent))
         = Some (released agent (now w)))
  /\ AgentRegistry.executeTask AgentRegistry.new task w
     = (Throw (String.append "No agent found for task: " (task_title task)),
        w, []).
Proof.
  cbv zeta. split.
  - destruct (found_agent task) as (address & agent & Hfind & Hagent & Hcard).
    destruct initialized_registry as [Hkeys _].
    cbv zeta in Hfind, Hagent, Hkeys.
    set (registry := fst (AgentRegistry.initialize defaultSystemPrompt
                            detector AgentRegistry.new)) in *.
    destruct (execute_settles agent
                (AgentRegistry.assigned task
                   (BaseAgent.cfg_id (BaseAgent.config agent))) w)
      as (result & status & completedAt & Hrun & Hstatus).
    exists agent. eexists _, _.
    unfold AgentRegistry.findAgentForTask, AgentRegistry.executeTask.
    rewrite Hfind, Hagent. split; [reflexivity|].
    rewrite bind_run, Hrun. rewrite outcome_prepend.
    split; [reflexivity|]. cbn [fst snd].
    split; [reflexivity|].
    split; [destruct Hstatus as [(-> & _)|(-> & _)]; [by left|by right]|].
    unfold AgentRegistry.getAgent.
    cbn [AgentRegistry.agents AgentRegistry.objects]. rewrite Hkeys.
    assert (Hlt : (address < length (AgentRegistry.objects registry))%nat)
      by (apply lookup_lt_is_Some; by exists agent).
    assert (Hcases : (address < 9)%nat).
    { apply lookup_lt_Some in Hcard. exact Hcard. }
    unfold card in Hcard.
    do 9 (destruct address as [|address];
          [injection Hcard as <- <- _;
           cbn [AgentRegistry.role_name map_get find fst snd
                String.eqb Ascii.eqb Bool.eqb option_map];
           by rewrite list_lookup_insert_eq by exact Hlt|]).
    lia.
  - unfold AgentRegistry.executeTask, AgentRegistry.findAgentAddress.
    cbn [AgentRegistry.agents AgentRegistry.new map_get
         find option_map].
    by destruct (AgentRegistry.category_of task), (task_type task).
Qed.

End RegistryInitialisation.

(** ** The classifier, further *)

Section ClassifierStages.
Import Samantha.
Import PrimFloat.
Context {World : Type} {rt : Runtime World} {codec : JsonCodec}.
Variable SAMANTHA_SYSTEM_PROMPT : string.
Variable classificationPrompt : string -> string.
Variable modelId : option string.

Lemma model_stage_asks_once (fallback : TaskClassification) (m : string)
  (msgs : list Message) (answered : Result CompletionResponse * World) :
  exists rest,
    trace (model_stage fallback m msgs answered)
    = Completion m msgs (fst answered) :: rest
    /\ completions rest = [].
Proof.
  unfold model_stage. destruct answered as [[answer|e] w1]; cbn [fst].
  - destruct (jsonMatch (content answer)) as [text|]; [|by eexists].
    destruct (JSON_parse text); by eexists.
  - by eexists.
Qed.

(** X27.  Without an explicit type, [classifyTask] asks the model at most
    once, and it asks exactly when a model is set and the heuristic stage
    is not sure. When the heuristic stage is sure, its classification is
    returned as it is, with no request and no other effect; that is the
    case whenever indicators of one kind occur in the input and none of
    the other kind. *)
Theorem X27_classifyTask_asks_the_model_only_when_unsure
  (input : string) (w : World) :
  let workCount := matches workIndicators input in
  let personalCount := matches personalIndicators input in
  let run :=
    classifyTask SAMANTHA_SYSTEM_PROMPT classificationPrompt modelId input
      None w in
  (length (completions (trace run)) <= 1)%nat
  /\ (completions (trace run) = []
      <-> sure workCount personalCount \/ present modelId = None)
  /\ (sure workCount personalCount ->
      run = (Ok (Built (heuristicClassify input)), w, []))
  /\ ((0 < workCount)%nat /\ personalCount = 0%nat
      \/ workCount = 0%nat /\ (0 < personalCount)%nat ->
      sure workCount personalCount).
Proof.
  cbv zeta. rewrite classifyTask_stages.
  destruct (heuristicClassify_intent input) as (_ & _ & Hsure & _).
  cbv zeta in Hsure.
  assert (Hone :
            (0 < matches workIndicators input)%nat
            /\ matches personalIndicators input = 0%nat
            \/ matches workIndicators input = 0%nat
               /\ (0 < matches personalIndicators input)%nat ->
            sure (matches workIndicators input)
              (matches personalIndicators input)).
  { unfold sure. lia. }
  destruct (PrimFloat.ltb 0.8 (confidence (intent (heuristicClassify input))))
    eqn:Htest.
  - assert (Hyes : sure (matches workIndicators input)
                     (matches personalIndicators input)) by (by apply Hsure).
    split; [cbn; lia|]. split; [split; [intros _; by left|done]|].
    split; [done|]. by intros _.
  - assert (Hunsure : ~ sure (matches workIndicators input)
                          (matches personalIndicators input)).
    { intros H. apply Hsure in H. discriminate. }
    destruct (present modelId) as [m|].
    + match goal with
      | |- context [model_stage ?f ?m ?msgs ?a] =>
          destruct (model_stage_asks_once f m msgs a) as (rest & -> & Hrest)
      end.
      change (completions (?e :: rest)) with (e :: completions rest).
      rewrite Hrest. cbn [length].
      split; [lia|]. split; [split; [done|intros [?|?]; done]|].
      split; [done|exact Hone].
    + split; [cbn; lia|]. split; [split; [by right|done]|].
      split; [done|exact Hone].
Qed.

End ClassifierStages.

Section TitleFacts.
Import Samantha.

Lemma firstSentence_prefix (s : string) :
  String.prefix (firstSentence s) s = true.
Proof.
  induction s as [|c rest IH]; [reflexivity|].
  cbn [firstSentence].
  destruct (Ascii.eqb c "." || Ascii.eqb c "!" || Ascii.eqb c "?");
    [reflexivity|].
  cbn [String.prefix]. by destruct (ascii_dec c c).
Qed.

Lemma firstSentence_plain (s : string) (c : ascii) :
  In c (list_ascii_of_string (firstSentence s)) ->
  c <> "."%char /\ c <> "!"%char /\ c <> "?"%char.
Proof.
  induction s as [|a rest IH]; [intros []|].
  cbn [firstSentence].
  destruct (Ascii.eqb a "." || Ascii.eqb a "!" || Ascii.eqb a "?") eqn:Ha;
    [intros []|].
  cbn [list_ascii_of_string In]. intros [<-|Hin]; [|by apply IH].
  apply orb_false_iff in Ha as [Ha Hq].
  apply orb_false_iff in Ha as [Hd He].
  by rewrite !Ascii.eqb_neq in *.
Qed.

Lemma firstSentence_substring (s : string) :
  forall n,
    (n <= String.length (firstSentence s))%nat ->
    String.substring 0 n s = String.substring 0 n (firstSentence s).
Proof.
  induction s as [|a rest IH]; intros n Hn; [reflexivity|].
  cbn [firstSentence] in *.
  destruct (Ascii.eqb a "." || Ascii.eqb a "!" || Ascii.eqb a "?").
  - cbn [String.length] in Hn. by replace n with 0%nat by lia.
  - destruct n as [|n]; [reflexivity|].
    cbn [String.length String.substring] in *. rewrite IH; [done|lia].
Qed.

(** X28.  The title that [extractTitle] gives a task is at most fifty
    characters long. It is the first sentence of the input, the characters
    before the first full stop, exclamation mark or question mark, when
    that has at most fifty characters; otherwise it is the first 47
    characters of that sentence followed by three dots. *)
Theorem X28_extractTitle_fits_fifty_characters (input : string) :
  let title := extractTitle input in
  let sentence := firstSentence input in
  (String.length title <= 50)%nat
  /\ String.prefix sentence input = true
  /\ (forall c,
         In c (list_ascii_of_string sentence) ->
         c <> "."%char /\ c <> "!"%char /\ c <> "?"%char)
  /\ ((String.length sentence <= 50)%nat /\ title = sentence
      \/ (50 < String.length sentence)%nat
         /\ exists kept,
             title = String.append kept "..."
             /\ String.prefix kept sentence = true
             /\ String.length kept = 47%nat).
Proof.
  cbv zeta.
  assert (Hcases :
            (String.length (firstSentence input) <= 50)%nat
            /\ extractTitle input = firstSentence input
            \/ (50 < String.length (firstSentence input))%nat
               /\ exists kept,
                   extractTitle input = String.append kept "..."
                   /\ String.prefix kept (firstSentence input) = true
                   /\ String.length kept = 47%nat).
  { unfold extractTitle.
    destruct (Nat.leb_spec (String.length (firstSentence input)) 50)
      as [Hshort|Hlong]; [by left|right].
    split; [exact Hlong|].
    exists (String.substring 0 47 (firstSentence input)).
    rewrite firstSentence_substring by lia.
    split; [reflexivity|]. split; [apply substring_prefix|].
    rewrite substring_length. lia. }
  split; [|split; [apply firstSentence_prefix|split;
                   [apply firstSentence_plain|exact Hcases]]].
  destruct Hcases as [[Hshort ->]|(_ & kept & -> & _ & Hkept)]; [exact Hshort|].
  rewrite length_append, Hkept. cbn. lia.
Qed.

End TitleFacts.

Section KeywordFacts.
Import Samantha.

Lemma prefix_includes (a b s : string) :
  String.prefix (String.append a b) s = true -> includes b s = true.
Proof.
  revert s. induction a as [|c a IH]; intros s.
  - rewrite append_empty. intros Hprefix.
    destruct s; cbn [includes]; by rewrite Hprefix.
  - rewrite append_cons. destruct s as [|d s]; [done|].
    cbn [String.prefix]. destruct (ascii_dec c d); [|done].
    intros Hprefix. cbn [includes]. rewrite (IH s Hprefix).
    apply orb_true_r.
Qed.

(** A text that holds [a] followed by [b] holds [b]. *)
Lemma includes_append (a b s : string) :
  includes (String.append a b) s = true -> includes b s = true.
Proof.
  induction s as [|c s IH].
  - cbn [includes]. rewrite orb_false_r. apply prefix_includes.
  - rewrite includes_cons.
    intros [Hprefix|Hrest]%orb_true_iff.
    + by apply prefix_includes in Hprefix.
    + cbn [includes]. rewrite (IH Hrest). apply orb_true_r.
Qed.

(** X29.  [detectPriority] never reads the words [low priority]: an input
    that holds them holds [priority], which is tested before, and is given
    priority [high], or [urgent] when it holds an urgent word. So the
    inputs of priority [low] are among those that hold [when you can] or
    [whenever]. *)
Theorem X29_detectPriority_never_reads_low_priority (input : string) :
  let lowerInput := Utils.toLowerCase input in
  (includes "low priority" lowerInput = true ->
   detectPriority input = high \/ detectPriority input = urgent)
  /\ (detectPriority input = low ->
      includes "when you can" lowerInput = true
      \/ includes "whenever" lowerInput = true).
Proof.
  cbv zeta. unfold detectPriority.
  set (lowerInput := Utils.toLowerCase input).
  destruct (test ["urgent"; "asap"; "immediately"; "critical"; "emergency"]
              lowerInput); [split; [by right|done]|].
  destruct (test ["important"; "priority"; "soon"; "today"] lowerInput)
    eqn:Hhigh; [split; [by left|done]|].
  assert (Hnone : includes "low priority" lowerInput = false).
  { destruct (includes "low priority" lowerInput) eqn:Hlow; [|done].
    apply (includes_append "low " "priority") in Hlow.
    unfold test in Hhigh. cbn [existsb] in Hhigh.
    rewrite Hlow in Hhigh. by rewrite !orb_true_r in Hhigh. }
  split; [by rewrite Hnone|].
  unfold test. cbn [existsb]. rewrite Hnone, !orb_false_r.
  destruct (includes "when you can" lowerInput); [by left|].
  destruct (includes "whenever" lowerInput); [by right|done].
Qed.

(** X30.  The category that [detectCategory] gives an input names the role
    that [categoryToAgent] suggests for it, which is a key of the agent
    registry. The word [post] never makes an input [social]: it is tested
    with the creative words before. *)
Theorem X30_detectCategory_names_the_suggested_agent (input : string) :
  AgentRegistry.role_name (categoryToAgent (detectCategory input))
  = detectCategory input
  /\ (includes "post" (Utils.toLowerCase input) = true ->
      detectCategory input <> "social").
Proof.
  unfold detectCategory.
  set (lowerInput := Utils.toLowerCase input).
  repeat match goal with
         | |- context [if test ?words lowerInput then _ else _] =>
             let H := fresh "H" in
             destruct (test words lowerInput) eqn:H; [by split|]
         end.
  assert (Hpost : includes "post" lowerInput = false).
  { match goal with
    | H : test ["write"; _; _; _; _; "post"] lowerInput = false |- _ =>
        unfold test in H; cbn [existsb] in H;
        by destruct (includes "post" lowerInput);
          [rewrite !orb_true_r in H|]
    end. }
  rewrite Hpost.
  by destruct (test ["social"; "twitter"; "linkedin"; "instagram"; "post"]
                 lowerInput).
Qed.

End KeywordFacts.
